(** * Invoice extractor: the ledger, the exporter, the normalizer and the batch loop

    A shallow embedding of [src/app/page.tsx] (the client: batch submission,
    the editable ledger, the CSV export) and of the extraction route
    (the server: locating, parsing and sanitizing the model's reply).

    Conventions.
    - A JavaScript number is an IEEE 754 binary64 value: Rocq's primitive
      [float], with the same rounding, NaN and signed zeros.
    - The client's records are typed as the route's schema types them: a
      text field holds a string, an amount a number, and a field that is
      [null] or [undefined] is [None]; the code only ever tests such a
      field with [||], which treats the two alike.
    - The server's payload is whatever [JSON.parse] returned: a [JsValue],
      objects being finite maps from keys to values.
    - A JavaScript string is a [string]; a character stands for one code
      unit below 256.
    - A JavaScript array is a [list] (dense: no holes).  Reads use stdpp's
      [l !! i]; a write past the end is spelled out in [arrayWrite].
    - The handlers copy the state array and then write into the objects
      it shares with the old state; the embedding returns the new state,
      which is all a later render or handler reads.
    - Functions of the platform are parameters: [JSON.parse], the
      conversion of a number inside a template literal, and the round
      trip to the server. *)

From Stdlib Require Import Floats Ascii.
From stdpp Require Import base option list strings gmap pretty.

(** ** JavaScript values used by the client *)

(** [ToBoolean] on a number: [0], [-0] and [NaN] are falsy. *)
Definition truthy (x : float) : bool :=
  negb (PrimFloat.eqb x 0%float) && PrimFloat.eqb x x.

(** [x || 0] where [x] is already a number (as in [parseFloat(v) || 0]). *)
Definition numberOrZero (x : float) : float :=
  if truthy x then x else 0%float.

(** [x || 0] on a numeric field that may be absent. *)
Definition orZero (x : option float) : float :=
  match x with
  | Some v => numberOrZero v
  | None => 0%float
  end.

(** [s || ""] on a text field that may be absent (the empty string is
    falsy, and is replaced by itself). *)
Definition orEmpty (s : option string) : string :=
  match s with
  | Some v => v
  | None => ""
  end.

(** Result of an event handler: it returns the next state, or throws a
    [TypeError] (a property read on [undefined] or [null]), or writes past
    the end of an array and leaves holes, which a dense list cannot hold. *)
Inductive Outcome (A : Type) : Type :=
| Returns (a : A)
| TypeError
| SparseArray.
Arguments Returns {A} a.
Arguments TypeError {A}.
Arguments SparseArray {A}.

(** [a[i] = x] on a JavaScript array: in range it replaces, at
    [i = a.length] it extends the array by one, further out it would leave
    holes. *)
Definition arrayWrite {A : Type} (a : list A) (i : nat) (x : A) : option (list A) :=
  if decide (i < length a) then Some (<[i := x]> a)
  else if decide (i = length a) then Some (a ++ [x])
  else None.

(** [a.filter((_, idx) => keep idx)], scanning from index [idx]. *)
Fixpoint filterIndexFrom {A : Type} (keep : nat -> bool) (idx : nat) (a : list A) : list A :=
  match a with
  | [] => []
  | x :: rest =>
      if keep idx then x :: filterIndexFrom keep (S idx) rest
      else filterIndexFrom keep (S idx) rest
  end.

Definition filterIndex {A : Type} (keep : nat -> bool) (a : list A) : list A :=
  filterIndexFrom keep 0 a.

(** ** Data model *)

Record LineItem : Type := {
  description : option string;
  quantity : option float;
  unit_price : option float;
  line_total : option float
}.

Record InvoiceRecord : Type := {
  vendor_name : option string;
  vendor_address : option string;
  vendor_email : option string;
  vendor_phone : option string;
  invoice_number : option string;
  invoice_date : option string;
  due_date : option string;
  purchase_order_number : option string;
  subtotal : option float;
  tax_amount : option float;
  total_amount : option float;
  line_items : option (list LineItem);
  _filename : option string
}.

(** The ledger is the React state [extractedInvoices]. *)
Abbreviation Ledger := (list InvoiceRecord).

(** [{}]: an object with no property set. *)
Definition emptyItem : LineItem :=
  {| description := None; quantity := None; unit_price := None; line_total := None |}.

Definition emptyInvoice : InvoiceRecord :=
  {| vendor_name := None; vendor_address := None; vendor_email := None;
     vendor_phone := None; invoice_number := None; invoice_date := None;
     due_date := None; purchase_order_number := None;
     subtotal := None; tax_amount := None; total_amount := None;
     line_items := None; _filename := None |}.

(** The top-level scalar fields, by type of their value. *)
Inductive TextField : Type :=
| Fvendor_name | Fvendor_address | Fvendor_email | Fvendor_phone
| Finvoice_number | Finvoice_date | Fdue_date | Fpurchase_order_number.

Inductive AmountField : Type :=
| Fsubtotal | Ftax_amount | Ftotal_amount.

Global Instance TextField_eq_dec : EqDecision TextField.
Proof. solve_decision. Defined.

Global Instance AmountField_eq_dec : EqDecision AmountField.
Proof. solve_decision. Defined.

Definition getText (f : TextField) (inv : InvoiceRecord) : option string :=
  match f with
  | Fvendor_name => vendor_name inv
  | Fvendor_address => vendor_address inv
  | Fvendor_email => vendor_email inv
  | Fvendor_phone => vendor_phone inv
  | Finvoice_number => invoice_number inv
  | Finvoice_date => invoice_date inv
  | Fdue_date => due_date inv
  | Fpurchase_order_number => purchase_order_number inv
  end.

Definition getAmount (f : AmountField) (inv : InvoiceRecord) : option float :=
  match f with
  | Fsubtotal => subtotal inv
  | Ftax_amount => tax_amount inv
  | Ftotal_amount => total_amount inv
  end.

(** [{...inv, [f]: v}] for a text field [f]. *)
Definition setText (f : TextField) (v : option string) (inv : InvoiceRecord) : InvoiceRecord :=
  let pick g := if decide (f = g) then v else getText g inv in
  {| vendor_name := pick Fvendor_name;
     vendor_address := pick Fvendor_address;
     vendor_email := pick Fvendor_email;
     vendor_phone := pick Fvendor_phone;
     invoice_number := pick Finvoice_number;
     invoice_date := pick Finvoice_date;
     due_date := pick Fdue_date;
     purchase_order_number := pick Fpurchase_order_number;
     subtotal := subtotal inv; tax_amount := tax_amount inv;
     total_amount := total_amount inv;
     line_items := line_items inv; _filename := _filename inv |}.

(** [{...inv, [f]: v}], or [inv[f] = v], for an amount field [f]. *)
Definition setAmount (f : AmountField) (v : option float) (inv : InvoiceRecord) : InvoiceRecord :=
  let pick g := if decide (f = g) then v else getAmount g inv in
  {| vendor_name := vendor_name inv; vendor_address := vendor_address inv;
     vendor_email := vendor_email inv; vendor_phone := vendor_phone inv;
     invoice_number := invoice_number inv; invoice_date := invoice_date inv;
     due_date := due_date inv;
     purchase_order_number := purchase_order_number inv;
     subtotal := pick Fsubtotal;
     tax_amount := pick Ftax_amount;
     total_amount := pick Ftotal_amount;
     line_items := line_items inv; _filename := _filename inv |}.

(** [inv.line_items = items]. *)
Definition setLineItems (items : list LineItem) (inv : InvoiceRecord) : InvoiceRecord :=
  {| vendor_name := vendor_name inv; vendor_address := vendor_address inv;
     vendor_email := vendor_email inv; vendor_phone := vendor_phone inv;
     invoice_number := invoice_number inv; invoice_date := invoice_date inv;
     due_date := due_date inv;
     purchase_order_number := purchase_order_number inv;
     subtotal := subtotal inv; tax_amount := tax_amount inv;
     total_amount := total_amount inv;
     line_items := Some items; _filename := _filename inv |}.

(** [{...data, _filename: name}]. *)
Definition setFilename (name : string) (inv : InvoiceRecord) : InvoiceRecord :=
  {| vendor_name := vendor_name inv; vendor_address := vendor_address inv;
     vendor_email := vendor_email inv; vendor_phone := vendor_phone inv;
     invoice_number := invoice_number inv; invoice_date := invoice_date inv;
     due_date := due_date inv;
     purchase_order_number := purchase_order_number inv;
     subtotal := subtotal inv; tax_amount := tax_amount inv;
     total_amount := total_amount inv;
     line_items := line_items inv; _filename := Some name |}.

(** ** The ledger: [updateInvoice], [updateLineItem], [addLineItem],
       [deleteLineItem] and the tax input's [onChange] *)

(** The two kinds of call [updateInvoice(index, field, value)] receives:
    a text field with a string, an amount field with a number. *)
Inductive InvoiceUpdate : Type :=
| TextUpdate (field : TextField) (value : option string)
| AmountUpdate (field : AmountField) (value : option float).

(** [{...inv, [field]: value}]. *)
Definition assignInvoiceField (u : InvoiceUpdate) (inv : InvoiceRecord) : InvoiceRecord :=
  match u with
  | TextUpdate f v => setText f v inv
  | AmountUpdate f v => setAmount f v inv
  end.

(** [updateInvoice]: the spread of an [undefined] element is the empty
    object, so an index at the end of the array appends a record that has
    only [field]. *)
Definition updateInvoice (index : nat) (u : InvoiceUpdate)
    (extractedInvoices : Ledger) : Outcome Ledger :=
  let current := default emptyInvoice (extractedInvoices !! index) in
  match arrayWrite extractedInvoices index (assignInvoiceField u current) with
  | Some updated => Returns updated
  | None => SparseArray
  end.

(** The calls [updateLineItem(invoiceIndex, itemIndex, field, value)]
    receives, one constructor per [field]. *)
Inductive ItemUpdate : Type :=
| Description (value : option string)
| Quantity (value : option float)
| UnitPrice (value : option float)
| LineTotal (value : option float).

(** [{...item, [field]: value}]. *)
Definition assignItemField (u : ItemUpdate) (item : LineItem) : LineItem :=
  match u with
  | Description v =>
      {| description := v; quantity := quantity item;
         unit_price := unit_price item; line_total := line_total item |}
  | Quantity v =>
      {| description := description item; quantity := v;
         unit_price := unit_price item; line_total := line_total item |}
  | UnitPrice v =>
      {| description := description item; quantity := quantity item;
         unit_price := v; line_total := line_total item |}
  | LineTotal v =>
      {| description := description item; quantity := quantity item;
         unit_price := unit_price item; line_total := v |}
  end.

Definition setLineTotal (v : float) (item : LineItem) : LineItem :=
  {| description := description item; quantity := quantity item;
     unit_price := unit_price item; line_total := Some v |}.

(** "Auto-calculate line total if quantity or unit_price changed":
    [item] is the element after [assignItemField]. *)
Definition autoCalculate (u : ItemUpdate) (item : LineItem) : LineItem :=
  match u with
  | Quantity value =>
      let qty := value in
      let price := unit_price item in
      setLineTotal (orZero qty * orZero price)%float item
  | UnitPrice value =>
      let qty := quantity item in
      let price := value in
      setLineTotal (orZero qty * orZero price)%float item
  | Description _ | LineTotal _ => item
  end.

(** [items.reduce((sum, item) => sum + (item.line_total || 0), 0)]. *)
Definition sumLineTotals (items : list LineItem) : float :=
  fold_left (fun sum item => (sum + orZero (line_total item))%float) items 0%float.

(** "Recalculate invoice totals": store the items, then [subtotal], then
    [total_amount = subtotal + (tax_amount || 0)]. *)
Definition recalculateTotals (items : list LineItem) (inv : InvoiceRecord) : InvoiceRecord :=
  let inv1 := setLineItems items inv in
  let subtotal := sumLineTotals items in
  let inv2 := setAmount Fsubtotal (Some subtotal) inv1 in
  setAmount Ftotal_amount (Some (subtotal + orZero (tax_amount inv2))%float) inv2.

Definition updateLineItem (invoiceIndex itemIndex : nat) (u : ItemUpdate)
    (extractedInvoices : Ledger) : Outcome Ledger :=
  match extractedInvoices !! invoiceIndex with
  | None => TypeError
  | Some inv =>
      match line_items inv with
      | None => TypeError
      | Some items =>
          let current := default emptyItem (items !! itemIndex) in
          let edited := autoCalculate u (assignItemField u current) in
          match arrayWrite items itemIndex edited with
          | None => SparseArray
          | Some updatedLineItems =>
              Returns (<[invoiceIndex := recalculateTotals updatedLineItems inv]>
                         extractedInvoices)
          end
      end
  end.

Definition newItem : LineItem :=
  {| description := Some "New Item"; quantity := Some 1%float;
     unit_price := Some 0%float; line_total := Some 0%float |}.

Definition addLineItem (invoiceIndex : nat) (extractedInvoices : Ledger) : Outcome Ledger :=
  match extractedInvoices !! invoiceIndex with
  | None => TypeError
  | Some inv =>
      let items := default [] (line_items inv) ++ [newItem] in
      Returns (<[invoiceIndex := recalculateTotals items inv]> extractedInvoices)
  end.

Definition deleteLineItem (invoiceIndex itemIndex : nat)
    (extractedInvoices : Ledger) : Outcome Ledger :=
  match extractedInvoices !! invoiceIndex with
  | None => TypeError
  | Some inv =>
      match line_items inv with
      | None => TypeError
      | Some items =>
          let kept := filterIndex (fun idx => negb (idx =? itemIndex)) items in
          Returns (<[invoiceIndex := recalculateTotals kept inv]> extractedInvoices)
      end
  end.

(** The tax input's [onChange]; [parsed] is [parseFloat(e.target.value)]. *)
Definition onTaxChange (idx : nat) (parsed : float) (extractedInvoices : Ledger) : Outcome Ledger :=
  let newTax := numberOrZero parsed in
  match extractedInvoices !! idx with
  | None => TypeError
  | Some inv =>
      let inv1 := setAmount Ftax_amount (Some newTax) inv in
      let inv2 :=
        setAmount Ftotal_amount (Some (orZero (subtotal inv1) + newTax)%float) inv1 in
      Returns (<[idx := inv2]> extractedInvoices)
  end.

(** What the line-item inputs show: [value={item.quantity || 0}] and its
    two neighbours. *)
Definition quantityInput (item : LineItem) : float := orZero (quantity item).
Definition unitPriceInput (item : LineItem) : float := orZero (unit_price item).
Definition lineTotalInput (item : LineItem) : float := orZero (line_total item).

(** What the amount inputs show: [value={invoice.subtotal || 0}] and its
    two neighbours. *)
Definition subtotalInput (invoice : InvoiceRecord) : float := orZero (subtotal invoice).
Definition taxInput (invoice : InvoiceRecord) : float := orZero (tax_amount invoice).
Definition totalInput (invoice : InvoiceRecord) : float := orZero (total_amount invoice).

(** ** The exporter: [exportToCSV] *)

Definition dq : string := String "034"%char "".
Definition newline : string := String "010"%char "".

Definition header : string :=
  "Vendor,Invoice Number,Invoice Date,Due Date,PO Number,Description,Quantity,Unit Price,Line Total,Subtotal,Tax,Total"
  +:+ newline.

(** [a.forEach((x, index) => ...)] around a body that updates a local
    variable of type [St]. *)
Fixpoint forEachFrom {A St : Type} (body : St -> A -> nat -> St) (index : nat)
    (a : list A) (s : St) : St :=
  match a with
  | [] => s
  | x :: rest => forEachFrom body (S index) rest (body s x index)
  end.

Definition forEach {A St : Type} (body : St -> A -> nat -> St) (a : list A) (s : St) : St :=
  forEachFrom body 0 a s.

Section Exporter.

(** The conversion of a number inside a template literal
    ([Number::toString] of the platform). *)
Variable numToString : float -> string.

(** A text field between double quotes: the field, or nothing when it is
    absent or empty. *)
Definition textCell (s : option string) : string :=
  dq +:+ orEmpty s +:+ dq.

(** A numeric field inside the template literal: [x || 0], converted. *)
Definition numberCell (x : option float) : string :=
  numToString (orZero x).

(** The five statements both branches start with. *)
Definition invoiceColumns (invoice : InvoiceRecord) : string :=
  textCell (vendor_name invoice) +:+ "," +:+
  textCell (invoice_number invoice) +:+ "," +:+
  textCell (invoice_date invoice) +:+ "," +:+
  textCell (due_date invoice) +:+ "," +:+
  textCell (purchase_order_number invoice) +:+ ",".

(** One pass of the inner [forEach]. *)
Definition lineItemRow (invoice : InvoiceRecord) (item : LineItem) (index : nat) : string :=
  invoiceColumns invoice +:+
  textCell (description item) +:+ "," +:+
  numberCell (quantity item) +:+ "," +:+
  numberCell (unit_price item) +:+ "," +:+
  numberCell (line_total item) +:+ "," +:+
  (if decide (index = 0)
   then numberCell (subtotal invoice) +:+ "," +:+
        numberCell (tax_amount invoice) +:+ "," +:+
        numberCell (total_amount invoice)
   else ",,") +:+
  newline.

(** The [else] branch: "Invoice with no line items". *)
Definition noLineItemsRow (invoice : InvoiceRecord) : string :=
  invoiceColumns invoice +:+
  dq +:+ "No line items" +:+ dq +:+ ",,,," +:+
  numberCell (subtotal invoice) +:+ "," +:+
  numberCell (tax_amount invoice) +:+ "," +:+
  numberCell (total_amount invoice) +:+ newline.

(** One pass of the outer [forEach]; [csv] is the local accumulator. *)
Definition exportInvoice (csv : string) (invoice : InvoiceRecord) (_ : nat) : string :=
  match line_items invoice with
  | Some (first :: rest) =>
      forEach (fun csv item index => csv +:+ lineItemRow invoice item index)
              (first :: rest) csv
  | Some [] | None => csv +:+ noLineItemsRow invoice
  end.

(** The text handed to the [Blob]; [None] when the handler returns at
    once because the ledger is empty. *)
Definition exportToCSV (extractedInvoices : Ledger) : option string :=
  if decide (length extractedInvoices = 0) then None
  else
    let csv := "" in
    let csv := csv +:+ header in
    Some (forEach exportInvoice extractedInvoices csv).

End Exporter.

(** ** The normalizer: the route's handling of the model's reply *)

(** *** Strings *)

Definition isChar (c d : ascii) : bool := bool_decide (c = d).

(** The longest prefix of [s] that ends in [close], if [close] occurs:
    what a greedy [[\s\S]*] followed by [close] consumes. *)
Fixpoint throughLast (close : ascii) (s : string) : option string :=
  match s with
  | EmptyString => None
  | String c rest =>
      match throughLast close rest with
      | Some p => Some (String c p)
      | None => if isChar c close then Some (String c EmptyString) else None
      end
  end.

(** [responseText.match(/\{[\s\S]*\}/)]: the leftmost position where the
    pattern matches, and there the longest match. *)
Fixpoint jsonMatch (responseText : string) : option string :=
  match responseText with
  | EmptyString => None
  | String c rest =>
      if isChar c "{" then
        match throughLast "}" rest with
        | Some p => Some (String c p)
        | None => jsonMatch rest
        end
      else jsonMatch rest
  end.

(** Whether [c] occurs in [s]. *)
Fixpoint occurs (c : ascii) (s : string) : bool :=
  match s with
  | EmptyString => false
  | String d rest => isChar d c || occurs c rest
  end.

(** [str.replace(/<[^>]*>/g, "")].  [inTag] holds while the scan is inside
    a match, between its ["<"] and the next [">"]; a ["<"] opens a match
    only if a [">"] follows somewhere, otherwise it is kept. *)
Fixpoint replaceTags (inTag : bool) (str : string) : string :=
  match str with
  | EmptyString => EmptyString
  | String c rest =>
      if inTag then
        if isChar c ">" then replaceTags false rest else replaceTags true rest
      else if isChar c "<" && occurs ">" rest then replaceTags true rest
      else String c (replaceTags false rest)
  end.

(** White space of [String.prototype.trim] among the code units below 256:
    tab, line feed, vertical tab, form feed, carriage return, space and
    the no-break space. *)
Definition isWhiteSpace (c : ascii) : bool :=
  let n := nat_of_ascii c in
  (9 <=? n) && (n <=? 13) || (n =? 32) || (n =? 160).

Fixpoint trimStart (s : string) : string :=
  match s with
  | EmptyString => EmptyString
  | String c rest => if isWhiteSpace c then trimStart rest else s
  end.

Fixpoint trimEnd (s : string) : string :=
  match s with
  | EmptyString => EmptyString
  | String c rest =>
      match trimEnd rest with
      | EmptyString => if isWhiteSpace c then EmptyString else String c EmptyString
      | kept => String c kept
      end
  end.

Definition trim (s : string) : string := trimEnd (trimStart s).

(** *** Parsed values *)

(** A value of type [any] on the server: what [JSON.parse] builds, and
    [undefined], which reading a missing property yields. *)
#[warnings="-register-all"]
Inductive JsValue : Type :=
| JUndefined
| JNull
| JBool (b : bool)
| JNumber (x : float)
| JString (s : string)
| JArray (items : list JsValue)
| JObject (props : gmap string JsValue).

(** [typeof v === "string"]. *)
Definition isString (v : JsValue) : bool :=
  match v with
  | JString _ => true
  | _ => false
  end.

(** The route's [sanitize]. *)
Definition sanitize (str : JsValue) : JsValue :=
  match str with
  | JString s => JString (trim (replaceTags false s))
  | _ => str
  end.

(** The characters of a string as one-character strings. *)
Fixpoint characters (s : string) : list JsValue :=
  match s with
  | EmptyString => []
  | String c rest => JString (String c EmptyString) :: characters rest
  end.

(** The properties an array or a string has under its indices. *)
Definition indexed (items : list JsValue) : gmap string JsValue :=
  list_to_map (imap (fun i x => (pretty i, x)) items).

(** [{...item}]: the own enumerable properties of [item]; none for
    [null], [undefined], a number or a boolean. *)
Definition spread (item : JsValue) : gmap string JsValue :=
  match item with
  | JObject props => props
  | JArray items => indexed items
  | JString s => indexed (characters s)
  | JUndefined | JNull | JBool _ | JNumber _ => ∅
  end.

(** [item.description]: [None] when the read throws a [TypeError], which
    it does on [null] and [undefined]. *)
Definition readDescription (item : JsValue) : option JsValue :=
  match item with
  | JUndefined | JNull => None
  | JObject props => Some (default JUndefined (props !! "description"))
  | JBool _ | JNumber _ | JString _ | JArray _ => Some JUndefined
  end.

(** The callback of [line_items.map]:
    [{...item, description: sanitize(item.description)}]. *)
Definition sanitizeLineItem (item : JsValue) : option JsValue :=
  d ← readDescription item;
  Some (JObject (<["description" := sanitize d]> (spread item))).

(** "Sanitize all string fields": the loop over [Object.keys] of an
    object, assigning to the keys whose value is a string. *)
Definition sanitizeStringFields (extractedData : gmap string JsValue) : gmap string JsValue :=
  map_fold
    (fun key value updated =>
       if isString value then <[key := sanitize value]> updated else updated)
    extractedData extractedData.

(** "Sanitize line items", on an object. *)
Definition sanitizeLineItems (extractedData : gmap string JsValue)
  : option (gmap string JsValue) :=
  match extractedData !! "line_items" with
  | Some (JArray items) =>
      mapped ← mapM sanitizeLineItem items;
      Some (<["line_items" := JArray mapped]> extractedData)
  | _ => Some extractedData
  end.

(** The two sanitizing steps on whatever [JSON.parse] returned; [None]
    when a step throws a [TypeError].  An array has its indices as keys
    and no [line_items]; a number or a boolean has no key; [Object.keys]
    throws on [null]; assigning to an index of a string throws in a
    module, which is strict code. *)
Definition sanitizeData (extractedData : JsValue) : option JsValue :=
  match extractedData with
  | JObject props =>
      JObject <$> sanitizeLineItems (sanitizeStringFields props)
  | JArray items => Some (JArray (sanitize <$> items))
  | JBool _ | JNumber _ => Some extractedData
  | JString s => if decide (s = "") then Some extractedData else None
  | JUndefined | JNull => None
  end.

(** *** The handler, from the reply text on *)

(** [NextResponse.json] of an error body with a status, or of the
    success body with its [data]. *)
Inductive Response : Type :=
| ErrorResponse (error : string) (status : nat)
| DataResponse (data : JsValue).

(** The spec's names for the two structural failures, and the response of
    the handler's outer [catch]. *)
Definition NoStructuredPayload : Response :=
  ErrorResponse "Failed to extract structured data from invoice" 500.

Definition MalformedPayload : Response :=
  ErrorResponse "Failed to parse extracted data" 500.

Definition ProcessingFailure : Response :=
  ErrorResponse "Failed to process invoice" 500.

Section Normalizer.

(** [JSON.parse] of the platform; [None] when it throws a
    [SyntaxError]. *)
Variable JSON_parse : string -> option JsValue.

Definition normalize (responseText : string) : Response :=
  match jsonMatch responseText with
  | None => NoStructuredPayload
  | Some jsonMatch0 =>
      match JSON_parse jsonMatch0 with
      | None => MalformedPayload
      | Some extractedData =>
          match sanitizeData extractedData with
          | None => ProcessingFailure
          | Some data => DataResponse data
          end
      end
  end.

End Normalizer.

(** ** The batch loop: [handleSubmit] *)

(** The loop reads a file's [name]; its content is what the request
    carries. *)
Record File : Type := { name : string }.

(** The JSON body of the route's response, [result]. *)
Record ResultBody : Type := {
  error : option string;
  data : option InvoiceRecord
}.

(** One round trip: [fetch] or [response.json()] rejects, or a body
    arrives together with [response.ok]. *)
Inductive FetchOutcome : Type :=
| Rejected
| Responded (ok : bool) (result : ResultBody).

(** The [try] block after the round trip: [None] when it throws (into the
    [catch] of the same iteration), else the record pushed to [results]. *)
Definition tryBlock (file : File) (outcome : FetchOutcome) : option InvoiceRecord :=
  match outcome with
  | Rejected => None
  | Responded false _ => None
  | Responded true result =>
      Some (setFilename (name file) (default emptyInvoice (data result)))
  end.

(** The local variables of [handleSubmit] and the world outside. *)
Record Batch (World : Type) : Type := {
  results : list InvoiceRecord;
  failedFiles : list string;
  world : World
}.
Arguments results {World} _.
Arguments failedFiles {World} _.
Arguments world {World} _.

(** [failedFiles.join(", ")]. *)
Fixpoint join (sep : string) (parts : list string) : string :=
  match parts with
  | [] => ""
  | [p] => p
  | p :: rest => p +:+ sep +:+ join sep rest
  end.

Section Orchestrator.

(** The server, the network and the clock, as a state the calls thread. *)
Variable World : Type.
(** [await fetch("/api/extract", ...)] and [await response.json()]. *)
Variable fetchExtract : File -> World -> FetchOutcome * World.
(** [await new Promise(resolve => setTimeout(resolve, 500))]. *)
Variable delay : World -> World.

(** The body of the [for] loop, for [files[i]]. *)
Definition processFile (total : nat) (b : Batch World) (file : File) (i : nat)
  : Batch World :=
  let '(outcome, w) := fetchExtract file (world b) in
  let b1 :=
    match tryBlock file outcome with
    | Some record =>
        {| results := results b ++ [record]; failedFiles := failedFiles b; world := w |}
    | None =>
        {| results := results b; failedFiles := failedFiles b ++ [name file]; world := w |}
    end in
  if decide (i < total - 1)
  then {| results := results b1; failedFiles := failedFiles b1; world := delay (world b1) |}
  else b1.

(** What [handleSubmit] leaves in the component's state. *)
Record Submitted : Type := {
  extractedInvoices : list InvoiceRecord;
  errorMessage : string;
  failed : list string;
  finalWorld : World
}.

(** [handleSubmit]; [None] when it returns at once on an empty
    selection. *)
Definition handleSubmit (files : list File) (w : World) : option Submitted :=
  if decide (length files = 0) then None
  else
    let start := {| results := []; failedFiles := []; world := w |} in
    let b := forEach (processFile (length files)) files start in
    Some {| extractedInvoices := results b;
            errorMessage :=
              if decide (0 < length (failedFiles b))
              then "Failed to process: " +:+ join ", " (failedFiles b)
              else "";
            failed := failedFiles b;
            finalWorld := world b |}.

(** The outcomes of the round trips of a batch, in order: the run of
    the loop read as a trace. *)
Fixpoint roundTrips (total : nat) (i : nat) (files : list File) (w : World)
  : list (File * FetchOutcome) :=
  match files with
  | [] => []
  | file :: rest =>
      let '(outcome, w1) := fetchExtract file w in
      let w2 := if decide (i < total - 1) then delay w1 else w1 in
      (file, outcome) :: roundTrips total (S i) rest w2
  end.

End Orchestrator.

Arguments extractedInvoices {World} _.
Arguments errorMessage {World} _.
Arguments failed {World} _.
Arguments finalWorld {World} _.

(** ** Vocabulary of the statements *)

(** The line items of an invoice, none when the field is absent. *)
Definition itemsOf (inv : InvoiceRecord) : list LineItem :=
  default [] (line_items inv).

(** "[subtotal] equals the sum of the line items' [line_total]". *)
Definition subtotalIsSum (inv : InvoiceRecord) : Prop :=
  subtotal inv = Some (sumLineTotals (itemsOf inv)).

(** "[total_amount] equals [subtotal + tax_amount]", an absent tax
    counting as [0]. *)
Definition totalIsSubtotalPlusTax (inv : InvoiceRecord) : Prop :=
  exists st : float,
    subtotal inv = Some st /\
    total_amount inv = Some (st + orZero (tax_amount inv))%float.

(** The same when the subtotal is read the way the tax input reads it,
    [subtotal || 0]. *)
Definition totalIsReadSubtotalPlusTax (inv : InvoiceRecord) : Prop :=
  total_amount inv = Some (orZero (subtotal inv) + orZero (tax_amount inv))%float.

(** The mutations of one invoice the ledger offers besides
    [updateInvoice]. *)
Inductive Mutation : Type :=
| EditLineItem (itemIndex : nat) (u : ItemUpdate)
| AddLineItem
| DeleteLineItem (itemIndex : nat)
| EditTax (parsed : float).

Definition mutate (invoiceIndex : nat) (m : Mutation) (ledger : Ledger) : Outcome Ledger :=
  match m with
  | EditLineItem itemIndex u => updateLineItem invoiceIndex itemIndex u ledger
  | AddLineItem => addLineItem invoiceIndex ledger
  | DeleteLineItem itemIndex => deleteLineItem invoiceIndex itemIndex ledger
  | EditTax parsed => onTaxChange invoiceIndex parsed ledger
  end.

(** The item index of a mutation, where it has one, points at an item of
    the invoice. *)
Definition itemIndexValid (m : Mutation) (inv : InvoiceRecord) : Prop :=
  match m with
  | EditLineItem itemIndex _ | DeleteLineItem itemIndex =>
      exists items, line_items inv = Some items /\ itemIndex < length items
  | AddLineItem | EditTax _ => True
  end.

(** An invoice as the model may return it: the stated subtotal (100) is
    not the sum of the line totals (40). *)
Definition staleItem : LineItem :=
  {| description := Some "Widget"; quantity := Some 4%float;
     unit_price := Some 10%float; line_total := Some 40%float |}.

Definition staleInvoice : InvoiceRecord :=
  {| vendor_name := Some "Acme"; vendor_address := None; vendor_email := None;
     vendor_phone := None; invoice_number := Some "INV-1";
     invoice_date := Some "2024-01-31"; due_date := None;
     purchase_order_number := None;
     subtotal := Some 100%float; tax_amount := Some 8%float;
     total_amount := Some 108%float;
     line_items := Some [staleItem]; _filename := Some "acme.pdf" |}.

(** *** The exported table, read as rows of cells *)

(** The text of a list of rows. *)
Definition concatRows (rows : list string) : string :=
  foldr String.app "" rows.

(** A row of cells: the cells separated by commas, then a line feed. *)
Definition csvRow (cells : list string) : string :=
  join "," cells +:+ newline.

Section ExportedRows.

Variable numToString : float -> string.

(** Vendor, Invoice Number, Invoice Date, Due Date, PO Number. *)
Definition invoiceCells (invoice : InvoiceRecord) : list string :=
  [textCell (vendor_name invoice); textCell (invoice_number invoice);
   textCell (invoice_date invoice); textCell (due_date invoice);
   textCell (purchase_order_number invoice)].

(** Subtotal, Tax, Total, populated. *)
Definition totalsCells (invoice : InvoiceRecord) : list string :=
  [numberCell numToString (subtotal invoice);
   numberCell numToString (tax_amount invoice);
   numberCell numToString (total_amount invoice)].

(** Three empty cells. *)
Definition blankCells : list string := [""; ""; ""].

(** The twelve cells of the row of the line item at [index]. *)
Definition lineItemCells (invoice : InvoiceRecord) (item : LineItem) (index : nat)
  : list string :=
  invoiceCells invoice ++
  [textCell (description item);
   numberCell numToString (quantity item);
   numberCell numToString (unit_price item);
   numberCell numToString (line_total item)] ++
  (if decide (index = 0) then totalsCells invoice else blankCells).

(** The twelve cells of the row of an invoice without line items. *)
Definition noLineItemsCells (invoice : InvoiceRecord) : list string :=
  invoiceCells invoice ++
  [dq +:+ "No line items" +:+ dq] ++ blankCells ++
  totalsCells invoice.

(** The rows one invoice contributes. *)
Definition invoiceRows (invoice : InvoiceRecord) : list string :=
  match itemsOf invoice with
  | [] => [csvRow (noLineItemsCells invoice)]
  | items => imap (fun index item => csvRow (lineItemCells invoice item index)) items
  end.

End ExportedRows.

(** Standard CSV quoting (RFC 4180, section 2, rules 5 to 7): the field
    between double quotes, each double quote inside it doubled; commas
    and line breaks stand as they are between the quotes. *)
Fixpoint escapeQuotes (s : string) : string :=
  match s with
  | EmptyString => EmptyString
  | String c rest =>
      if isChar c "034" then String c (String c (escapeQuotes rest))
      else String c (escapeQuotes rest)
  end.

Definition rfc4180Quote (s : string) : string :=
  dq +:+ escapeQuotes s +:+ dq.

(** Two line items under one invoice, for the export. *)
Definition secondItem : LineItem :=
  {| description := Some "Gadget, large"; quantity := None;
     unit_price := Some 2.5%float; line_total := Some 2.5%float |}.

Definition twoItemInvoice : InvoiceRecord :=
  {| vendor_name := Some "Acme"; vendor_address := None; vendor_email := None;
     vendor_phone := None; invoice_number := Some "INV-1";
     invoice_date := Some "2024-01-31"; due_date := None;
     purchase_order_number := None;
     subtotal := Some 42.5%float; tax_amount := None;
     total_amount := Some 42.5%float;
     line_items := Some [staleItem; secondItem]; _filename := Some "acme.pdf" |}.

(** A conversion that tells 0 from the other numbers, enough to read the
    rows of an example. *)
Definition zeroOrNumber (x : float) : string :=
  if PrimFloat.eqb x 0%float then "0" else "N".

(** *** The normalizer's statements *)

(** "A substring spanning a ["{"] through a later ["}"]". *)
Definition hasBraceSpan (s : string) : Prop :=
  exists pre mid post : string, s = pre +:+ "{" +:+ mid +:+ "}" +:+ post.

(** [m] is the part of [s] from its first ["{"] through its last ["}"]. *)
Definition firstToLast (s m : string) : Prop :=
  exists pre mid post : string,
    s = pre +:+ m +:+ post /\
    m = "{" +:+ mid +:+ "}" /\
    occurs "{" pre = false /\
    occurs "}" post = false.

(** "A markup-tag-like substring": a ["<"] with a [">"] somewhere after
    it. *)
Definition hasTag (s : string) : Prop :=
  exists pre mid post : string, s = pre +:+ "<" +:+ mid +:+ ">" +:+ post.

Fixpoint hasTagb (s : string) : bool :=
  match s with
  | EmptyString => false
  | String c rest => isChar c "<" && occurs ">" rest || hasTagb rest
  end.

(** White space at the start, at the end. *)
Definition startsWhite (s : string) : bool :=
  match s with
  | EmptyString => false
  | String c _ => isWhiteSpace c
  end.

Fixpoint endsWhite (s : string) : bool :=
  match s with
  | EmptyString => false
  | String c EmptyString => isWhiteSpace c
  | String _ rest => endsWhite rest
  end.

Fixpoint allWhite (s : string) : bool :=
  match s with
  | EmptyString => true
  | String c rest => isWhiteSpace c && allWhite rest
  end.

(** [null] or [undefined]. *)
Definition isNullish (v : JsValue) : bool :=
  match v with
  | JNull | JUndefined => true
  | _ => false
  end.

(** The payload has a [line_items] array with a [null] in it. *)
Definition hasNullLineItem (props : gmap string JsValue) : bool :=
  match props !! "line_items" with
  | Some (JArray items) => existsb isNullish items
  | _ => false
  end.

(** [v.description] where [v] is not nullish. *)
Definition descriptionOf (item : JsValue) : JsValue :=
  default JUndefined (readDescription item).

(** [Array.isArray(v)]. *)
Definition isArray (v : JsValue) : bool :=
  match v with
  | JArray _ => true
  | _ => false
  end.

(** The reply [{"line_items":[null]}], and what [JSON.parse] returns for
    it; [parseNullItem] is [JSON.parse] at this one text. *)
Definition nullItemReply : string :=
  "{" +:+ dq +:+ "line_items" +:+ dq +:+ ":[null]}".

Definition nullItemPayload : JsValue :=
  JObject {["line_items" := JArray [JNull]]}.

Definition parseNullItem (text : string) : option JsValue :=
  if decide (text = nullItemReply) then Some nullItemPayload else None.

(** The reply of the spec's example, with prose before the payload, and
    the payload [JSON.parse] returns for its match; [parseAcme] is
    [JSON.parse] at this one text. *)
Definition acmeJson : string :=
  "{" +:+ dq +:+ "vendor_name" +:+ dq +:+ ":" +:+ dq +:+ "Acme" +:+ dq +:+ "," +:+
  dq +:+ "invoice_number" +:+ dq +:+ ":" +:+ dq +:+ "<b>INV-1</b>" +:+ dq +:+ "," +:+
  dq +:+ "tax_amount" +:+ dq +:+ ":null," +:+
  dq +:+ "line_items" +:+ dq +:+ ":[{" +:+
  dq +:+ "description" +:+ dq +:+ ":" +:+ dq +:+ " <i>Widget</i> " +:+ dq +:+ "," +:+
  dq +:+ "quantity" +:+ dq +:+ ":null}]}".

Definition acmeReply : string := "Here is the data: " +:+ acmeJson.

Definition acmePayload : gmap string JsValue :=
  {[ "vendor_name" := JString "Acme";
     "invoice_number" := JString "<b>INV-1</b>";
     "tax_amount" := JNull;
     "line_items" :=
       JArray [JObject {[ "description" := JString " <i>Widget</i> ";
                          "quantity" := JNull ]}] ]}.

Definition parseAcme (text : string) : option JsValue :=
  if decide (text = acmeJson) then Some (JObject acmePayload) else None.

(** The same payload, sanitized. *)
Definition acmeSanitized : gmap string JsValue :=
  {[ "vendor_name" := JString "Acme";
     "invoice_number" := JString "INV-1";
     "tax_amount" := JNull;
     "line_items" :=
       JArray [JObject {[ "description" := JString "Widget";
                          "quantity" := JNull ]}] ]}.

(** *** The batch's statements *)

(** The record a round trip yields, if its [try] block does not throw. *)
Definition succeeded (trip : File * FetchOutcome) : option InvoiceRecord :=
  tryBlock trip.1 trip.2.

(** The name a round trip leaves in the failures, if its [try] block
    throws. *)
Definition failedName (trip : File * FetchOutcome) : option string :=
  match tryBlock trip.1 trip.2 with
  | Some _ => None
  | None => Some (name trip.1)
  end.

(** A server that fails on one document: the world counts the requests. *)
Definition failsOn (bad : string) (file : File) (served : nat) : FetchOutcome * nat :=
  (if decide (name file = bad) then Rejected
   else Responded true {| error := None; data := Some staleInvoice |},
   S served).

(** ** Choosing files: [validateFiles], [handleDrag], [handleDrop],
       [handleChange] and the "Process More Invoices" button *)

(** A browser [File] as the validators read it: its name (through
    [file]), its declared type and its size in bytes. *)
Record Upload : Type := {
  file : File;
  type : string;
  size : Z
}.

(** [10 * 1024 * 1024], on the client and on the server. *)
Definition maxSize : Z := 10 * 1024 * 1024.

Definition notPdfMessage (f : Upload) : string :=
  "File " +:+ dq +:+ name (file f) +:+ dq +:+ " is not a PDF".

Definition tooLargeMessage (f : Upload) : string :=
  "File " +:+ dq +:+ name (file f) +:+ dq +:+ " exceeds 10MB limit".

(** The [for] loop of [validateFiles]: it returns at the first file that
    fails a check. *)
Fixpoint checkEach (fileList : list Upload) : option string :=
  match fileList with
  | [] => None
  | f :: rest =>
      if negb (bool_decide (type f = "application/pdf")) then Some (notPdfMessage f)
      else if bool_decide (maxSize < size f)%Z then Some (tooLargeMessage f)
      else checkEach rest
  end.

(** [validateFiles]; [None] is the [null] of "no errors". *)
Definition validateFiles (fileList : list Upload) : option string :=
  if bool_decide (50 < length fileList) then Some "Maximum 50 invoices at a time"
  else if bool_decide (length fileList = 0) then Some "Please select at least one file"
  else checkEach fileList.

Module Picker.

(** The state the file handlers read and write. *)
Record State : Type := {
  files : list Upload;
  error : string;
  dragActive : bool
}.

(** The state of a fresh page. *)
Definition initial : State :=
  {| files := []; error := ""; dragActive := false |}.

(** [handleDrag], by the type of the event. *)
Definition handleDrag (eventType : string) (st : State) : State :=
  if bool_decide (eventType = "dragenter") || bool_decide (eventType = "dragover")
  then {| files := files st; error := error st; dragActive := true |}
  else if bool_decide (eventType = "dragleave")
  then {| files := files st; error := error st; dragActive := false |}
  else st.

(** What [handleDrop] and [handleChange] share once the error is
    cleared: [st] is the state after the first [set...] calls, [chosen]
    the files of the event (none when the event carries no list). *)
Definition choose (chosen : list Upload) (st : State) : State :=
  if bool_decide (0 < length chosen) then
    match validateFiles chosen with
    | Some validationError =>
        {| files := files st; error := validationError; dragActive := dragActive st |}
    | None =>
        {| files := chosen; error := error st; dragActive := dragActive st |}
    end
  else st.

Definition handleDrop (droppedFiles : list Upload) (st : State) : State :=
  choose droppedFiles {| files := files st; error := ""; dragActive := false |}.

Definition handleChange (selectedFiles : list Upload) (st : State) : State :=
  choose selectedFiles {| files := files st; error := ""; dragActive := dragActive st |}.

(** The [onClick] of "Process More Invoices", on this part of the state. *)
Definition processMore (st : State) : State :=
  {| files := []; error := error st; dragActive := dragActive st |}.

(** What [handleSubmit] leaves in this part of the state: it never calls
    [setFiles], and ends with some message in [error] (the empty one, the
    list of the failed names, or the message of an exception). *)
Definition submitted (message : string) (st : State) : State :=
  {| files := files st; error := message; dragActive := dragActive st |}.

(** The submit button is rendered under [files.length > 0 && !error]. *)
Definition canSubmit (st : State) : bool :=
  bool_decide (0 < length (files st)) && bool_decide (error st = "").

(** The events of the page that touch this state. *)
Inductive Event : Type :=
| Drag (eventType : string)
| Drop (droppedFiles : list Upload)
| Change (selectedFiles : list Upload)
| ProcessMore
| Submitted (message : string).

Definition step (st : State) (e : Event) : State :=
  match e with
  | Drag eventType => handleDrag eventType st
  | Drop droppedFiles => handleDrop droppedFiles st
  | Change selectedFiles => handleChange selectedFiles st
  | ProcessMore => processMore st
  | Submitted message => submitted message st
  end.

End Picker.

(** A file passes the two checks made on each file. *)
Definition acceptable (f : Upload) : Prop :=
  type f = "application/pdf" /\ (size f <= maxSize)%Z.

(** The selection the page holds is empty or passed [validateFiles]. *)
Definition validated (st : Picker.State) : Prop :=
  Picker.files st = [] \/ validateFiles (Picker.files st) = None.

(** ** The summary under the table *)

(** [invoice.line_items?.length || 0]. *)
Definition itemCount (invoice : InvoiceRecord) : nat :=
  match line_items invoice with
  | Some items => length items
  | None => 0
  end.

(** "Total Line Items":
    [reduce((sum, inv) => sum + (inv.line_items?.length || 0), 0)]. *)
Definition totalLineItems (extractedInvoices : Ledger) : nat :=
  fold_left (fun sum inv => sum + itemCount inv) extractedInvoices 0.

(** ** The route before the model is called: [checkRateLimit] and the
       checks of [POST] *)

(** An entry of the [requestCounts] map. *)
Record Limit : Type := {
  count : nat;
  resetTime : Z
}.

(** [60 * 60 * 1000] milliseconds. *)
Definition hour : Z := 60 * 60 * 1000.

(** [checkRateLimit]; [now] is [Date.now()], and the map is returned with
    the writes made to it. *)
Definition checkRateLimit (ip : string) (now : Z) (requestCounts : gmap string Limit)
  : bool * gmap string Limit :=
  let fresh := <[ip := {| count := 1; resetTime := (now + hour)%Z |}]> requestCounts in
  match requestCounts !! ip with
  | None => (true, fresh)
  | Some limit =>
      if bool_decide (resetTime limit < now)%Z then (true, fresh)
      else if bool_decide (10 <= count limit) then (false, requestCounts)
      else (true,
            <[ip := {| count := S (count limit); resetTime := resetTime limit |}]>
              requestCounts)
  end.

(** What the handler reads of a request: the [x-forwarded-for] header and
    the ["file"] entry of the form. *)
Record Request : Type := {
  x_forwarded_for : option string;
  formFile : option Upload
}.

(** [request.headers.get("x-forwarded-for") || "unknown"]. *)
Definition clientAddress (request : Request) : string :=
  match x_forwarded_for request with
  | Some (String c rest) => String c rest
  | Some EmptyString | None => "unknown"
  end.

(** The module's state: the rate-limit map, and the state of the model's
    service. *)
Record Server (World : Type) : Type := {
  requestCounts : gmap string Limit;
  modelState : World
}.
Arguments requestCounts {World} _.
Arguments modelState {World} _.

Definition RateLimited : Response :=
  ErrorResponse "Rate limit exceeded. Maximum 10 requests per hour." 429.

Definition NoFile : Response := ErrorResponse "No file provided" 400.

Definition NotPdf : Response := ErrorResponse "Only PDF files are allowed" 400.

Definition TooLarge : Response := ErrorResponse "File size exceeds 10MB limit" 400.

Section Route.

Variable JSON_parse : string -> option JsValue.
Variable World : Type.

(** [anthropic.messages.create] and the reading of the reply's first
    block: [None] when either throws, else the text of the block, empty
    when the block is not text. *)
Variable createMessage : Upload -> World -> option string * World.

(** [POST]; [now] is the [Date.now()] of [checkRateLimit]. *)
Definition POST (request : Request) (now : Z) (server : Server World)
  : Response * Server World :=
  let ip := clientAddress request in
  let '(allowed, counts) := checkRateLimit ip now (requestCounts server) in
  let counted := {| requestCounts := counts; modelState := modelState server |} in
  if negb allowed then (RateLimited, counted)
  else
    match formFile request with
    | None => (NoFile, counted)
    | Some file =>
        if negb (bool_decide (type file = "application/pdf")) then (NotPdf, counted)
        else if bool_decide (maxSize < size file)%Z then (TooLarge, counted)
        else
          let '(reply, w) := createMessage file (modelState server) in
          let replied := {| requestCounts := counts; modelState := w |} in
          match reply with
          | None => (ProcessingFailure, replied)
          | Some responseText => (normalize JSON_parse responseText, replied)
          end
    end.

(** The requests of one client, served in order. *)
Fixpoint serve (requests : list (Request * Z)) (server : Server World)
  : list Response * Server World :=
  match requests with
  | [] => ([], server)
  | (request, now) :: rest =>
      let '(response, server1) := POST request now server in
      let '(responses, server2) := serve rest server1 in
      (response :: responses, server2)
  end.

End Route.

(** The calls of [checkRateLimit] one address makes at the given times. *)
Fixpoint checkAll (ip : string) (times : list Z) (requestCounts : gmap string Limit)
  : list bool * gmap string Limit :=
  match times with
  | [] => ([], requestCounts)
  | now :: rest =>
      let '(allowed, counts) := checkRateLimit ip now requestCounts in
      let '(answers, final) := checkAll ip rest counts in
      (allowed :: answers, final)
  end.

(** ** The page against the route *)

(** [response.ok]: the status is in the range 200 to 299. *)
Definition statusOk (status : nat) : bool :=
  bool_decide (200 <= status) && bool_decide (status <= 299).

Section Deployment.

Variable JSON_parse : string -> option JsValue.
Variable World : Type.
Variable createMessage : Upload -> World -> option string * World.

(** The header the client's requests arrive with. *)
Variable address : option string.
(** The browser's [File] behind a file of the selection. *)
Variable describe : File -> Upload.
(** The record the page reads out of [result.data]. *)
Variable decode : JsValue -> InvoiceRecord.
(** The [Date.now()] the route reads while serving the n-th request. *)
Variable clock : nat -> Z.

(** What [fetch] and [response.json()] hand to the page for a response
    of the route. *)
Definition received (response : Response) : FetchOutcome :=
  match response with
  | ErrorResponse message status =>
      Responded (statusOk status) {| error := Some message; data := None |}
  | DataResponse extracted =>
      Responded true {| error := None; data := Some (decode extracted) |}
  end.

(** One round trip of the page against the route; the world is the
    server and the number of requests it has served. *)
Definition roundTrip (f : File) (w : Server World * nat)
  : FetchOutcome * (Server World * nat) :=
  let request := {| x_forwarded_for := address; formFile := Some (describe f) |} in
  let '(response, server) := POST JSON_parse World createMessage request (clock w.2) w.1 in
  (received response, (server, S w.2)).

End Deployment.

(** The mutations that read the invoice's [line_items] array as it is. *)
Definition needsItems (m : Mutation) : bool :=
  match m with
  | EditLineItem _ _ | DeleteLineItem _ => true
  | AddLineItem | EditTax _ => false
  end.

(** The line items a mutation leaves, given the ones it found. *)
Definition itemsAfter (m : Mutation) (items : list LineItem) : list LineItem :=
  match m with
  | EditLineItem itemIndex u =>
      <[itemIndex := autoCalculate u
                       (assignItemField u (default emptyItem (items !! itemIndex)))]> items
  | AddLineItem => items ++ [newItem]
  | DeleteLineItem itemIndex => delete itemIndex items
  | EditTax _ => items
  end.

(** An invoice whose totals agree with its line items. *)
Definition settledInvoice : InvoiceRecord := recalculateTotals [staleItem] staleInvoice.

(** A small PDF, a model that always answers the spec's example reply, a
    server that has seen no request yet, a request that carries the PDF
    and one that carries nothing. *)
Definition acmePdf : Upload :=
  {| file := {| name := "acme.pdf" |}; type := "application/pdf"; size := 20480 |}.

Definition answersAcme (_ : Upload) (w : unit) : option string * unit :=
  (Some acmeReply, w).

Definition freshServer : Server unit :=
  {| requestCounts := ∅; modelState := tt |}.

Definition acmeRequest : Request :=
  {| x_forwarded_for := Some "203.0.113.7"; formFile := Some acmePdf |}.

Definition emptyRequest : Request :=
  {| x_forwarded_for := Some "203.0.113.7"; formFile := None |}.

(** The browser's file behind a name, a reading of the payload, and a
    clock that advances half a second per request, for an example batch. *)
Definition asPdf (f : File) : Upload :=
  {| file := f; type := "application/pdf"; size := 20480 |}.

Definition readNothing (_ : JsValue) : InvoiceRecord := emptyInvoice.

Definition halfSeconds (k : nat) : Z := (1000 + 500 * Z.of_nat k)%Z.

(** ** The statements' reading of numbers, cells, round trips and tags *)

(** What a numeric field counts as in the handlers' arithmetic and in the
    export: its number, and 0 when the field is absent or holds a zero or
    NaN ("coerced to 0 before arithmetic, never propagated as NaN"). *)
Definition countedAs (x : option float) : float :=
  match x with
  | Some q =>
      if PrimFloat.eqb q 0%float then 0%float
      else if PrimFloat.eqb q q then q else 0%float
  | None => 0%float
  end.

(** A text field between double quotes, nothing between them when the
    field is absent. *)
Definition quoted (s : option string) : string :=
  dq +:+ default "" s +:+ dq.




(** [t] is [s] without its tags.  Reading from the left, a ["<"] that has
    a [">"] somewhere after it goes, together with everything through the
    next [">"]; every other character stays where it is. *)
Inductive withoutTags : string -> string -> Prop :=
| withoutTags_end : withoutTags "" ""
| withoutTags_tag (mid rest t : string) :
    occurs ">" mid = false ->
    withoutTags rest t ->
    withoutTags (String "<" (mid +:+ String ">" rest)) t
| withoutTags_keep (c : ascii) (rest t : string) :
    isChar c "<" && occurs ">" rest = false ->
    withoutTags rest t ->
    withoutTags (String c rest) (String c t).

(** [t] is [u] without the white space at its two ends. *)
Definition trimmedTo (u t : string) : Prop :=
  exists before after : string,
    allWhite before = true /\ allWhite after = true /\
    u = before +:+ t +:+ after /\
    startsWhite t = false /\ endsWhite t = false.

(** [t] is [s] cleaned: its tags removed, then the white space at the
    two ends. *)
Definition cleaned (s t : string) : Prop :=
  exists u : string, withoutTags s u /\ trimmedTo u t.

(** The reply [{"vendor_name":"<b>Acme</b>","line_items":[null]}], with
    a tag in a top-level string and a [null] among the line items, and
    what [JSON.parse] returns for it; [parseTaggedNull] is [JSON.parse]
    at this one text. *)
Definition taggedNullReply : string :=
  "{" +:+ dq +:+ "vendor_name" +:+ dq +:+ ":" +:+ dq +:+ "<b>Acme</b>" +:+ dq +:+ "," +:+
  dq +:+ "line_items" +:+ dq +:+ ":[null]}".

Definition taggedNullPayload : gmap string JsValue :=
  {[ "vendor_name" := JString "<b>Acme</b>";
     "line_items" := JArray [JNull] ]}.

Definition parseTaggedNull (text : string) : option JsValue :=
  if decide (text = taggedNullReply) then Some (JObject taggedNullPayload) else None.

(** How often [c] occurs in [s]. *)
Fixpoint countChar (c : ascii) (s : string) : nat :=
  match s with
  | EmptyString => 0
  | String d rest => (if isChar d c then 1 else 0) + countChar c rest
  end.

(** A text field that holds neither a comma nor a line feed. *)
Definition plainText (s : option string) : bool :=
  negb (occurs "," (default "" s)) && negb (occurs "010" (default "" s)).

(** Every text the export reads from the invoice is plain. *)
Definition plainInvoice (invoice : InvoiceRecord) : bool :=
  plainText (vendor_name invoice) && plainText (invoice_number invoice) &&
  plainText (invoice_date invoice) && plainText (due_date invoice) &&
  plainText (purchase_order_number invoice) &&
  forallb (fun item => plainText (description item)) (itemsOf invoice).

(** * Properties *)

(** ** Numbers *)

Lemma numberOrZero_truthy (x : float) : truthy x = true -> numberOrZero x = x.
Proof. unfold numberOrZero. by intros ->. Qed.

Lemma numberOrZero_idempotent (x : float) :
  numberOrZero (numberOrZero x) = numberOrZero x.
Proof.
  unfold numberOrZero. destruct (truthy x) eqn:E.
  - by rewrite E.
  - reflexivity.
Qed.

Lemma orZero_numberOrZero (x : float) : orZero (Some (numberOrZero x)) = numberOrZero x.
Proof. apply numberOrZero_idempotent. Qed.

(** Two numbers that [==] tells apart are different. *)
Lemma float_neq (x y : float) :
  PrimFloat.eqb x x = true -> PrimFloat.eqb x y = false -> x <> y.
Proof. intros Hx Hxy ->. congruence. Qed.

Lemma Some_float_neq (x y : float) :
  PrimFloat.eqb x x = true -> PrimFloat.eqb x y = false -> Some x <> Some y.
Proof.
  intros Hx Hxy H. apply (float_neq x y Hx Hxy).
  exact (f_equal (default x) H).
Qed.

(** ** Arrays *)

Lemma arrayWrite_in_range {A : Type} (a : list A) (i : nat) (x : A) :
  i < length a -> arrayWrite a i x = Some (<[i := x]> a).
Proof. intros Hi. unfold arrayWrite. by rewrite decide_True. Qed.

(** Past the excluded index the filter keeps everything. *)
Lemma filterIndexFrom_past {A : Type} (a : list A) (k j : nat) :
  k < j -> filterIndexFrom (fun idx => negb (idx =? k)) j a = a.
Proof.
  revert j. induction a as [|x a IH]; intros j Hj; [reflexivity|].
  cbn [filterIndexFrom]. destruct (Nat.eqb_spec j k); [lia|].
  cbn [negb]. f_equal. apply IH. lia.
Qed.

Lemma filterIndexFrom_delete {A : Type} (a : list A) (k i : nat) :
  filterIndexFrom (fun idx => negb (idx =? k + i)) k a = delete i a.
Proof.
  revert k i. induction a as [|x a IH]; intros k i; [reflexivity|].
  cbn [filterIndexFrom]. destruct i as [|i].
  - replace (k + 0) with k by lia. rewrite Nat.eqb_refl. cbn [negb delete list_delete].
    apply filterIndexFrom_past. lia.
  - destruct (Nat.eqb_spec k (k + S i)); [lia|]. cbn [negb delete list_delete]. f_equal.
    replace (k + S i) with (S k + i) by lia. apply IH.
Qed.

(** Filtering out one index is deleting the element at that index. *)
Lemma filterIndex_delete {A : Type} (a : list A) (i : nat) :
  filterIndex (fun idx => negb (idx =? i)) a = delete i a.
Proof. apply (filterIndexFrom_delete a 0 i). Qed.

Lemma delete_out_of_range {A : Type} (a : list A) (i : nat) :
  length a <= i -> delete i a = a.
Proof.
  revert i. induction a as [|x a IH]; intros i Hi; [by destruct i|].
  destruct i as [|i]; cbn in Hi; [lia|]. cbn. f_equal. apply IH. lia.
Qed.

(** ** The ledger *)

(** What "recalculate invoice totals" leaves in the record. *)
Lemma recalculateTotals_fields (items : list LineItem) (inv : InvoiceRecord) :
  let inv' := recalculateTotals items inv in
  line_items inv' = Some items /\
  subtotal inv' = Some (sumLineTotals items) /\
  total_amount inv' = Some (sumLineTotals items + orZero (tax_amount inv))%float /\
  tax_amount inv' = tax_amount inv /\
  _filename inv' = _filename inv /\
  (forall f, getText f inv' = getText f inv).
Proof. repeat split. Qed.

Lemma recalculateTotals_invariant (items : list LineItem) (inv : InvoiceRecord) :
  subtotalIsSum (recalculateTotals items inv) /\
  totalIsSubtotalPlusTax (recalculateTotals items inv).
Proof.
  split; [reflexivity|]. exists (sumLineTotals items). by split.
Qed.

(** When the invariant already holds, recalculating changes nothing. *)
Lemma recalculateTotals_id (inv : InvoiceRecord) (items : list LineItem) :
  line_items inv = Some items ->
  subtotal inv = Some (sumLineTotals items) ->
  total_amount inv = Some (sumLineTotals items + orZero (tax_amount inv))%float ->
  recalculateTotals items inv = inv.
Proof.
  destruct inv as [? ? ? ? ? ? ? ? st tax tot li fn]. cbn.
  intros -> -> ->. reflexivity.
Qed.

(** C1 as stated fails for the tax input: editing the tax of an invoice
    whose subtotal is not the sum of its line totals leaves that subtotal
    as it was (100 against a sum of 40), and adds the new tax to it. *)
Lemma tax_edit_keeps_stale_subtotal :
  exists inv' : InvoiceRecord,
    itemIndexValid (EditTax 5%float) staleInvoice /\
    mutate 0 (EditTax 5%float) [staleInvoice] = Returns [inv'] /\
    subtotal inv' = Some 100%float /\
    total_amount inv' = Some 105%float /\
    sumLineTotals (itemsOf inv') = 40%float /\
    ~ subtotalIsSum inv'.
Proof.
  eexists. split; [exact I|]. split; [reflexivity|].
  split; [reflexivity|]. split; [reflexivity|]. split; [reflexivity|].
  unfold subtotalIsSum. apply Some_float_neq; reflexivity.
Qed.

(** C1, amended: on an existing invoice, [updateLineItem] and
    [deleteLineItem] at an existing item and [addLineItem] return a ledger
    in which that invoice's [subtotal] is the sum of its line totals and
    its [total_amount] is that subtotal plus the tax; the tax input stores
    the tax, leaves [subtotal] and the line items alone, and sets
    [total_amount] to the subtotal (read as [subtotal || 0]) plus the
    tax.  Every other invoice is as before. *)
Theorem mutation_restores_totals (ledger : Ledger) (invoiceIndex : nat)
    (m : Mutation) (inv : InvoiceRecord) :
  ledger !! invoiceIndex = Some inv ->
  itemIndexValid m inv ->
  exists (ledger' : Ledger) (inv' : InvoiceRecord),
    mutate invoiceIndex m ledger = Returns ledger' /\
    ledger' = <[invoiceIndex := inv']> ledger /\
    ledger' !! invoiceIndex = Some inv' /\
    match m with
    | EditTax parsed =>
        tax_amount inv' = Some (numberOrZero parsed) /\
        subtotal inv' = subtotal inv /\
        line_items inv' = line_items inv /\
        totalIsReadSubtotalPlusTax inv'
    | _ => subtotalIsSum inv' /\ totalIsSubtotalPlusTax inv'
    end.
Proof.
  intros Hinv Hvalid.
  assert (Hlt : invoiceIndex < length ledger) by (by eapply lookup_lt_Some).
  destruct m as [itemIndex u| |itemIndex|parsed]; cbn [mutate].
  - destruct Hvalid as (items & Hitems & Hj).
    unfold updateLineItem. rewrite Hinv, Hitems, (arrayWrite_in_range _ _ _ Hj).
    eexists _, _. split; [reflexivity|]. split; [reflexivity|].
    split; [by apply list_lookup_insert_eq|]. apply recalculateTotals_invariant.
  - unfold addLineItem. rewrite Hinv.
    eexists _, _. split; [reflexivity|]. split; [reflexivity|].
    split; [by apply list_lookup_insert_eq|]. apply recalculateTotals_invariant.
  - destruct Hvalid as (items & Hitems & Hj).
    unfold deleteLineItem. rewrite Hinv, Hitems.
    eexists _, _. split; [reflexivity|]. split; [reflexivity|].
    split; [by apply list_lookup_insert_eq|]. apply recalculateTotals_invariant.
  - unfold onTaxChange. rewrite Hinv.
    eexists _, _. split; [reflexivity|]. split; [reflexivity|].
    split; [by apply list_lookup_insert_eq|].
    repeat split. unfold totalIsReadSubtotalPlusTax.
    change (Some (orZero (subtotal inv) + numberOrZero parsed)%float =
            Some (orZero (subtotal inv) + orZero (Some (numberOrZero parsed)))%float).
    by rewrite orZero_numberOrZero.
Qed.

Lemma mutation_restores_totals_witness :
  exists (ledger' : Ledger) (inv' : InvoiceRecord),
    mutate 0 (EditLineItem 0 (Quantity (Some 3%float))) [staleInvoice] = Returns ledger' /\
    ledger' = <[0 := inv']> [staleInvoice] /\
    ledger' !! 0 = Some inv' /\
    subtotalIsSum inv' /\ totalIsSubtotalPlusTax inv'.
Proof.
  apply (mutation_restores_totals [staleInvoice] 0
           (EditLineItem 0 (Quantity (Some 3%float))) staleInvoice).
  - reflexivity.
  - exists [staleItem]. split; [reflexivity|]. cbn. lia.
Defined.

(** [updateLineItemField] with [quantity = 3] on an item of unit price 10
    sets the line total to 30 and carries it to the totals. *)
Example quantity_three_at_ten :
  updateLineItem 0 0 (Quantity (Some 3%float)) [staleInvoice] =
  Returns [recalculateTotals
             [{| description := Some "Widget"; quantity := Some 3%float;
                 unit_price := Some 10%float; line_total := Some 30%float |}]
             staleInvoice] /\
  subtotal (recalculateTotals
             [{| description := Some "Widget"; quantity := Some 3%float;
                 unit_price := Some 10%float; line_total := Some 30%float |}]
             staleInvoice) = Some 30%float /\
  total_amount (recalculateTotals
             [{| description := Some "Widget"; quantity := Some 3%float;
                 unit_price := Some 10%float; line_total := Some 30%float |}]
             staleInvoice) = Some 38%float.
Proof. repeat split. Qed.

(** Deleting the only item leaves a subtotal of 0 and a total equal to
    the tax. *)
Example delete_only_item :
  exists inv', deleteLineItem 0 0 [staleInvoice] = Returns [inv'] /\
    line_items inv' = Some [] /\ subtotal inv' = Some 0%float /\
    total_amount inv' = Some 8%float.
Proof. eexists. repeat split. Qed.

(** The handlers' [x || 0] is the statements' reading of a numeric
    field. *)
Lemma orZero_countedAs (x : option float) : orZero x = countedAs x.
Proof.
  destruct x as [q|]; [|reflexivity].
  unfold orZero, numberOrZero, truthy, countedAs.
  by destruct (PrimFloat.eqb q 0), (PrimFloat.eqb q q).
Qed.

Lemma countedAs_number (q : float) :
  PrimFloat.eqb q 0 = false -> PrimFloat.eqb q q = true -> countedAs (Some q) = q.
Proof. unfold countedAs. by intros -> ->. Qed.

(** C2: on an existing item of an existing invoice, editing [quantity] or
    [unit_price] stores the value and sets the item's [line_total] to the
    product of the two, the edited one at its new value: for two numbers
    other than zero and NaN that is [quantity * unit_price] itself, and a
    factor that is absent, zero or NaN counts as 0.  Editing [line_total]
    stores the value and leaves [quantity] and [unit_price] as they
    were; every other item of the invoice is as it was. *)
Theorem updateLineItem_line_total (ledger : Ledger) (invoiceIndex itemIndex : nat)
    (u : ItemUpdate) (inv : InvoiceRecord) (items : list LineItem) (item : LineItem) :
  ledger !! invoiceIndex = Some inv ->
  line_items inv = Some items ->
  items !! itemIndex = Some item ->
  exists (ledger' : Ledger) (inv' : InvoiceRecord) (items' : list LineItem)
         (item' : LineItem),
    updateLineItem invoiceIndex itemIndex u ledger = Returns ledger' /\
    ledger' !! invoiceIndex = Some inv' /\
    line_items inv' = Some items' /\
    items' !! itemIndex = Some item' /\
    (forall k, k <> itemIndex -> items' !! k = items !! k) /\
    match u with
    | Quantity value =>
        quantity item' = value /\ unit_price item' = unit_price item /\
        description item' = description item /\
        line_total item' =
          Some (countedAs value * countedAs (unit_price item))%float /\
        (forall q p : float,
           value = Some q -> unit_price item = Some p ->
           PrimFloat.eqb q 0 = false -> PrimFloat.eqb q q = true ->
           PrimFloat.eqb p 0 = false -> PrimFloat.eqb p p = true ->
           line_total item' = Some (q * p)%float)
    | UnitPrice value =>
        unit_price item' = value /\ quantity item' = quantity item /\
        description item' = description item /\
        line_total item' =
          Some (countedAs (quantity item) * countedAs value)%float /\
        (forall q p : float,
           quantity item = Some q -> value = Some p ->
           PrimFloat.eqb q 0 = false -> PrimFloat.eqb q q = true ->
           PrimFloat.eqb p 0 = false -> PrimFloat.eqb p p = true ->
           line_total item' = Some (q * p)%float)
    | LineTotal value =>
        line_total item' = value /\ quantity item' = quantity item /\
        unit_price item' = unit_price item /\ description item' = description item
    | Description value =>
        description item' = value /\ quantity item' = quantity item /\
        unit_price item' = unit_price item /\ line_total item' = line_total item
    end.
Proof.
  intros Hinv Hitems Hitem.
  assert (Hi : invoiceIndex < length ledger) by (by eapply lookup_lt_Some).
  assert (Hj : itemIndex < length items) by (by eapply lookup_lt_Some).
  unfold updateLineItem.
  rewrite Hinv, Hitems, Hitem, (arrayWrite_in_range _ _ _ Hj). cbn [default].
  eexists _, _, _, _. split; [reflexivity|].
  split; [by apply list_lookup_insert_eq|].
  split; [reflexivity|].
  split; [by apply list_lookup_insert_eq|].
  split; [intros k Hk; by apply list_lookup_insert_ne|].
  destruct u as [value|value|value|value]; [by repeat split| | |by repeat split].
  - do 3 (split; [reflexivity|]). split.
    + rewrite <- !orZero_countedAs. reflexivity.
    + intros q p Hvalue Hprice Hq0 Hq Hp0 Hp.
      rewrite <- (countedAs_number q Hq0 Hq), <- (countedAs_number p Hp0 Hp).
      rewrite <- !orZero_countedAs, <- Hvalue, <- Hprice. reflexivity.
  - do 3 (split; [reflexivity|]). split.
    + rewrite <- !orZero_countedAs. reflexivity.
    + intros q p Hquantity Hvalue Hq0 Hq Hp0 Hp.
      rewrite <- (countedAs_number q Hq0 Hq), <- (countedAs_number p Hp0 Hp).
      rewrite <- !orZero_countedAs, <- Hquantity, <- Hvalue. reflexivity.
Qed.

Lemma updateLineItem_line_total_witness :
  (exists (ledger' : Ledger) (inv' : InvoiceRecord) (items' : list LineItem)
          (item' : LineItem),
     updateLineItem 0 0 (Quantity (Some 3%float)) [staleInvoice] = Returns ledger' /\
     ledger' !! 0 = Some inv' /\
     line_items inv' = Some items' /\
     items' !! 0 = Some item' /\
     quantity item' = Some 3%float /\ unit_price item' = Some 10%float /\
     line_total item' = Some 30%float) /\
  (exists (ledger' : Ledger) (inv' : InvoiceRecord) (items' : list LineItem)
          (item' : LineItem),
     updateLineItem 0 0 (LineTotal (Some 55%float)) [staleInvoice] = Returns ledger' /\
     ledger' !! 0 = Some inv' /\
     line_items inv' = Some items' /\
     items' !! 0 = Some item' /\
     line_total item' = Some 55%float /\ quantity item' = Some 4%float /\
     unit_price item' = Some 10%float).
Proof.
  split.
  - destruct (updateLineItem_line_total [staleInvoice] 0 0 (Quantity (Some 3%float))
                staleInvoice [staleItem] staleItem eq_refl eq_refl eq_refl)
      as (ledger' & inv' & items' & item' & Hl & Hi & Hli & Hit & _ &
          Hq & Hp & _ & _ & Hprod).
    exists ledger', inv', items', item'.
    split; [exact Hl|]. split; [exact Hi|]. split; [exact Hli|]. split; [exact Hit|].
    split; [exact Hq|]. split; [exact Hp|].
    exact (Hprod 3%float 10%float eq_refl eq_refl eq_refl eq_refl eq_refl eq_refl).
  - destruct (updateLineItem_line_total [staleInvoice] 0 0 (LineTotal (Some 55%float))
                staleInvoice [staleItem] staleItem eq_refl eq_refl eq_refl)
      as (ledger' & inv' & items' & item' & Hl & Hi & Hli & Hit & _ &
          Ht & Hq & Hp & _).
    exists ledger', inv', items', item'.
    split; [exact Hl|]. split; [exact Hi|]. split; [exact Hli|]. split; [exact Hit|].
    split; [exact Ht|]. split; [exact Hq|exact Hp].
Defined.

(** A factor that is absent or NaN counts as 0: an item without a unit
    price gets the line total [3 * 0], and a quantity that is NaN gives
    [0 * 10]. *)
Example absent_or_nan_factor :
  updateLineItem 0 0 (Quantity (Some 3%float))
    [setLineItems [{| description := None; quantity := None;
                      unit_price := None; line_total := None |}] emptyInvoice] =
  Returns [recalculateTotals
             [{| description := None; quantity := Some 3%float;
                 unit_price := None; line_total := Some 0%float |}]
             emptyInvoice] /\
  updateLineItem 0 0 (Quantity (Some nan)) [staleInvoice] =
  Returns [recalculateTotals
             [{| description := Some "Widget"; quantity := Some nan;
                 unit_price := Some 10%float; line_total := Some 0%float |}]
             staleInvoice].
Proof. split; reflexivity. Qed.

Lemma getText_setText (f g : TextField) (v : option string) (inv : InvoiceRecord) :
  getText g (setText f v inv) = if decide (f = g) then v else getText g inv.
Proof. by destruct g. Qed.

Lemma getAmount_setAmount (f g : AmountField) (v : option float) (inv : InvoiceRecord) :
  getAmount g (setAmount f v inv) = if decide (f = g) then v else getAmount g inv.
Proof. by destruct g. Qed.

(** C7: on an existing invoice, [updateInvoice] returns the ledger with
    that one record replaced; the record has the given value in the given
    field and is otherwise the old one (every other text and amount
    field, the line items, the file name); every other invoice is the old
    one; in particular an edit of [subtotal] or [total_amount] is stored
    as given and no total is recomputed. *)
Theorem updateInvoice_frame (ledger : Ledger) (index : nat) (u : InvoiceUpdate)
    (inv : InvoiceRecord) :
  ledger !! index = Some inv ->
  exists (ledger' : Ledger) (inv' : InvoiceRecord),
    updateInvoice index u ledger = Returns ledger' /\
    length ledger' = length ledger /\
    ledger' !! index = Some inv' /\
    (forall j, j <> index -> ledger' !! j = ledger !! j) /\
    line_items inv' = line_items inv /\
    _filename inv' = _filename inv /\
    match u with
    | TextUpdate field value =>
        getText field inv' = value /\
        (forall g, g <> field -> getText g inv' = getText g inv) /\
        (forall g, getAmount g inv' = getAmount g inv)
    | AmountUpdate field value =>
        getAmount field inv' = value /\
        (forall g, g <> field -> getAmount g inv' = getAmount g inv) /\
        (forall g, getText g inv' = getText g inv)
    end.
Proof.
  intros Hinv.
  assert (Hi : index < length ledger) by (by eapply lookup_lt_Some).
  unfold updateInvoice. rewrite Hinv, (arrayWrite_in_range _ _ _ Hi). cbn [default].
  eexists _, _. split; [reflexivity|].
  split; [apply length_insert|].
  split; [by apply list_lookup_insert_eq|].
  split; [intros j Hj; by apply list_lookup_insert_ne|].
  destruct u as [field value|field value]; cbn [assignInvoiceField].
  - split; [reflexivity|]. split; [reflexivity|].
    split; [rewrite getText_setText; by rewrite decide_True|].
    split; [|by intros []].
    intros g Hg. rewrite getText_setText. by rewrite decide_False.
  - split; [reflexivity|]. split; [reflexivity|].
    split; [rewrite getAmount_setAmount; by rewrite decide_True|].
    split; [|by intros []].
    intros g Hg. rewrite getAmount_setAmount. by rewrite decide_False.
Qed.

Lemma updateInvoice_frame_witness :
  exists (ledger' : Ledger) (inv' : InvoiceRecord),
    updateInvoice 0 (AmountUpdate Fsubtotal (Some 7%float)) [staleInvoice] = Returns ledger' /\
    length ledger' = 1 /\
    ledger' !! 0 = Some inv' /\
    (forall j, j <> 0 -> ledger' !! j = [staleInvoice] !! j) /\
    line_items inv' = Some [staleItem] /\
    _filename inv' = Some "acme.pdf" /\
    getAmount Fsubtotal inv' = Some 7%float /\
    (forall g, g <> Fsubtotal -> getAmount g inv' = getAmount g staleInvoice) /\
    (forall g, getText g inv' = getText g staleInvoice).
Proof.
  apply (updateInvoice_frame [staleInvoice] 0 (AmountUpdate Fsubtotal (Some 7%float))
           staleInvoice).
  reflexivity.
Defined.

(** An overridden subtotal stays: the total is not touched. *)
Example subtotal_override_is_verbatim :
  exists inv', updateInvoice 0 (AmountUpdate Fsubtotal (Some 7%float)) [staleInvoice]
               = Returns [inv'] /\
    subtotal inv' = Some 7%float /\ total_amount inv' = Some 108%float /\
    tax_amount inv' = Some 8%float.
Proof. eexists. repeat split. Qed.

(** C9 as stated fails twice.  With an item index past the end the
    totals are recomputed all the same, so a subtotal that was not the
    sum of the line totals changes (100 becomes 40, the total 108 becomes
    48); with an invoice index past the end the handler throws. *)
Lemma deleteLineItem_out_of_range_changes_state :
  [staleInvoice] !! 0 = Some staleInvoice /\
  length (itemsOf staleInvoice) <= 7 /\
  deleteLineItem 0 7 [staleInvoice] =
    Returns [recalculateTotals [staleItem] staleInvoice] /\
  subtotal (recalculateTotals [staleItem] staleInvoice) = Some 40%float /\
  total_amount (recalculateTotals [staleItem] staleInvoice) = Some 48%float /\
  deleteLineItem 0 7 [staleInvoice] <> Returns [staleInvoice] /\
  deleteLineItem 3 0 [staleInvoice] = TypeError.
Proof.
  split; [reflexivity|]. split; [cbn; lia|]. split; [reflexivity|].
  split; [reflexivity|]. split; [reflexivity|]. split; [|reflexivity].
  intros H.
  assert (E : Some 40%float = Some 100%float).
  { exact (f_equal (fun o => match o with
                             | Returns (r :: _) => subtotal r
                             | _ => None
                             end) H). }
  revert E. apply Some_float_neq; reflexivity.
Qed.

(** C9, amended: [deleteLineItem] with an invoice index past the end of
    the ledger throws a [TypeError], and so it does on an invoice that
    has no [line_items] array; nothing is written then.  On an existing
    invoice that has the array, with an item index past its end, it
    returns without an error: the line items, the tax, the text fields
    and the file name of the invoice are as before and every other
    invoice is untouched, while [subtotal] and [total_amount] are
    recomputed from the line items and the tax, so that the ledger is
    unchanged when they already had those values. *)
Theorem deleteLineItem_out_of_range (ledger : Ledger) (invoiceIndex itemIndex : nat) :
  (length ledger <= invoiceIndex ->
   deleteLineItem invoiceIndex itemIndex ledger = TypeError) /\
  (forall inv : InvoiceRecord,
     ledger !! invoiceIndex = Some inv -> line_items inv = None ->
     deleteLineItem invoiceIndex itemIndex ledger = TypeError) /\
  (forall (inv : InvoiceRecord) (items : list LineItem),
     ledger !! invoiceIndex = Some inv ->
     line_items inv = Some items ->
     length items <= itemIndex ->
     exists inv' : InvoiceRecord,
       deleteLineItem invoiceIndex itemIndex ledger =
         Returns (<[invoiceIndex := inv']> ledger) /\
       line_items inv' = Some items /\
       tax_amount inv' = tax_amount inv /\
       _filename inv' = _filename inv /\
       (forall f, getText f inv' = getText f inv) /\
       subtotalIsSum inv' /\ totalIsSubtotalPlusTax inv' /\
       (subtotalIsSum inv -> totalIsSubtotalPlusTax inv ->
        deleteLineItem invoiceIndex itemIndex ledger = Returns ledger)).
Proof.
  split; [|split].
  - intros Hbeyond. unfold deleteLineItem.
    by rewrite (lookup_ge_None_2 ledger invoiceIndex Hbeyond).
  - intros inv Hinv Hnone. unfold deleteLineItem. by rewrite Hinv, Hnone.
  - intros inv items Hinv Hitems Hj.
    unfold deleteLineItem at 1 2. rewrite Hinv, Hitems.
    rewrite filterIndex_delete, (delete_out_of_range _ _ Hj).
    exists (recalculateTotals items inv).
    split; [reflexivity|].
    destruct (recalculateTotals_fields items inv) as (Hli & _ & _ & Htax & Hfn & Htext).
    destruct (recalculateTotals_invariant items inv) as [Hsum Htot].
    repeat (split; [assumption|]).
    intros Hs (st & Hst & Ht). unfold subtotalIsSum, itemsOf in Hs.
    rewrite Hitems in Hs. cbn [default] in Hs.
    assert (Est : st = sumLineTotals items).
    { rewrite Hs in Hst. exact (f_equal (default st) (eq_sym Hst)). }
    subst st. rewrite (recalculateTotals_id inv items Hitems Hs Ht).
    f_equal. by apply list_insert_id.
Qed.

Lemma deleteLineItem_out_of_range_witness :
  deleteLineItem 3 0 [staleInvoice] = TypeError /\
  deleteLineItem 0 0 [] = TypeError /\
  deleteLineItem 0 0 [emptyInvoice] = TypeError /\
  exists inv' : InvoiceRecord,
    deleteLineItem 0 7 [staleInvoice] = Returns (<[0 := inv']> [staleInvoice]) /\
    line_items inv' = Some [staleItem] /\
    tax_amount inv' = tax_amount staleInvoice /\
    _filename inv' = _filename staleInvoice /\
    (forall f, getText f inv' = getText f staleInvoice) /\
    subtotalIsSum inv' /\ totalIsSubtotalPlusTax inv' /\
    (subtotalIsSum staleInvoice -> totalIsSubtotalPlusTax staleInvoice ->
     deleteLineItem 0 7 [staleInvoice] = Returns [staleInvoice]).
Proof.
  split; [|split; [|split]].
  - apply (proj1 (deleteLineItem_out_of_range [staleInvoice] 3 0)). cbn. lia.
  - apply (proj1 (deleteLineItem_out_of_range [] 0 0)). cbn. lia.
  - apply (proj1 (proj2 (deleteLineItem_out_of_range [emptyInvoice] 0 0)) emptyInvoice);
      reflexivity.
  - apply (proj2 (proj2 (deleteLineItem_out_of_range [staleInvoice] 0 7))
             staleInvoice [staleItem]).
    + reflexivity.
    + reflexivity.
    + cbn. lia.
Defined.

(** An out-of-range delete on an invoice whose totals agree with its line
    items returns the ledger as it was. *)
Example deleteLineItem_out_of_range_settled :
  deleteLineItem 0 7 [recalculateTotals [staleItem] staleInvoice] =
  Returns [recalculateTotals [staleItem] staleInvoice].
Proof. reflexivity. Qed.

(** ** Strings *)

Lemma app_cons_s (c : ascii) (a b : string) :
  String c a +:+ b = String c (a +:+ b).
Proof. reflexivity. Qed.

Lemma app_nil_l_s (b : string) : "" +:+ b = b.
Proof. reflexivity. Qed.

Lemma app_assoc_s (a b c : string) : (a +:+ b) +:+ c = a +:+ (b +:+ c).
Proof.
  induction a as [|x a IH]; [reflexivity|].
  rewrite !app_cons_s. by rewrite IH.
Qed.

Lemma app_nil_r_s (a : string) : a +:+ "" = a.
Proof.
  induction a as [|x a IH]; [reflexivity|].
  rewrite app_cons_s. by rewrite IH.
Qed.

Lemma length_app_s (a b : string) :
  String.length (a +:+ b) = String.length a + String.length b.
Proof.
  induction a as [|x a IH]; [reflexivity|].
  rewrite app_cons_s. cbn [String.length]. by rewrite IH.
Qed.

Lemma concatRows_one (r : string) : concatRows [r] = r.
Proof. apply app_nil_r_s. Qed.

Lemma concatRows_app (r1 r2 : list string) :
  concatRows (r1 ++ r2) = concatRows r1 +:+ concatRows r2.
Proof.
  unfold concatRows. induction r1 as [|r r1 IH]; cbn [foldr app]; [reflexivity|].
  by rewrite IH, app_assoc_s.
Qed.

(** ** The exporter *)

(** A [forEach] whose body appends to the accumulator appends the pieces
    in order. *)
Lemma forEachFrom_append {A : Type} (piece : A -> nat -> string) (a : list A)
    (k : nat) (csv : string) :
  forEachFrom (fun csv x index => csv +:+ piece x index) k a csv =
  csv +:+ concatRows (imap (fun i x => piece x (k + i)) a).
Proof.
  revert k csv. induction a as [|x a IH]; intros k csv;
    cbn [forEachFrom imap concatRows foldr].
  - by rewrite app_nil_r_s.
  - rewrite IH, app_assoc_s. replace (k + 0) with k by lia.
    do 3 f_equal. apply imap_ext. intros i y _. cbn [compose]. f_equal. lia.
Qed.

Section ExporterFacts.

Variable numToString : float -> string.

Lemma lineItemRow_cells (invoice : InvoiceRecord) (item : LineItem) (index : nat) :
  lineItemRow numToString invoice item index =
  csvRow (lineItemCells numToString invoice item index).
Proof.
  unfold lineItemRow, csvRow, lineItemCells, invoiceColumns, invoiceCells,
    totalsCells, blankCells.
  destruct (decide (index = 0)); cbn [app join];
    rewrite ?app_assoc_s; reflexivity.
Qed.

Lemma noLineItemsRow_cells (invoice : InvoiceRecord) :
  noLineItemsRow numToString invoice = csvRow (noLineItemsCells numToString invoice).
Proof.
  unfold noLineItemsRow, csvRow, noLineItemsCells, invoiceColumns, invoiceCells,
    totalsCells, blankCells.
  cbn [app join]. rewrite ?app_assoc_s. reflexivity.
Qed.

Lemma exportInvoice_rows (csv : string) (invoice : InvoiceRecord) (index : nat) :
  exportInvoice numToString csv invoice index =
  csv +:+ concatRows (invoiceRows numToString invoice).
Proof.
  unfold exportInvoice, invoiceRows, itemsOf.
  destruct (line_items invoice) as [[|first rest]|]; cbn [default from_option id].
  - by rewrite concatRows_one, noLineItemsRow_cells.
  - unfold forEach. rewrite forEachFrom_append. do 2 f_equal.
    apply imap_ext. intros i item _. cbn [Nat.add]. apply lineItemRow_cells.
  - by rewrite concatRows_one, noLineItemsRow_cells.
Qed.

Lemma forEach_exportInvoice (ledger : list InvoiceRecord) (k : nat) (csv : string) :
  forEachFrom (exportInvoice numToString) k ledger csv =
  csv +:+ concatRows (flat_map (invoiceRows numToString) ledger).
Proof.
  revert k csv.
  induction ledger as [|invoice ledger IH]; intros k csv;
    cbn [forEachFrom flat_map concatRows foldr].
  - by rewrite app_nil_r_s.
  - by rewrite IH, exportInvoice_rows, concatRows_app, app_assoc_s.
Qed.

End ExporterFacts.

(** The cells of the exporter's rows, written out: the text fields
    between quotes, the numbers as the platform converts what they count
    as. *)
Lemma lineItemCells_explicit (numToString : float -> string) (invoice : InvoiceRecord)
    (item : LineItem) (index : nat) :
  lineItemCells numToString invoice item index =
  [quoted (vendor_name invoice); quoted (invoice_number invoice);
   quoted (invoice_date invoice); quoted (due_date invoice);
   quoted (purchase_order_number invoice);
   quoted (description item);
   numToString (countedAs (quantity item));
   numToString (countedAs (unit_price item));
   numToString (countedAs (line_total item))] ++
  (if decide (index = 0)
   then [numToString (countedAs (subtotal invoice));
         numToString (countedAs (tax_amount invoice));
         numToString (countedAs (total_amount invoice))]
   else [""; ""; ""]).
Proof.
  unfold lineItemCells, invoiceCells, totalsCells, blankCells, numberCell.
  rewrite !orZero_countedAs. by destruct (decide (index = 0)).
Qed.

Lemma noLineItemsCells_explicit (numToString : float -> string) (invoice : InvoiceRecord) :
  noLineItemsCells numToString invoice =
  [quoted (vendor_name invoice); quoted (invoice_number invoice);
   quoted (invoice_date invoice); quoted (due_date invoice);
   quoted (purchase_order_number invoice);
   dq +:+ "No line items" +:+ dq; ""; ""; "";
   numToString (countedAs (subtotal invoice));
   numToString (countedAs (tax_amount invoice));
   numToString (countedAs (total_amount invoice))].
Proof.
  unfold noLineItemsCells, invoiceCells, totalsCells, blankCells, numberCell.
  by rewrite !orZero_countedAs.
Qed.




(** An invoice with two line items yields two data rows, the totals on
    the first and three empty cells at the end of the second; the absent
    quantity of the second item is exported as 0. *)
Example export_two_items :
  exportToCSV zeroOrNumber [twoItemInvoice] =
  Some (header +:+
        csvRow [dq +:+ "Acme" +:+ dq; dq +:+ "INV-1" +:+ dq;
                dq +:+ "2024-01-31" +:+ dq; dq +:+ dq; dq +:+ dq;
                dq +:+ "Widget" +:+ dq; "N"; "N"; "N"; "N"; "0"; "N"] +:+
        csvRow [dq +:+ "Acme" +:+ dq; dq +:+ "INV-1" +:+ dq;
                dq +:+ "2024-01-31" +:+ dq; dq +:+ dq; dq +:+ dq;
                dq +:+ "Gadget, large" +:+ dq; "0"; "N"; "N"; ""; ""; ""]).
Proof. reflexivity. Qed.

(** An invoice without line items yields one row. *)
Example export_no_items :
  exportToCSV zeroOrNumber [emptyInvoice] =
  Some (header +:+
        csvRow [dq +:+ dq; dq +:+ dq; dq +:+ dq; dq +:+ dq; dq +:+ dq;
                dq +:+ "No line items" +:+ dq; ""; ""; ""; "0"; "0"; "0"]).
Proof. reflexivity. Qed.

(** ** Quoting of the text cells *)

Lemma escapeQuotes_id (s : string) :
  occurs "034" s = false -> escapeQuotes s = s.
Proof.
  induction s as [|c s IH]; [reflexivity|]. cbn [occurs escapeQuotes].
  destruct (isChar c "034"); [discriminate|]. cbn. intros H. by rewrite IH.
Qed.

Lemma escapeQuotes_length (s : string) :
  String.length s <= String.length (escapeQuotes s).
Proof.
  induction s as [|c s IH]; [reflexivity|]. cbn [escapeQuotes].
  destruct (isChar c "034"); cbn [String.length]; lia.
Qed.

Lemma escapeQuotes_longer (s : string) :
  occurs "034" s = true -> String.length s < String.length (escapeQuotes s).
Proof.
  induction s as [|c s IH]; [discriminate|]. cbn [occurs escapeQuotes].
  destruct (isChar c "034"); cbn [orb String.length].
  - intros _. pose proof (escapeQuotes_length s). lia.
  - intros H. apply IH in H. lia.
Qed.

(** C10 as stated fails for a comma and for a line break: a value that
    contains one, and no double quote, is emitted between the quotes as
    it is, and that is exactly its standard quoting. *)
Lemma comma_and_newline_are_quoted_correctly :
  occurs "," "a,b" = true /\
  textCell (Some "a,b") = dq +:+ "a,b" +:+ dq /\
  textCell (Some "a,b") = rfc4180Quote "a,b" /\
  occurs "010" ("a" +:+ newline +:+ "b") = true /\
  textCell (Some ("a" +:+ newline +:+ "b")) = dq +:+ "a" +:+ newline +:+ "b" +:+ dq /\
  textCell (Some ("a" +:+ newline +:+ "b")) = rfc4180Quote ("a" +:+ newline +:+ "b").
Proof. repeat split. Qed.

(** C10, amended: the six text cells of a row are the fields between
    double quotes, character for character, with no escaping; such a cell
    is the standard quoting of its value exactly when the value contains
    no double quote, so a double quote breaks the row while a comma or a
    line break does not. *)
Theorem textCell_verbatim (numToString : float -> string) (invoice : InvoiceRecord)
    (item : LineItem) (index : nat) (s : string) :
  take 6 (lineItemCells numToString invoice item index) =
    [textCell (vendor_name invoice); textCell (invoice_number invoice);
     textCell (invoice_date invoice); textCell (due_date invoice);
     textCell (purchase_order_number invoice); textCell (description item)] /\
  take 5 (noLineItemsCells numToString invoice) =
    [textCell (vendor_name invoice); textCell (invoice_number invoice);
     textCell (invoice_date invoice); textCell (due_date invoice);
     textCell (purchase_order_number invoice)] /\
  textCell (Some s) = dq +:+ s +:+ dq /\
  (textCell (Some s) = rfc4180Quote s <-> occurs "034" s = false).
Proof.
  split; [reflexivity|]. split; [reflexivity|]. split; [reflexivity|].
  unfold textCell, rfc4180Quote. cbn [orEmpty]. split.
  - intros H. destruct (occurs "034" s) eqn:E; [|reflexivity].
    apply escapeQuotes_longer in E.
    apply (f_equal String.length) in H.
    rewrite !length_app_s in H. lia.
  - intros H. by rewrite escapeQuotes_id.
Qed.

(** A double quote inside a value is emitted alone, where the standard
    quoting doubles it. *)
Example quote_is_not_escaped :
  textCell (Some ("6" +:+ dq +:+ " pipe")) = dq +:+ "6" +:+ dq +:+ " pipe" +:+ dq /\
  rfc4180Quote ("6" +:+ dq +:+ " pipe") = dq +:+ "6" +:+ dq +:+ dq +:+ " pipe" +:+ dq.
Proof. split; reflexivity. Qed.

(** ** Scanning strings *)

Lemma isChar_true (c d : ascii) : isChar c d = true <-> c = d.
Proof. unfold isChar. apply bool_decide_eq_true. Qed.

Lemma occurs_app (c : ascii) (a b : string) :
  occurs c (a +:+ b) = occurs c a || occurs c b.
Proof.
  induction a as [|x a IH]; [reflexivity|].
  rewrite app_cons_s. cbn [occurs]. by rewrite IH, orb_assoc.
Qed.

Lemma throughLast_None (c : ascii) (s : string) :
  throughLast c s = None <-> occurs c s = false.
Proof.
  induction s as [|d s IH]; [done|]. cbn [throughLast occurs].
  destruct (throughLast c s) as [p|].
  - split; [discriminate|]. intros H. apply orb_false_iff in H as [_ H].
    apply IH in H. discriminate.
  - destruct IH as [IH _]. rewrite (IH eq_refl), orb_false_r.
    by destruct (isChar d c).
Qed.

Lemma throughLast_Some (c : ascii) (s p : string) :
  throughLast c s = Some p ->
  exists mid post : string,
    p = mid +:+ String c "" /\ s = p +:+ post /\ occurs c post = false.
Proof.
  revert p. induction s as [|d s IH]; intros p; [discriminate|].
  cbn [throughLast]. destruct (throughLast c s) as [p'|] eqn:E.
  - intros [= <-]. destruct (IH p' eq_refl) as (mid & post & -> & Hs & Hpost).
    exists (String d mid), post. split; [reflexivity|]. split; [|done].
    rewrite app_cons_s. by f_equal.
  - destruct (isChar d c) eqn:Ed; [|discriminate]. intros [= <-].
    apply isChar_true in Ed as ->. exists "", s.
    split; [reflexivity|]. split; [reflexivity|]. by apply throughLast_None.
Qed.

Lemma jsonMatch_no_close (s : string) :
  occurs "}" s = false -> jsonMatch s = None.
Proof.
  induction s as [|c s IH]; [done|]. cbn [occurs jsonMatch].
  intros H. apply orb_false_iff in H as [_ H].
  destruct (isChar c "{"); [|by apply IH].
  assert (E : throughLast "}" s = None) by (by apply throughLast_None).
  rewrite E. by apply IH.
Qed.

(** The match runs from the first ["{"] through the last ["}"]. *)
Lemma jsonMatch_Some (s m : string) :
  jsonMatch s = Some m -> firstToLast s m.
Proof.
  revert m. induction s as [|c s IH]; intros m; [discriminate|].
  cbn [jsonMatch]. destruct (isChar c "{") eqn:Ec.
  - apply isChar_true in Ec as ->.
    destruct (throughLast "}" s) as [p|] eqn:E.
    + intros [= <-]. destruct (throughLast_Some _ _ _ E) as (mid & post & -> & Hs & Hpost).
      exists "", mid, post. split; [|done].
      rewrite app_nil_l_s, app_cons_s. by f_equal.
    + apply throughLast_None, jsonMatch_no_close in E. by rewrite E.
  - intros H. destruct (IH m H) as (pre & mid & post & -> & Hm & Hpre & Hpost).
    exists (String c pre), mid, post. split; [reflexivity|].
    split; [done|]. split; [|done]. cbn [occurs]. by rewrite Ec, Hpre.
Qed.

Lemma jsonMatch_span (pre mid post : string) :
  jsonMatch (pre +:+ "{" +:+ mid +:+ "}" +:+ post) <> None.
Proof.
  assert (Hclose : forall a, occurs "}" (a +:+ mid +:+ "}" +:+ post) = true).
  { intros a. rewrite !occurs_app. cbn [occurs].
    replace (isChar "}" "}") with true by reflexivity.
    by rewrite !orb_true_r. }
  induction pre as [|c pre IH].
  - rewrite app_nil_l_s. change ("{" +:+ ?x) with (String "{" x).
    cbn [jsonMatch]. replace (isChar "{" "{") with true by reflexivity.
    destruct (throughLast "}" (mid +:+ "}" +:+ post)) eqn:E; [done|].
    apply throughLast_None in E. specialize (Hclose ""). rewrite app_nil_l_s in Hclose.
    congruence.
  - rewrite app_cons_s. cbn [jsonMatch]. destruct (isChar c "{"); [|exact IH].
    destruct (throughLast "}" (pre +:+ "{" +:+ mid +:+ "}" +:+ post)) eqn:E; [done|].
    apply throughLast_None in E.
    rewrite occurs_app in E. apply orb_false_iff in E as [_ E].
    specialize (Hclose "{"). congruence.
Qed.

(** There is a match exactly when a ["{"] is followed, somewhere, by a
    ["}"]. *)
Lemma jsonMatch_None (s : string) :
  jsonMatch s = None <-> ~ hasBraceSpan s.
Proof.
  split.
  - intros H (pre & mid & post & ->). by apply (jsonMatch_span pre mid post).
  - intros Hno. destruct (jsonMatch s) as [m|] eqn:E; [|done].
    destruct Hno. apply jsonMatch_Some in E as (pre & mid & post & -> & -> & _).
    exists pre, mid, post. by rewrite !app_assoc_s.
Qed.

(** ** Tags and white space *)

Lemma hasTagb_spec (s : string) : hasTagb s = true <-> hasTag s.
Proof.
  split.
  - induction s as [|c s IH]; [discriminate|]. cbn [hasTagb].
    intros H. apply orb_true_iff in H as [H|H].
    + apply andb_true_iff in H as [Hc Hclose]. apply isChar_true in Hc as ->.
      destruct (throughLast ">" s) as [p|] eqn:E.
      * destruct (throughLast_Some _ _ _ E) as (mid & post & -> & Hs & _).
        exists "", mid, post. rewrite app_nil_l_s, Hs, app_assoc_s. reflexivity.
      * apply throughLast_None in E. congruence.
    + destruct (IH H) as (pre & mid & post & ->).
      by exists (String c pre), mid, post.
  - intros (pre & mid & post & ->). induction pre as [|c pre IH].
    + rewrite app_nil_l_s. change ("<" +:+ ?x) with (String "<" x).
      cbn [hasTagb]. replace (isChar "<" "<") with true by reflexivity.
      rewrite occurs_app. cbn [occurs].
      replace (isChar ">" ">") with true by reflexivity.
      by rewrite orb_true_r.
    + rewrite app_cons_s. cbn [hasTagb]. by rewrite IH, orb_true_r.
Qed.

Lemma occurs_replaceTags (c : ascii) (inTag : bool) (s : string) :
  occurs c s = false -> occurs c (replaceTags inTag s) = false.
Proof.
  revert inTag. induction s as [|d s IH]; intros inTag; [done|].
  cbn [occurs replaceTags]. intros H. apply orb_false_iff in H as [Hd Hs].
  destruct inTag.
  - destruct (isChar d ">"); by apply IH.
  - destruct (isChar d "<" && occurs ">" s); [by apply IH|].
    cbn [occurs]. by rewrite Hd, IH.
Qed.

(** After the replacement no ["<"] is followed by a [">"]. *)
Lemma replaceTags_no_tag (inTag : bool) (s : string) :
  hasTagb (replaceTags inTag s) = false.
Proof.
  revert inTag. induction s as [|c s IH]; intros inTag; [by destruct inTag|].
  cbn [replaceTags]. destruct inTag.
  - destruct (isChar c ">"); apply IH.
  - destruct (isChar c "<") eqn:Ec; cbn [andb].
    + destruct (occurs ">" s) eqn:E; [apply IH|].
      cbn [hasTagb]. rewrite Ec, IH, (occurs_replaceTags _ _ _ E). reflexivity.
    + cbn [hasTagb]. by rewrite Ec, IH.
Qed.

(** A string without a tag is left as it is. *)
Lemma replaceTags_id (s : string) :
  hasTagb s = false -> replaceTags false s = s.
Proof.
  induction s as [|c s IH]; [done|]. cbn [hasTagb replaceTags].
  intros H. apply orb_false_iff in H as [-> H]. by rewrite IH.
Qed.

Lemma trimStart_split (s : string) :
  exists ws : string, allWhite ws = true /\ s = ws +:+ trimStart s.
Proof.
  induction s as [|c s (ws & Hws & IH)]; [by exists ""|].
  cbn [trimStart]. destruct (isWhiteSpace c) eqn:Ec.
  - exists (String c ws). split; [cbn [allWhite]; by rewrite Ec|].
    rewrite app_cons_s. by f_equal.
  - by exists "".
Qed.

Lemma trimEnd_split (s : string) :
  exists ws : string, allWhite ws = true /\ s = trimEnd s +:+ ws.
Proof.
  induction s as [|c s (ws & Hws & IH)]; [by exists ""|].
  cbn [trimEnd]. destruct (trimEnd s) as [|d kept] eqn:E.
  - rewrite app_nil_l_s in IH. subst s. destruct (isWhiteSpace c) eqn:Ec.
    + exists (String c ws). split; [cbn [allWhite]; by rewrite Ec|done].
    + by exists ws.
  - exists ws. split; [done|]. rewrite app_cons_s. by f_equal.
Qed.

(** [trim] removes white space from the two ends and nothing else. *)
Lemma trim_split (s : string) :
  exists before after : string,
    allWhite before = true /\ allWhite after = true /\
    s = before +:+ trim s +:+ after.
Proof.
  destruct (trimStart_split s) as (before & Hb & Hs).
  destruct (trimEnd_split (trimStart s)) as (after & Ha & Ht).
  exists before, after. split; [done|]. split; [done|].
  unfold trim. by rewrite <- Ht.
Qed.

Lemma trimStart_not_white (s : string) : startsWhite (trimStart s) = false.
Proof.
  induction s as [|c s IH]; [done|]. cbn [trimStart].
  destruct (isWhiteSpace c) eqn:Ec; [done|]. cbn [startsWhite]. exact Ec.
Qed.

Lemma trimEnd_starts (s : string) :
  startsWhite s = false -> startsWhite (trimEnd s) = false.
Proof.
  destruct s as [|c s]; [done|]. cbn [startsWhite trimEnd]. intros Hc.
  destruct (trimEnd s); [by rewrite Hc|done].
Qed.

Lemma trimEnd_not_white (s : string) : endsWhite (trimEnd s) = false.
Proof.
  induction s as [|c s IH]; [done|]. cbn [trimEnd].
  destruct (trimEnd s) as [|d kept] eqn:E.
  - destruct (isWhiteSpace c) eqn:Ec; [done|]. cbn [endsWhite]. exact Ec.
  - exact IH.
Qed.

Lemma trim_trimmed (s : string) :
  startsWhite (trim s) = false /\ endsWhite (trim s) = false.
Proof.
  split; [|apply trimEnd_not_white].
  apply trimEnd_starts, trimStart_not_white.
Qed.

Lemma hasTagb_app (a b : string) :
  hasTagb (a +:+ b) = false -> hasTagb a = false /\ hasTagb b = false.
Proof.
  induction a as [|c a IH]; [done|]. rewrite app_cons_s. cbn [hasTagb].
  intros H. apply orb_false_iff in H as [Hc H]. destruct (IH H) as [Ha Hb].
  split; [|done]. rewrite Ha, orb_false_r.
  destruct (isChar c "<"); [|done]. cbn [andb] in *.
  rewrite occurs_app in Hc. by apply orb_false_iff in Hc as [-> _].
Qed.

(** Trimming a string without a tag leaves a string without a tag. *)
Lemma trim_no_tag (s : string) : hasTagb s = false -> hasTagb (trim s) = false.
Proof.
  intros H. destruct (trim_split s) as (before & after & _ & _ & Hs).
  rewrite Hs in H. apply hasTagb_app in H as [_ H].
  by apply hasTagb_app in H as [H _].
Qed.

(** What [sanitize] returns for a string has no tag left and no white
    space at either end. *)
Lemma sanitize_string (s : string) :
  exists t : string,
    sanitize (JString s) = JString t /\
    t = trim (replaceTags false s) /\
    ~ hasTag t /\ startsWhite t = false /\ endsWhite t = false.
Proof.
  exists (trim (replaceTags false s)). split; [done|]. split; [done|].
  split; [|apply trim_trimmed].
  rewrite <- hasTagb_spec, trim_no_tag; [done|apply replaceTags_no_tag].
Qed.

Lemma sanitize_not_string (v : JsValue) : isString v = false -> sanitize v = v.
Proof. by destruct v. Qed.

(** ** Sanitizing a parsed payload *)

(** The loop over the keys sanitizes every value, which leaves the values
    that are not strings as they are. *)
Lemma sanitizeStringFields_lookup (props : gmap string JsValue) (k : string) :
  sanitizeStringFields props !! k = sanitize <$> props !! k.
Proof.
  unfold sanitizeStringFields.
  set (f := fun (key : string) (value : JsValue) (updated : gmap string JsValue) =>
              if isString value then <[key := sanitize value]> updated else updated).
  assert (H : forall m : gmap string JsValue, m ⊆ props -> forall k',
             map_fold f props m !! k' =
             match m !! k' with
             | Some v => Some (sanitize v)
             | None => props !! k'
             end).
  { intros m.
    apply (map_fold_weak_ind
             (fun r m => m ⊆ props -> forall k',
                r !! k' = match m !! k' with
                          | Some v => Some (sanitize v)
                          | None => props !! k'
                          end)).
    - intros _ k'. by rewrite lookup_empty.
    - intros i x m' r Hi IH Hsub k'.
      assert (Hsub' : m' ⊆ props).
      { etrans; [by apply insert_subseteq|done]. }
      assert (Hx : props !! i = Some x).
      { eapply lookup_weaken; [apply lookup_insert_eq|done]. }
      specialize (IH Hsub'). unfold f.
      destruct (decide (i = k')) as [<-|Hne].
      + rewrite lookup_insert_eq. destruct (isString x) eqn:E.
        * by rewrite lookup_insert_eq.
        * by rewrite IH, Hi, Hx, sanitize_not_string.
      + rewrite (lookup_insert_ne m') by done.
        destruct (isString x); [rewrite lookup_insert_ne by done|]; apply IH. }
  rewrite (H props) by done. by destruct (props !! k).
Qed.

Lemma sanitizeLineItem_nullish (item : JsValue) :
  isNullish item = true -> sanitizeLineItem item = None.
Proof. by destruct item. Qed.

Lemma sanitizeLineItem_Some (item : JsValue) :
  isNullish item = false ->
  sanitizeLineItem item =
  Some (JObject (<["description" := sanitize (descriptionOf item)]> (spread item))).
Proof. by destruct item. Qed.

Lemma mapM_sanitizeLineItem (items : list JsValue) :
  existsb isNullish items = false ->
  exists mapped : list JsValue,
    mapM sanitizeLineItem items = Some mapped /\
    length mapped = length items /\
    forall (i : nat) (item : JsValue), items !! i = Some item ->
      mapped !! i =
      Some (JObject (<["description" := sanitize (descriptionOf item)]> (spread item))).
Proof.
  induction items as [|x items IH]; intros H.
  - exists []. by repeat split.
  - cbn [existsb] in H. apply orb_false_iff in H as [Hx H].
    destruct (IH H) as (mapped & Hm & Hlen & Hlook).
    exists (JObject (<["description" := sanitize (descriptionOf x)]> (spread x)) :: mapped).
    split; [|split].
    + cbn [mapM]. rewrite (sanitizeLineItem_Some _ Hx). cbn. by rewrite Hm.
    + cbn. by rewrite Hlen.
    + intros [|i] item; cbn; [by intros [= <-]|apply Hlook].
Qed.

Lemma mapM_sanitizeLineItem_None (items : list JsValue) :
  existsb isNullish items = true -> mapM sanitizeLineItem items = None.
Proof.
  intros H. apply mapM_None, Exists_exists.
  apply existsb_exists in H as (x & Hin & Hx).
  exists x. split; [by apply list_elem_of_In|by apply sanitizeLineItem_nullish].
Qed.

(** Sanitizing an object throws exactly when a line item is [null]. *)
Lemma sanitizeData_null_item (props : gmap string JsValue) :
  hasNullLineItem props = true -> sanitizeData (JObject props) = None.
Proof.
  unfold hasNullLineItem, sanitizeData, sanitizeLineItems.
  rewrite sanitizeStringFields_lookup.
  destruct (props !! "line_items") as [[]|]; try discriminate.
  intros H. cbn. by rewrite (mapM_sanitizeLineItem_None _ H).
Qed.

(** The case of a payload whose [line_items] is not an array: the
    second step changes nothing. *)
Local Ltac plain_payload :=
  intros _; eexists; split; [reflexivity|]; split; [|split];
  [ intros ? ? Hk _; by rewrite sanitizeStringFields_lookup, Hk
  | intros ? Hk; by rewrite sanitizeStringFields_lookup, Hk
  | intros ?; congruence ].

(** Otherwise it returns an object: every value sanitized, and every
    element of a [line_items] array replaced by an object that has the
    element's properties and a sanitized [description]. *)
Lemma sanitizeData_object (props : gmap string JsValue) :
  hasNullLineItem props = false ->
  exists props' : gmap string JsValue,
    sanitizeData (JObject props) = Some (JObject props') /\
    (forall (k : string) (v : JsValue),
       props !! k = Some v -> k <> "line_items" \/ isArray v = false ->
       props' !! k = Some (sanitize v)) /\
    (forall k : string, props !! k = None -> props' !! k = None) /\
    (forall items : list JsValue,
       props !! "line_items" = Some (JArray items) ->
       exists items' : list JsValue,
         props' !! "line_items" = Some (JArray items') /\
         length items' = length items /\
         forall (i : nat) (item : JsValue), items !! i = Some item ->
           items' !! i =
           Some (JObject (<["description" := sanitize (descriptionOf item)]>
                            (spread item)))).
Proof.
  unfold hasNullLineItem, sanitizeData, sanitizeLineItems.
  rewrite sanitizeStringFields_lookup.
  destruct (props !! "line_items") as [v|] eqn:Eli; cbn [fmap option_fmap option_map].
  - destruct v as [| | | | |items|]; cbn [sanitize]; try by plain_payload.
    intros H. destruct (mapM_sanitizeLineItem items H) as (mapped & Hm & Hlen & Hlook).
    rewrite Hm. cbn. eexists. split; [reflexivity|]. split; [|split].
    + intros k v Hk [Hne|Harr].
      * rewrite lookup_insert_ne by done. by rewrite sanitizeStringFields_lookup, Hk.
      * destruct (decide (k = "line_items")) as [->|Hne].
        -- rewrite Eli in Hk. injection Hk as <-. discriminate.
        -- rewrite lookup_insert_ne by done.
           by rewrite sanitizeStringFields_lookup, Hk.
    + intros k Hk. destruct (decide (k = "line_items")) as [->|Hne]; [congruence|].
      rewrite lookup_insert_ne by done. by rewrite sanitizeStringFields_lookup, Hk.
    + intros items0 [= <-]. exists mapped. by rewrite lookup_insert_eq.
  - by plain_payload.
Qed.

Example sanitize_acme : sanitizeData (JObject acmePayload) = Some (JObject acmeSanitized).
Proof. vm_compute. reflexivity. Qed.

(** The tag is stripped from the invoice number of the spec's example. *)
Example sanitize_invoice_number :
  sanitize (JString "<b>INV-1</b>") = JString "INV-1".
Proof. reflexivity. Qed.

(** Inside a tag the scan drops everything through the next [">"]. *)
Lemma replaceTags_skip (mid rest : string) :
  occurs ">" mid = false ->
  replaceTags true (mid +:+ String ">" rest) = replaceTags false rest.
Proof.
  induction mid as [|c mid IH].
  - intros _. rewrite app_nil_l_s. cbn [replaceTags].
    by replace (isChar ">" ">") with true by reflexivity.
  - cbn [occurs]. intros [Hc Hmid]%orb_false_iff.
    rewrite app_cons_s. cbn [replaceTags]. rewrite Hc. by apply IH.
Qed.

(** A string that holds a [">"] splits at the first one. *)
Lemma split_at_first (s : string) :
  occurs ">" s = true ->
  exists mid rest : string,
    s = mid +:+ String ">" rest /\ occurs ">" mid = false /\
    String.length rest < String.length s.
Proof.
  induction s as [|c s IH]; [discriminate|]. cbn [occurs String.length].
  destruct (isChar c ">") eqn:Ec.
  - intros _. apply isChar_true in Ec as ->. exists "", s.
    split; [reflexivity|]. split; [reflexivity|lia].
  - cbn [orb]. intros H. destruct (IH H) as (mid & rest & -> & Hmid & Hlen).
    exists (String c mid), rest. split; [reflexivity|]. split.
    + cbn [occurs]. by rewrite Ec, Hmid.
    + lia.
Qed.

(** The replacement removes the tags, in the statements' reading of
    them, and nothing else; and it is the only string that is the input
    without its tags. *)
Lemma replaceTags_withoutTags (s : string) : withoutTags s (replaceTags false s).
Proof.
  assert (H : forall (n : nat) (s : string),
            String.length s <= n -> withoutTags s (replaceTags false s)).
  { clear s. induction n as [|n IH]; intros s Hn.
    - destruct s; [constructor|cbn in Hn; lia].
    - destruct s as [|c s]; [constructor|]. cbn [String.length] in Hn.
      cbn [replaceTags]. destruct (isChar c "<" && occurs ">" s) eqn:E.
      + apply andb_true_iff in E as [Hc Hclose]. apply isChar_true in Hc as ->.
        destruct (split_at_first s Hclose) as (mid & rest & -> & Hmid & Hlen).
        rewrite (replaceTags_skip mid rest Hmid).
        apply withoutTags_tag; [exact Hmid|]. apply IH. lia.
      + apply withoutTags_keep; [exact E|]. apply IH. lia. }
  by apply (H (String.length s)).
Qed.

Lemma withoutTags_replaceTags (s t : string) :
  withoutTags s t -> t = replaceTags false s.
Proof.
  induction 1 as [|mid rest t Hmid _ IH|c rest t Hc _ IH].
  - reflexivity.
  - cbn [replaceTags]. replace (isChar "<" "<") with true by reflexivity.
    rewrite occurs_app. cbn [occurs].
    replace (isChar ">" ">") with true by reflexivity.
    rewrite orb_true_r. cbn [andb orb].
    by rewrite (replaceTags_skip mid rest Hmid).
  - cbn [replaceTags]. rewrite Hc. by f_equal.
Qed.

(** What [sanitize] makes of a string is the string cleaned. *)
Lemma sanitize_cleaned (s : string) : cleaned s (trim (replaceTags false s)).
Proof.
  exists (replaceTags false s). split; [apply replaceTags_withoutTags|].
  destruct (trim_split (replaceTags false s)) as (before & after & Hb & Ha & Hs).
  destruct (trim_trimmed (replaceTags false s)) as [Hstart Hend].
  by exists before, after.
Qed.

(** C6 as stated fails for a payload that has a [null] among its line
    items: it parses, and the handler then throws on the [null], so that
    the route answers with its generic error and no string of the payload
    is cleaned. *)
Lemma null_line_item_leaves_nothing_sanitized :
  jsonMatch taggedNullReply = Some taggedNullReply /\
  parseTaggedNull taggedNullReply = Some (JObject taggedNullPayload) /\
  taggedNullPayload !! "vendor_name" = Some (JString "<b>Acme</b>") /\
  taggedNullPayload !! "line_items" = Some (JArray [JNull]) /\
  sanitizeData (JObject taggedNullPayload) = None /\
  normalize parseTaggedNull taggedNullReply = ProcessingFailure.
Proof. vm_compute. repeat split. Qed.

(** C6, amended: sanitizing a parsed object throws when a line item is
    [null].  Otherwise it returns an object that has, under every key
    that held a string, that string cleaned: every tag removed (a ["<"]
    that has a [">"] after it, through the next [">"]), every other
    character kept in its place, and then the white space at the two ends
    removed; under every other key, the old value, except that the
    elements of a [line_items] array are replaced by objects with the
    element's properties, where a [description] that is a string is
    cleaned in the same way and one that is not is kept. *)
Theorem sanitize_payload (props : gmap string JsValue) :
  (hasNullLineItem props = true -> sanitizeData (JObject props) = None) /\
  (hasNullLineItem props = false ->
   exists props' : gmap string JsValue,
     sanitizeData (JObject props) = Some (JObject props') /\
     (forall (k s : string), props !! k = Some (JString s) ->
        exists t : string,
          props' !! k = Some (JString t) /\ t = trim (replaceTags false s) /\
          cleaned s t /\ ~ hasTag t) /\
     (forall (k : string) (v : JsValue), props !! k = Some v ->
        isString v = false -> k <> "line_items" \/ isArray v = false ->
        props' !! k = Some v) /\
     (forall k : string, props !! k = None -> props' !! k = None) /\
     (forall items : list JsValue, props !! "line_items" = Some (JArray items) ->
        exists items' : list JsValue,
          props' !! "line_items" = Some (JArray items') /\
          length items' = length items /\
          forall (i : nat) (item : JsValue), items !! i = Some item ->
            exists fields : gmap string JsValue,
              items' !! i = Some (JObject fields) /\
              (forall s : string, descriptionOf item = JString s ->
                 exists t : string,
                   fields !! "description" = Some (JString t) /\
                   t = trim (replaceTags false s) /\
                   cleaned s t /\ ~ hasTag t) /\
              (isString (descriptionOf item) = false ->
               fields !! "description" = Some (descriptionOf item)) /\
              (forall k : string, k <> "description" ->
                 fields !! k = spread item !! k))).
Proof.
  split; [apply sanitizeData_null_item|]. intros Hnull.
  destruct (sanitizeData_object props Hnull) as (props' & Hok & Hval & Hnone & Hitems).
  exists props'. split; [exact Hok|]. split; [|split; [|split; [exact Hnone|]]].
  - intros k s Hk.
    destruct (sanitize_string s) as (t & Ht & Heq & Htag & _).
    exists t. split; [|split; [exact Heq|split; [|exact Htag]]].
    + rewrite <- Ht. apply Hval; [done|]. by right.
    + rewrite Heq. apply sanitize_cleaned.
  - intros k v Hk Hstr Hwhere.
    rewrite <- (sanitize_not_string v Hstr). by apply Hval.
  - intros items Hli. destruct (Hitems items Hli) as (items' & Hli' & Hlen & Hlook).
    exists items'. split; [done|]. split; [done|].
    intros i item Hitem. eexists. split; [by apply Hlook|]. split; [|split].
    + intros s Hs. rewrite lookup_insert_eq, Hs.
      destruct (sanitize_string s) as (t & Ht & Heq & Htag & _).
      exists t. split; [by rewrite Ht|]. split; [exact Heq|]. split; [|exact Htag].
      rewrite Heq. apply sanitize_cleaned.
    + intros Hstr. by rewrite lookup_insert_eq, sanitize_not_string.
    + intros k Hk. by rewrite lookup_insert_ne.
Qed.

(** The spec's example: the tag is stripped from the invoice number and
    from the description of the line item, the white space around which
    goes too. *)
Lemma sanitize_payload_witness :
  exists props' : gmap string JsValue,
    sanitizeData (JObject acmePayload) = Some (JObject props') /\
    props' !! "invoice_number" = Some (JString "INV-1") /\
    props' !! "vendor_name" = Some (JString "Acme") /\
    props' !! "tax_amount" = Some JNull /\
    exists (items' : list JsValue) (fields : gmap string JsValue),
      props' !! "line_items" = Some (JArray items') /\
      length items' = 1 /\
      items' !! 0 = Some (JObject fields) /\
      fields !! "description" = Some (JString "Widget") /\
      fields !! "quantity" = Some JNull.
Proof.
  destruct (proj2 (sanitize_payload acmePayload) eq_refl)
    as (props' & Hok & Hstrings & Hothers & _ & Hitems).
  exists props'. split; [exact Hok|].
  destruct (Hstrings "invoice_number" "<b>INV-1</b>" eq_refl) as (t1 & Ht1 & -> & _).
  destruct (Hstrings "vendor_name" "Acme" eq_refl) as (t2 & Ht2 & -> & _).
  split; [exact Ht1|]. split; [exact Ht2|].
  split; [apply (Hothers "tax_amount" JNull eq_refl eq_refl); by left|].
  destruct (Hitems _ eq_refl) as (items' & Hli & Hlen & Hlook).
  destruct (Hlook 0 _ eq_refl) as (fields & Hfields & Hdescription & _ & Hrest).
  destruct (Hdescription " <i>Widget</i> " eq_refl) as (t3 & Ht3 & -> & _).
  exists items', fields. split; [exact Hli|]. split; [exact Hlen|].
  split; [exact Hfields|]. split; [exact Ht3|].
  rewrite (Hrest "quantity") by discriminate. reflexivity.
Defined.

(** ** The handler's outcomes *)

(** C4 as stated fails in its last part: the reply
    [{"line_items":[null]}] contains a match, the match parses, and the
    handler still fails, with the response of its outer [catch], because
    reading [description] on the [null] element throws. *)
Lemma null_line_item_is_a_third_failure :
  jsonMatch nullItemReply = Some nullItemReply /\
  parseNullItem nullItemReply = Some nullItemPayload /\
  normalize parseNullItem nullItemReply = ProcessingFailure /\
  normalize parseNullItem nullItemReply <> NoStructuredPayload /\
  normalize parseNullItem nullItemReply <> MalformedPayload /\
  ~ (exists data, normalize parseNullItem nullItemReply = DataResponse data).
Proof.
  assert (H : normalize parseNullItem nullItemReply = ProcessingFailure)
    by (vm_compute; reflexivity).
  split; [reflexivity|]. split; [reflexivity|]. split; [exact H|].
  rewrite H. split; [discriminate|]. split; [discriminate|].
  intros [data Hd]. discriminate.
Qed.

(** C4, amended: the handler answers [NoStructuredPayload] exactly when
    the reply has no ["{"] followed by a ["}"]; otherwise the text from
    the first ["{"] through the last ["}"] is parsed, and the handler
    answers [MalformedPayload] exactly when the parse throws; when the
    parse returns an object, the handler returns that object sanitized,
    unless its [line_items] array holds a [null], in which case it fails
    with the response of the outer [catch]. *)
Theorem normalize_outcomes (JSON_parse : string -> option JsValue)
    (responseText : string) :
  (normalize JSON_parse responseText = NoStructuredPayload <->
   ~ hasBraceSpan responseText) /\
  (hasBraceSpan responseText ->
   exists m : string, jsonMatch responseText = Some m) /\
  (forall m : string, jsonMatch responseText = Some m ->
     firstToLast responseText m /\
     (normalize JSON_parse responseText = MalformedPayload <-> JSON_parse m = None) /\
     (forall props : gmap string JsValue, JSON_parse m = Some (JObject props) ->
        if hasNullLineItem props
        then normalize JSON_parse responseText = ProcessingFailure
        else exists props' : gmap string JsValue,
               sanitizeData (JObject props) = Some (JObject props') /\
               normalize JSON_parse responseText = DataResponse (JObject props'))).
Proof.
  split; [|split].
  - rewrite <- jsonMatch_None. unfold normalize.
    destruct (jsonMatch responseText) as [m|]; [|done].
    split; [|discriminate].
    destruct (JSON_parse m) as [v|]; [|discriminate].
    destruct (sanitizeData v); discriminate.
  - intros Hspan. destruct (jsonMatch responseText) as [m|] eqn:E; [by exists m|].
    by apply jsonMatch_None in E.
  - intros m Hm. split; [by apply jsonMatch_Some|]. unfold normalize. rewrite Hm.
    split.
    + destruct (JSON_parse m) as [v|]; [|done].
      split; [|discriminate]. destruct (sanitizeData v); discriminate.
    + intros props ->. destruct (hasNullLineItem props) eqn:Hnull.
      * by rewrite (sanitizeData_null_item _ Hnull).
      * destruct (sanitizeData_object props Hnull) as (props' & Hok & _).
        exists props'. by rewrite Hok.
Qed.

(** A reply without braces, a reply whose braces hold no JSON, and the
    spec's reply with prose before the payload. *)
Example normalize_no_braces (JSON_parse : string -> option JsValue) :
  normalize JSON_parse "I could not read this invoice." = NoStructuredPayload.
Proof. reflexivity. Qed.

Example normalize_malformed :
  jsonMatch ("{" +:+ dq +:+ "a" +:+ dq +:+ ":}") = Some ("{" +:+ dq +:+ "a" +:+ dq +:+ ":}") /\
  normalize parseAcme ("{" +:+ dq +:+ "a" +:+ dq +:+ ":}") = MalformedPayload.
Proof. split; reflexivity. Qed.

Example normalize_acme :
  jsonMatch acmeReply = Some acmeJson /\
  normalize parseAcme acmeReply = DataResponse (JObject acmeSanitized).
Proof. split; vm_compute; reflexivity. Qed.

(** ** Absent numbers *)

(** C8 as stated fails for the quantity: an absent quantity is shown and
    exported as 0, like every other absent number, not as 1. *)
Lemma absent_quantity_is_zero :
  quantity emptyItem = None /\
  quantityInput emptyItem = 0%float /\
  quantityInput emptyItem <> 1%float /\
  (forall (numToString : float -> string) (invoice : InvoiceRecord) (index : nat),
     lineItemCells numToString invoice emptyItem index !! 6 = Some (numToString 0%float)) /\
  lineItemCells zeroOrNumber emptyInvoice emptyItem 0 !! 6 = Some "0" /\
  zeroOrNumber 1%float = "N".
Proof.
  split; [reflexivity|]. split; [reflexivity|]. split; [|by repeat split].
  apply float_neq; reflexivity.
Qed.

(** C8, amended: an absent quantity, like an absent unit price, line
    total, subtotal, tax or total, is shown and exported as 0; and
    sanitizing a parsed object (none of whose line items is [null])
    returns an object in which a [null] and an absent key of the payload,
    and of every line item that is an object, are as they were. *)
Theorem absent_numbers_default_to_zero (numToString : float -> string)
    (invoice : InvoiceRecord) (item : LineItem) (index : nat)
    (props : gmap string JsValue) :
  hasNullLineItem props = false ->
  (quantity item = None ->
   quantityInput item = 0%float /\
   lineItemCells numToString invoice item index !! 6 = Some (numToString 0%float)) /\
  (unit_price item = None ->
   unitPriceInput item = 0%float /\
   lineItemCells numToString invoice item index !! 7 = Some (numToString 0%float)) /\
  (line_total item = None ->
   lineTotalInput item = 0%float /\
   lineItemCells numToString invoice item index !! 8 = Some (numToString 0%float)) /\
  (subtotal invoice = None ->
   subtotalInput invoice = 0%float /\
   totalsCells numToString invoice !! 0 = Some (numToString 0%float)) /\
  (tax_amount invoice = None ->
   taxInput invoice = 0%float /\
   totalsCells numToString invoice !! 1 = Some (numToString 0%float)) /\
  (total_amount invoice = None ->
   totalInput invoice = 0%float /\
   totalsCells numToString invoice !! 2 = Some (numToString 0%float)) /\
  exists props' : gmap string JsValue,
    sanitizeData (JObject props) = Some (JObject props') /\
    (forall k : string, props !! k = Some JNull -> props' !! k = Some JNull) /\
    (forall k : string, props !! k = None -> props' !! k = None) /\
    (forall (items : list JsValue) (i : nat) (fields : gmap string JsValue),
       props !! "line_items" = Some (JArray items) ->
       items !! i = Some (JObject fields) ->
       exists (items' : list JsValue) (fields' : gmap string JsValue),
         props' !! "line_items" = Some (JArray items') /\
         items' !! i = Some (JObject fields') /\
         forall k : string, k <> "description" -> fields' !! k = fields !! k).
Proof.
  intros Hnull.
  destruct (sanitizeData_object props Hnull) as (p & Hok & Hval & Hnone & Hitems).
  unfold quantityInput, unitPriceInput, lineTotalInput, subtotalInput, taxInput,
    totalInput, lineItemCells, totalsCells, invoiceCells, numberCell.
  repeat (split; [by intros ->|]).
  exists p. split; [exact Hok|]. split; [|split; [exact Hnone|]].
  - intros k Hk. apply (Hval k JNull Hk). by right.
  - intros items i fields Hli Hitem.
    destruct (Hitems items Hli) as (items' & Hli' & _ & Hlook).
    exists items'. eexists. split; [exact Hli'|]. split; [by apply Hlook|].
    intros k Hk. by rewrite lookup_insert_ne.
Qed.

Lemma absent_numbers_default_to_zero_witness :
  (quantity secondItem = None ->
   quantityInput secondItem = 0%float /\
   lineItemCells zeroOrNumber twoItemInvoice secondItem 1 !! 6 = Some (zeroOrNumber 0%float)) /\
  (unit_price secondItem = None ->
   unitPriceInput secondItem = 0%float /\
   lineItemCells zeroOrNumber twoItemInvoice secondItem 1 !! 7 = Some (zeroOrNumber 0%float)) /\
  (line_total secondItem = None ->
   lineTotalInput secondItem = 0%float /\
   lineItemCells zeroOrNumber twoItemInvoice secondItem 1 !! 8 = Some (zeroOrNumber 0%float)) /\
  (subtotal twoItemInvoice = None ->
   subtotalInput twoItemInvoice = 0%float /\
   totalsCells zeroOrNumber twoItemInvoice !! 0 = Some (zeroOrNumber 0%float)) /\
  (tax_amount twoItemInvoice = None ->
   taxInput twoItemInvoice = 0%float /\
   totalsCells zeroOrNumber twoItemInvoice !! 1 = Some (zeroOrNumber 0%float)) /\
  (total_amount twoItemInvoice = None ->
   totalInput twoItemInvoice = 0%float /\
   totalsCells zeroOrNumber twoItemInvoice !! 2 = Some (zeroOrNumber 0%float)) /\
  exists props' : gmap string JsValue,
    sanitizeData (JObject acmePayload) = Some (JObject props') /\
    (forall k : string, acmePayload !! k = Some JNull -> props' !! k = Some JNull) /\
    (forall k : string, acmePayload !! k = None -> props' !! k = None) /\
    (forall (items : list JsValue) (i : nat) (fields : gmap string JsValue),
       acmePayload !! "line_items" = Some (JArray items) ->
       items !! i = Some (JObject fields) ->
       exists (items' : list JsValue) (fields' : gmap string JsValue),
         props' !! "line_items" = Some (JArray items') /\
         items' !! i = Some (JObject fields') /\
         forall k : string, k <> "description" -> fields' !! k = fields !! k).
Proof.
  apply (absent_numbers_default_to_zero zeroOrNumber twoItemInvoice secondItem 1
           acmePayload).
  vm_compute. reflexivity.
Defined.

(** In the spec's example the [null] tax and the [null] quantity of the
    line item come out of the sanitizing as they went in. *)
Example null_numbers_survive :
  acmeSanitized !! "tax_amount" = Some JNull /\
  acmeSanitized !! "subtotal" = None /\
  acmeSanitized !! "line_items" =
    Some (JArray [JObject {[ "description" := JString "Widget";
                             "quantity" := JNull ]}]).
Proof. repeat split. Qed.

(** ** The batch loop *)

Section OrchestratorFacts.

Variable World : Type.
Variable fetchExtract : File -> World -> FetchOutcome * World.
Variable delay : World -> World.

Let trips := roundTrips World fetchExtract delay.
Let step := processFile World fetchExtract delay.

(** One pass of the loop adds the file's record to the results or its
    name to the failures, never both, and touches nothing else. *)
Lemma processFile_step (total : nat) (b : Batch World) (file : File) (i : nat) :
  results (step total b file i) =
    results b ++ from_option (fun r => [r]) [] (tryBlock file (fetchExtract file (world b)).1) /\
  failedFiles (step total b file i) =
    failedFiles b ++
    from_option (fun _ => []) [name file] (tryBlock file (fetchExtract file (world b)).1) /\
  world (step total b file i) =
    (if decide (i < total - 1) then delay (fetchExtract file (world b)).2
     else (fetchExtract file (world b)).2).
Proof.
  unfold step, processFile.
  destruct (fetchExtract file (world b)) as [outcome w]. cbn [fst snd].
  destruct (tryBlock file outcome), (decide (i < total - 1));
    cbn [results failedFiles world from_option]; by rewrite ?app_nil_r.
Qed.

Lemma roundTrips_cons (total : nat) (file : File) (files : list File) (i : nat)
    (w : World) :
  trips total i (file :: files) w =
  (file, (fetchExtract file w).1) ::
  trips total (S i) files
    (if decide (i < total - 1) then delay (fetchExtract file w).2
     else (fetchExtract file w).2).
Proof.
  unfold trips. cbn [roundTrips]. by destruct (fetchExtract file w).
Qed.

(** The loop, read off the trace of its round trips. *)
Lemma forEachFrom_processFile (total : nat) (files : list File) (i : nat)
    (b : Batch World) :
  let b' := forEachFrom (step total) i files b in
  results b' = results b ++ omap succeeded (trips total i files (world b)) /\
  failedFiles b' = failedFiles b ++ omap failedName (trips total i files (world b)).
Proof.
  revert i b. induction files as [|file files IH]; intros i b.
  - cbn. by rewrite !app_nil_r.
  - cbn [forEachFrom]. destruct (IH (S i) (step total b file i)) as [Hr Hf].
    destruct (processFile_step total b file i) as (Hr1 & Hf1 & Hw1).
    cbn zeta. rewrite Hr, Hf, Hr1, Hf1, Hw1, roundTrips_cons.
    clear Hr Hf Hr1 Hf1 Hw1 IH.
    cbn [omap list_omap]. unfold succeeded at 2, failedName at 2. cbn [fst snd].
    destruct (tryBlock file (fetchExtract file (world b)).1); cbn [from_option];
      by rewrite <- !app_assoc.
Qed.

Lemma roundTrips_files (total : nat) (files : list File) (i : nat) (w : World) :
  (trips total i files w).*1 = files.
Proof.
  revert i w. induction files as [|file files IH]; intros i w; [done|].
  rewrite roundTrips_cons. cbn [fmap list_fmap fst]. by rewrite IH.
Qed.





End OrchestratorFacts.


(** A batch of three documents whose second round trip fails. *)
Example batch_of_three :
  handleSubmit nat (failsOn "b.pdf") id
    [{| name := "a.pdf" |}; {| name := "b.pdf" |}; {| name := "c.pdf" |}] 0 =
  Some {| extractedInvoices :=
            [setFilename "a.pdf" staleInvoice; setFilename "c.pdf" staleInvoice];
          errorMessage := "Failed to process: b.pdf";
          failed := ["b.pdf"];
          finalWorld := 3 |}.
Proof. reflexivity. Qed.

(** * Further properties of the code *)

(** ** The ledger's handlers at and past the bounds *)

Lemma arrayWrite_None {A : Type} (a : list A) (i : nat) (x : A) :
  arrayWrite a i x = None <-> length a < i.
Proof.
  unfold arrayWrite. repeat case_decide; split; (done || lia).
Qed.

Lemma arrayWrite_length {A : Type} (a a' : list A) (i : nat) (x : A) :
  arrayWrite a i x = Some a' ->
  i <= length a /\ length a' = if decide (i = length a) then S (length a) else length a.
Proof.
  unfold arrayWrite.
  destruct (decide (i < length a)) as [Hlt|Hge].
  - intros [= <-]. split; [lia|]. rewrite length_insert. by rewrite decide_False by lia.
  - destruct (decide (i = length a)) as [->|Hne]; [|discriminate].
    intros [= <-]. split; [lia|]. rewrite length_app. cbn [length]. lia.
Qed.

Lemma EditLineItem_index (j j' : nat) (u u' : ItemUpdate) :
  EditLineItem j u = EditLineItem j' u' -> j = j'.
Proof.
  intros H.
  exact (f_equal (fun m => match m with EditLineItem k _ => k | _ => 0 end) H).
Qed.

(** X1: a handler of the ledger throws a [TypeError] exactly when the
    invoice index points past the ledger or, for [updateLineItem] and
    [deleteLineItem], when the invoice has no [line_items] array
    ([addLineItem] and the tax input do not need one); only
    [updateLineItem] with an item index beyond the end of the array
    leaves a sparse array; and a handler that returns never changes the
    number of invoices. *)
Theorem mutate_outcome (ledger : Ledger) (invoiceIndex : nat) (m : Mutation) :
  (mutate invoiceIndex m ledger = TypeError <->
   ledger !! invoiceIndex = None \/
   (needsItems m = true /\
    exists inv, ledger !! invoiceIndex = Some inv /\ line_items inv = None)) /\
  (mutate invoiceIndex m ledger = SparseArray <->
   exists (itemIndex : nat) (u : ItemUpdate) (inv : InvoiceRecord) (items : list LineItem),
     m = EditLineItem itemIndex u /\ ledger !! invoiceIndex = Some inv /\
     line_items inv = Some items /\ length items < itemIndex) /\
  (forall ledger' : Ledger,
     mutate invoiceIndex m ledger = Returns ledger' -> length ledger' = length ledger).
Proof.
  destruct (ledger !! invoiceIndex) as [inv|] eqn:Hinv.
  2:{ assert (Hm : mutate invoiceIndex m ledger = TypeError).
      { destruct m; cbn [mutate];
          unfold updateLineItem, addLineItem, deleteLineItem, onTaxChange;
          by rewrite Hinv. }
      rewrite Hm. split; [|split].
      - split; [by left|done].
      - split; [discriminate|]. intros (? & ? & ? & ? & _ & [=] & _).
      - discriminate. }
  destruct m as [itemIndex u| |itemIndex|parsed]; cbn [mutate needsItems];
    unfold updateLineItem, addLineItem, deleteLineItem, onTaxChange; rewrite Hinv.
  - destruct (line_items inv) as [items|] eqn:Hitems.
    + destruct (arrayWrite items itemIndex _) as [items'|] eqn:Hw.
      * split; [|split].
        -- split; [discriminate|]. intros [[=]|(_ & inv0 & [= <-] & Hn)]. congruence.
        -- split; [discriminate|].
           intros (j & u0 & inv0 & items0 & Hm & [= <-] & Hi & Hlt).
           apply EditLineItem_index in Hm as <-.
           assert (items0 = items) as -> by congruence.
           apply arrayWrite_length in Hw as [Hle _]. lia.
        -- intros ledger' [= <-]. apply length_insert.
      * split; [|split].
        -- split; [discriminate|]. intros [[=]|(_ & inv0 & [= <-] & Hn)]. congruence.
        -- split; [|done]. intros _. exists itemIndex, u, inv, items.
           repeat split; try done. by eapply arrayWrite_None.
        -- discriminate.
    + split; [|split].
      * split; [|done]. intros _. right. split; [done|]. by exists inv.
      * split; [discriminate|].
        intros (? & ? & inv0 & items0 & _ & [= <-] & Hi & _). congruence.
      * discriminate.
  - split; [|split].
    + split; [discriminate|]. intros [[=]|([=] & _)].
    + split; [discriminate|]. intros (? & ? & ? & ? & [=] & _).
    + intros ledger' [= <-]. apply length_insert.
  - destruct (line_items inv) as [items|] eqn:Hitems.
    + split; [|split].
      * split; [discriminate|]. intros [[=]|(_ & inv0 & [= <-] & Hn)]. congruence.
      * split; [discriminate|]. intros (? & ? & ? & ? & [=] & _).
      * intros ledger' [= <-]. apply length_insert.
    + split; [|split].
      * split; [|done]. intros _. right. split; [done|]. by exists inv.
      * split; [discriminate|]. intros (? & ? & ? & ? & [=] & _).
      * discriminate.
  - split; [|split].
    + split; [discriminate|]. intros [[=]|([=] & _)].
    + split; [discriminate|]. intros (? & ? & ? & ? & [=] & _).
    + intros ledger' [= <-]. apply length_insert.
Qed.

(** ** What a mutation of one invoice leaves alone *)

(** X2: a mutation of an invoice (with an item index, where it has one,
    inside the array) leaves every other invoice, and the invoice's text
    fields and file name, as they were; the three line-item handlers
    leave the tax as it was, and the line items become: the same list
    with the one item edited, the list with the placeholder appended, or
    the list without the one item, the others in their order; the tax
    input leaves the line items and the subtotal as they were. *)
Theorem mutation_frame (ledger : Ledger) (invoiceIndex : nat) (m : Mutation)
    (inv : InvoiceRecord) :
  ledger !! invoiceIndex = Some inv ->
  itemIndexValid m inv ->
  exists (ledger' : Ledger) (inv' : InvoiceRecord),
    mutate invoiceIndex m ledger = Returns ledger' /\
    ledger' !! invoiceIndex = Some inv' /\
    (forall j, j <> invoiceIndex -> ledger' !! j = ledger !! j) /\
    (forall f, getText f inv' = getText f inv) /\
    _filename inv' = _filename inv /\
    match m with
    | EditTax _ => line_items inv' = line_items inv /\ subtotal inv' = subtotal inv
    | _ => line_items inv' = Some (itemsAfter m (itemsOf inv)) /\
           tax_amount inv' = tax_amount inv
    end.
Proof.
  intros Hinv Hvalid.
  assert (Hlt : invoiceIndex < length ledger) by (by eapply lookup_lt_Some).
  destruct m as [itemIndex u| |itemIndex|parsed]; cbn [mutate itemsAfter].
  - destruct Hvalid as (items & Hitems & Hj).
    unfold updateLineItem, itemsOf.
    rewrite Hinv, Hitems, (arrayWrite_in_range _ _ _ Hj). cbn [default from_option id].
    eexists _, _. split; [reflexivity|].
    split; [by apply list_lookup_insert_eq|].
    split; [intros j Hne; by apply list_lookup_insert_ne|].
    repeat split.
  - unfold addLineItem. rewrite Hinv.
    eexists _, _. split; [reflexivity|].
    split; [by apply list_lookup_insert_eq|].
    split; [intros j Hne; by apply list_lookup_insert_ne|].
    repeat split.
  - destruct Hvalid as (items & Hitems & Hj).
    unfold deleteLineItem, itemsOf. rewrite Hinv, Hitems, filterIndex_delete.
    cbn [default from_option id].
    eexists _, _. split; [reflexivity|].
    split; [by apply list_lookup_insert_eq|].
    split; [intros j Hne; by apply list_lookup_insert_ne|].
    repeat split.
  - unfold onTaxChange. rewrite Hinv.
    eexists _, _. split; [reflexivity|].
    split; [by apply list_lookup_insert_eq|].
    split; [intros j Hne; by apply list_lookup_insert_ne|].
    repeat split.
Qed.

Lemma mutation_frame_witness :
  exists (ledger' : Ledger) (inv' : InvoiceRecord),
    mutate 0 (DeleteLineItem 0) [staleInvoice] = Returns ledger' /\
    ledger' !! 0 = Some inv' /\
    (forall j, j <> 0 -> ledger' !! j = [staleInvoice] !! j) /\
    (forall f, getText f inv' = getText f staleInvoice) /\
    _filename inv' = _filename staleInvoice /\
    line_items inv' = Some (itemsAfter (DeleteLineItem 0) (itemsOf staleInvoice)) /\
    tax_amount inv' = tax_amount staleInvoice.
Proof.
  apply (mutation_frame [staleInvoice] 0 (DeleteLineItem 0) staleInvoice).
  - reflexivity.
  - exists [staleItem]. split; [reflexivity|]. cbn. lia.
Defined.

(** ** The count of line items *)

Lemma totalLineItems_from (ledger : list InvoiceRecord) (start : nat) :
  fold_left (fun sum inv => sum + itemCount inv) ledger start =
  start + totalLineItems ledger.
Proof.
  unfold totalLineItems. revert start.
  induction ledger as [|inv ledger IH]; intros start; cbn [fold_left]; [lia|].
  rewrite (IH (start + itemCount inv)), (IH (0 + itemCount inv)). lia.
Qed.

Lemma totalLineItems_cons (inv : InvoiceRecord) (ledger : list InvoiceRecord) :
  totalLineItems (inv :: ledger) = itemCount inv + totalLineItems ledger.
Proof.
  unfold totalLineItems at 1. cbn [fold_left]. by rewrite totalLineItems_from.
Qed.

(** Replacing one invoice moves the total by the difference of the two
    counts. *)
Lemma totalLineItems_insert (ledger : list InvoiceRecord) (i : nat)
    (inv inv' : InvoiceRecord) :
  ledger !! i = Some inv ->
  totalLineItems (<[i := inv']> ledger) + itemCount inv =
  totalLineItems ledger + itemCount inv'.
Proof.
  revert i. induction ledger as [|x ledger IH]; intros i Hi; [done|].
  destruct i as [|i]; cbn in Hi.
  - injection Hi as ->.
    change (<[0 := inv']> (inv :: ledger)) with (inv' :: ledger).
    rewrite !totalLineItems_cons. lia.
  - change (<[S i := inv']> (x :: ledger)) with (x :: <[i := inv']> ledger).
    rewrite !totalLineItems_cons. specialize (IH i Hi). lia.
Qed.

(** X3: the "Total Line Items" of the summary goes up by exactly one
    with [addLineItem], down by exactly one with [deleteLineItem] at an
    existing item, and stays with [updateLineItem] at an existing item
    and with a tax edit. *)
Theorem totalLineItems_after (ledger : Ledger) (invoiceIndex : nat) (m : Mutation)
    (inv : InvoiceRecord) :
  ledger !! invoiceIndex = Some inv ->
  itemIndexValid m inv ->
  exists ledger' : Ledger,
    mutate invoiceIndex m ledger = Returns ledger' /\
    match m with
    | AddLineItem => totalLineItems ledger' = S (totalLineItems ledger)
    | DeleteLineItem _ => S (totalLineItems ledger') = totalLineItems ledger
    | EditLineItem _ _ | EditTax _ => totalLineItems ledger' = totalLineItems ledger
    end.
Proof.
  intros Hinv Hvalid.
  destruct m as [itemIndex u| |itemIndex|parsed]; cbn [mutate].
  - destruct Hvalid as (items & Hitems & Hj).
    unfold updateLineItem. rewrite Hinv, Hitems, (arrayWrite_in_range _ _ _ Hj).
    eexists. split; [reflexivity|].
    pose proof (totalLineItems_insert ledger invoiceIndex inv
                  (recalculateTotals (<[itemIndex := autoCalculate u
                     (assignItemField u (default emptyItem (items !! itemIndex)))]> items)
                     inv) Hinv) as H.
    unfold itemCount in H. cbn [line_items recalculateTotals setAmount setLineItems] in H.
    rewrite Hitems, length_insert in H. lia.
  - unfold addLineItem. rewrite Hinv. eexists. split; [reflexivity|].
    pose proof (totalLineItems_insert ledger invoiceIndex inv
                  (recalculateTotals (default [] (line_items inv) ++ [newItem]) inv) Hinv)
      as H.
    unfold itemCount in H. cbn [line_items recalculateTotals setAmount setLineItems] in H.
    rewrite length_app in H. cbn [length] in H.
    destruct (line_items inv); cbn [default from_option id length] in *; lia.
  - destruct Hvalid as (items & Hitems & Hj).
    unfold deleteLineItem. rewrite Hinv, Hitems, filterIndex_delete.
    eexists. split; [reflexivity|].
    pose proof (totalLineItems_insert ledger invoiceIndex inv
                  (recalculateTotals (delete itemIndex items) inv) Hinv) as H.
    unfold itemCount in H. cbn [line_items recalculateTotals setAmount setLineItems] in H.
    rewrite Hitems, length_delete in H by (by apply lookup_lt_is_Some_2). lia.
  - unfold onTaxChange. rewrite Hinv. eexists. split; [reflexivity|].
    pose proof (totalLineItems_insert ledger invoiceIndex inv
                  (setAmount Ftotal_amount
                     (Some (orZero (subtotal (setAmount Ftax_amount
                                                (Some (numberOrZero parsed)) inv)) +
                            numberOrZero parsed)%float)
                     (setAmount Ftax_amount (Some (numberOrZero parsed)) inv)) Hinv) as H.
    unfold itemCount in H. cbn [line_items setAmount] in H. lia.
Qed.

Lemma totalLineItems_after_witness :
  exists ledger' : Ledger,
    mutate 0 AddLineItem [staleInvoice; emptyInvoice] = Returns ledger' /\
    totalLineItems ledger' = S (totalLineItems [staleInvoice; emptyInvoice]).
Proof.
  apply (totalLineItems_after [staleInvoice; emptyInvoice] 0 AddLineItem staleInvoice).
  - reflexivity.
  - exact I.
Defined.

(** ** Adding an item and deleting it again *)

Lemma recalculateTotals_twice (items items' : list LineItem) (inv : InvoiceRecord) :
  recalculateTotals items' (recalculateTotals items inv) = recalculateTotals items' inv.
Proof. reflexivity. Qed.

(** X4: [addLineItem] followed by [deleteLineItem] of the item just added
    gives back the line items the invoice had (an empty array where it
    had none) with the totals recomputed from them; when the invoice had
    its array and its totals agreed with it, the ledger is back exactly
    as it was. *)
Theorem add_then_delete (ledger : Ledger) (invoiceIndex : nat) (inv : InvoiceRecord) :
  ledger !! invoiceIndex = Some inv ->
  exists added : Ledger,
    addLineItem invoiceIndex ledger = Returns added /\
    deleteLineItem invoiceIndex (length (itemsOf inv)) added =
      Returns (<[invoiceIndex := recalculateTotals (itemsOf inv) inv]> ledger) /\
    (forall items : list LineItem,
       line_items inv = Some items ->
       subtotalIsSum inv -> totalIsSubtotalPlusTax inv ->
       deleteLineItem invoiceIndex (length (itemsOf inv)) added = Returns ledger).
Proof.
  intros Hinv.
  assert (Hlt : invoiceIndex < length ledger) by (by eapply lookup_lt_Some).
  unfold addLineItem. rewrite Hinv. eexists. split; [reflexivity|].
  assert (Hdel : deleteLineItem invoiceIndex (length (itemsOf inv))
                   (<[invoiceIndex := recalculateTotals (default [] (line_items inv) ++ [newItem]) inv]> ledger)
                 = Returns (<[invoiceIndex := recalculateTotals (itemsOf inv) inv]> ledger)).
  { unfold deleteLineItem. rewrite list_lookup_insert_eq by done.
    cbn [line_items recalculateTotals setAmount setLineItems].
    rewrite filterIndex_delete. fold (itemsOf inv).
    rewrite (delete_middle (itemsOf inv) [] newItem), app_nil_r.
    by rewrite list_insert_insert_eq. }
  split; [exact Hdel|].
  intros items Hitems Hsum (st & Hst & Htot). rewrite Hdel.
  unfold subtotalIsSum in Hsum. unfold itemsOf in *. rewrite Hitems in *.
  cbn [default from_option id] in *.
  assert (Est : st = sumLineTotals items).
  { rewrite Hsum in Hst. exact (f_equal (default st) (eq_sym Hst)). }
  subst st. rewrite (recalculateTotals_id inv items Hitems Hsum Htot).
  f_equal. by apply list_insert_id.
Qed.

Lemma add_then_delete_witness :
  exists added : Ledger,
    addLineItem 0 [settledInvoice] = Returns added /\
    deleteLineItem 0 (length (itemsOf settledInvoice)) added =
      Returns (<[0 := recalculateTotals (itemsOf settledInvoice) settledInvoice]>
                 [settledInvoice]) /\
    (forall items : list LineItem,
       line_items settledInvoice = Some items ->
       subtotalIsSum settledInvoice -> totalIsSubtotalPlusTax settledInvoice ->
       deleteLineItem 0 (length (itemsOf settledInvoice)) added = Returns [settledInvoice]).
Proof.
  apply (add_then_delete [settledInvoice] 0 settledInvoice). reflexivity.
Defined.

(** ** [updateInvoice] at and past the end of the ledger *)

(** X5: [updateInvoice] never throws; with an index inside the ledger it
    replaces that record, with the index just past the end it appends a
    record that has only the written field, and only an index further
    out leaves a sparse array. *)
Theorem updateInvoice_bounds (ledger : Ledger) (index : nat) (u : InvoiceUpdate) :
  updateInvoice index u ledger <> TypeError /\
  (updateInvoice index u ledger = SparseArray <-> length ledger < index) /\
  (index < length ledger ->
   updateInvoice index u ledger =
   Returns (<[index := assignInvoiceField u (default emptyInvoice (ledger !! index))]>
              ledger)) /\
  (index = length ledger ->
   updateInvoice index u ledger = Returns (ledger ++ [assignInvoiceField u emptyInvoice])).
Proof.
  unfold updateInvoice, arrayWrite.
  destruct (decide (index < length ledger)) as [Hlt|Hge].
  - split; [discriminate|]. split; [split; [discriminate|lia]|].
    split; [done|lia].
  - destruct (decide (index = length ledger)) as [->|Hne].
    + split; [discriminate|]. split; [split; [discriminate|lia]|].
      split; [lia|]. intros _. by rewrite lookup_ge_None_2.
    + split; [discriminate|]. split; [split; [lia|done]|]. split; lia.
Qed.

(** ** How long a subtotal stays the sum of the line totals *)

(** X6: in a ledger where every invoice's subtotal is the sum of its
    line totals, it stays so after every handler that returns: the three
    line-item handlers, the tax input, and [updateInvoice] on an
    existing invoice with any field other than [subtotal] itself. *)
Theorem subtotal_stays_sum (ledger : Ledger) :
  Forall subtotalIsSum ledger ->
  (forall (invoiceIndex : nat) (m : Mutation) (ledger' : Ledger),
     mutate invoiceIndex m ledger = Returns ledger' ->
     Forall subtotalIsSum ledger') /\
  (forall (index : nat) (u : InvoiceUpdate) (ledger' : Ledger),
     index < length ledger ->
     (forall v, u <> AmountUpdate Fsubtotal v) ->
     updateInvoice index u ledger = Returns ledger' ->
     Forall subtotalIsSum ledger').
Proof.
  intros Hall. split.
  - intros invoiceIndex m ledger'.
    destruct m as [itemIndex u| |itemIndex|parsed]; cbn [mutate];
      unfold updateLineItem, addLineItem, deleteLineItem, onTaxChange;
      destruct (ledger !! invoiceIndex) as [inv|] eqn:Hinv; try discriminate.
    + destruct (line_items inv) as [items|]; [|discriminate].
      destruct (arrayWrite items itemIndex _) as [items'|]; [|discriminate].
      intros [= <-]. apply Forall_insert; [done|]. apply recalculateTotals_invariant.
    + intros [= <-]. apply Forall_insert; [done|]. apply recalculateTotals_invariant.
    + destruct (line_items inv) as [items|]; [|discriminate].
      intros [= <-]. apply Forall_insert; [done|]. apply recalculateTotals_invariant.
    + intros [= <-]. apply Forall_insert; [done|].
      assert (Hs : subtotalIsSum inv) by (by eapply Forall_lookup_1).
      exact Hs.
  - intros index u ledger' Hlt Hu.
    unfold updateInvoice. rewrite (arrayWrite_in_range _ _ _ Hlt).
    destruct (lookup_lt_is_Some_2 ledger index Hlt) as [inv Hinv]. rewrite Hinv.
    cbn [default from_option id]. intros [= <-]. apply Forall_insert; [done|].
    assert (Hs : subtotalIsSum inv) by (by eapply Forall_lookup_1).
    destruct u as [f v|f v]; cbn [assignInvoiceField]; [exact Hs|].
    destruct f; [by destruct (Hu v)|exact Hs|exact Hs].
Qed.

Lemma subtotal_stays_sum_witness :
  (forall (invoiceIndex : nat) (m : Mutation) (ledger' : Ledger),
     mutate invoiceIndex m [settledInvoice] = Returns ledger' ->
     Forall subtotalIsSum ledger') /\
  (forall (index : nat) (u : InvoiceUpdate) (ledger' : Ledger),
     index < length [settledInvoice] ->
     (forall v, u <> AmountUpdate Fsubtotal v) ->
     updateInvoice index u [settledInvoice] = Returns ledger' ->
     Forall subtotalIsSum ledger').
Proof.
  apply (subtotal_stays_sum [settledInvoice]).
  constructor; [reflexivity|constructor].
Defined.

(** ** The shape of the exported table *)

Lemma invoiceRows_length (numToString : float -> string) (invoice : InvoiceRecord) :
  length (invoiceRows numToString invoice) =
  if decide (itemCount invoice = 0) then 1 else itemCount invoice.
Proof.
  unfold invoiceRows, itemsOf, itemCount.
  destruct (line_items invoice) as [[|first rest]|]; cbn [default from_option id];
    [reflexivity| |reflexivity].
  by rewrite length_imap.
Qed.

Lemma invoiceRows_cells (numToString : float -> string) (invoice : InvoiceRecord)
    (row : string) :
  row ∈ invoiceRows numToString invoice ->
  exists cells : list string, length cells = 12 /\ row = csvRow cells.
Proof.
  unfold invoiceRows. destruct (itemsOf invoice) as [|first rest].
  - intros ->%list_elem_of_singleton.
    by exists (noLineItemsCells numToString invoice).
  - intros (index & Hrow)%list_elem_of_lookup.
    rewrite list_lookup_imap in Hrow.
    destruct ((first :: rest) !! index) as [item|]; [|discriminate].
    injection Hrow as <-. exists (lineItemCells numToString invoice item index).
    split; [|reflexivity].
    unfold lineItemCells. by destruct (decide (index = 0)).
Qed.

(** Which rows an invoice contributes. *)
Lemma invoiceRows_row (numToString : float -> string) (invoice : InvoiceRecord)
    (row : string) :
  row ∈ invoiceRows numToString invoice ->
  row = csvRow (noLineItemsCells numToString invoice) \/
  exists (index : nat) (item : LineItem),
    itemsOf invoice !! index = Some item /\
    row = csvRow (lineItemCells numToString invoice item index).
Proof.
  unfold invoiceRows. destruct (itemsOf invoice) as [|first rest].
  - intros ->%list_elem_of_singleton. by left.
  - intros (index & Hrow)%list_elem_of_lookup. right.
    rewrite list_lookup_imap in Hrow.
    destruct ((first :: rest) !! index) as [item|] eqn:Hitem; [|discriminate].
    injection Hrow as <-. by exists index, item.
Qed.

(** *** Counting commas and line feeds *)

Lemma countChar_app (c : ascii) (a b : string) :
  countChar c (a +:+ b) = countChar c a + countChar c b.
Proof.
  induction a as [|d a IH]; [reflexivity|].
  rewrite app_cons_s. cbn [countChar]. rewrite IH. lia.
Qed.

Lemma countChar_absent (c : ascii) (s : string) :
  occurs c s = false -> countChar c s = 0.
Proof.
  induction s as [|d s IH]; [reflexivity|]. cbn [occurs countChar].
  intros [-> Hs]%orb_false_iff. by rewrite IH.
Qed.

Lemma countChar_join (c : ascii) (sep : string) (cells : list string) :
  Forall (fun cell => countChar c cell = 0) cells ->
  countChar c (join sep cells) = (length cells - 1) * countChar c sep.
Proof.
  induction 1 as [|cell cells Hcell Hcells IH]; [reflexivity|].
  destruct cells as [|next cells].
  - cbn [join length]. rewrite Hcell. lia.
  - change (join sep (cell :: next :: cells))
      with (cell +:+ sep +:+ join sep (next :: cells)).
    rewrite !countChar_app, IH, Hcell. cbn [length]. lia.
Qed.

Lemma countChar_csvRow (c : ascii) (cells : list string) :
  Forall (fun cell => countChar c cell = 0) cells ->
  countChar c (csvRow cells) =
  (length cells - 1) * countChar c "," + countChar c newline.
Proof.
  intros Hcells. unfold csvRow. by rewrite countChar_app, countChar_join.
Qed.

Lemma countChar_concatRows (c : ascii) (n : nat) (rows : list string) :
  (forall row : string, row ∈ rows -> countChar c row = n) ->
  countChar c (concatRows rows) = n * length rows.
Proof.
  induction rows as [|row rows IH]; intros Hrows; [cbn; lia|].
  change (concatRows (row :: rows)) with (row +:+ concatRows rows).
  rewrite countChar_app, (Hrows row), IH; [cbn [length]; lia| |by left].
  intros other Hother. apply Hrows. by right.
Qed.

Lemma countChar_quoted (c : ascii) (s : option string) :
  countChar c dq = 0 -> countChar c (default "" s) = 0 ->
  countChar c (quoted s) = 0.
Proof. intros Hdq Hs. unfold quoted. rewrite !countChar_app, Hdq, Hs. lia. Qed.

(** A character that occurs neither in the texts the export reads from
    the invoice, nor in a converted number, nor is the double quote,
    occurs in no cell of the invoice's rows. *)
Lemma cells_without (c : ascii) (numToString : float -> string)
    (invoice : InvoiceRecord) :
  countChar c dq = 0 ->
  countChar c "No line items" = 0 ->
  (forall x : float, countChar c (numToString x) = 0) ->
  Forall (fun s => countChar c (default "" s) = 0)
    [vendor_name invoice; invoice_number invoice; invoice_date invoice;
     due_date invoice; purchase_order_number invoice] ->
  Forall (fun cell => countChar c cell = 0) (noLineItemsCells numToString invoice) /\
  forall (item : LineItem) (index : nat),
    countChar c (default "" (description item)) = 0 ->
    Forall (fun cell => countChar c cell = 0)
      (lineItemCells numToString invoice item index).
Proof.
  intros Hdq Hnone Hnumber Htexts.
  apply Forall_cons in Htexts as [H1 Htexts].
  apply Forall_cons in Htexts as [H2 Htexts].
  apply Forall_cons in Htexts as [H3 Htexts].
  apply Forall_cons in Htexts as [H4 Htexts].
  apply Forall_cons in Htexts as [H5 _].
  split.
  - rewrite noLineItemsCells_explicit.
    repeat (apply Forall_cons; split);
      try (by apply countChar_quoted); try apply Hnumber; try reflexivity;
      [|constructor].
    rewrite !countChar_app, Hdq, Hnone. lia.
  - intros item index Hdescription. rewrite lineItemCells_explicit.
    apply Forall_app. split.
    + repeat (apply Forall_cons; split);
        try (by apply countChar_quoted); try apply Hnumber. constructor.
    + destruct (decide (index = 0));
        repeat (apply Forall_cons; split); try apply Hnumber; try reflexivity;
        constructor.
Qed.

Lemma plainText_count (s : option string) :
  plainText s = true ->
  countChar "," (default "" s) = 0 /\ countChar "010" (default "" s) = 0.
Proof.
  unfold plainText. intros [Hcomma Hfeed]%andb_true_iff.
  apply negb_true_iff in Hcomma, Hfeed. split; by apply countChar_absent.
Qed.

(** The rows of a plain invoice hold eleven commas and one line feed. *)
Lemma plainInvoice_rows (numToString : float -> string) (invoice : InvoiceRecord)
    (row : string) :
  (forall x : float,
     occurs "," (numToString x) = false /\ occurs "010" (numToString x) = false) ->
  plainInvoice invoice = true ->
  row ∈ invoiceRows numToString invoice ->
  countChar "," row = 11 /\ countChar "010" row = 1.
Proof.
  intros Hnumber Hplain Hrow. unfold plainInvoice in Hplain.
  apply andb_true_iff in Hplain as [Hplain Hitems].
  apply andb_true_iff in Hplain as [Hplain H5].
  apply andb_true_iff in Hplain as [Hplain H4].
  apply andb_true_iff in Hplain as [Hplain H3].
  apply andb_true_iff in Hplain as [H1 H2].
  apply plainText_count in H1 as [C1 F1], H2 as [C2 F2], H3 as [C3 F3],
    H4 as [C4 F4], H5 as [C5 F5].
  destruct (cells_without "," numToString invoice) as [Cnone Citem];
    [reflexivity|reflexivity| |by repeat constructor|].
  { intros x. apply countChar_absent, Hnumber. }
  destruct (cells_without "010" numToString invoice) as [Fnone Fitem];
    [reflexivity|reflexivity| |by repeat constructor|].
  { intros x. apply countChar_absent, Hnumber. }
  assert (Hlen : length (noLineItemsCells numToString invoice) = 12) by reflexivity.
  destruct (invoiceRows_row numToString invoice row Hrow)
    as [->|(index & item & Hitem & ->)].
  - rewrite !countChar_csvRow, Hlen by done. split; reflexivity.
  - assert (Hdescription : plainText (description item) = true).
    { rewrite forallb_forall in Hitems. apply Hitems.
      apply list_elem_of_In, list_elem_of_lookup. by exists index. }
    apply plainText_count in Hdescription as [Cd Fd].
    assert (Hlen' : length (lineItemCells numToString invoice item index) = 12).
    { unfold lineItemCells. by destruct (decide (index = 0)). }
    rewrite !countChar_csvRow, Hlen' by auto. split; reflexivity.
Qed.

(** X7: the export of a ledger that is not empty is the header followed
    by the rows of the invoices in order, each the comma-join of twelve
    cells and a line feed, and the number of these rows is the "Total
    Line Items" of the summary plus one for every invoice that has no
    line item.  When no text the export reads holds a comma or a line
    feed, and the platform writes no number with one, every row holds
    exactly eleven commas and one line feed, its last character: the
    exported text then has one line for the header and one for each row,
    and twelve cells on every line. *)
Theorem exportToCSV_shape (numToString : float -> string) (ledger : Ledger) :
  ledger <> [] ->
  exists rows : list string,
    rows = flat_map (invoiceRows numToString) ledger /\
    exportToCSV numToString ledger = Some (header +:+ concatRows rows) /\
    length rows =
      totalLineItems ledger +
      length (filter (fun inv => itemCount inv = 0) ledger) /\
    (forall row : string, row ∈ rows ->
       exists cells : list string, length cells = 12 /\ row = csvRow cells) /\
    ((forall x : float,
        occurs "," (numToString x) = false /\ occurs "010" (numToString x) = false) ->
     forallb plainInvoice ledger = true ->
     (forall row : string, row ∈ rows ->
        countChar "," row = 11 /\ countChar "010" row = 1) /\
     countChar "010" (header +:+ concatRows rows) = S (length rows) /\
     countChar "," (header +:+ concatRows rows) = 11 * S (length rows)).
Proof.
  intros Hne. exists (flat_map (invoiceRows numToString) ledger).
  split; [reflexivity|]. split; [|split; [|split]].
  - unfold exportToCSV. destruct (decide (length ledger = 0)) as [Hz|_].
    + destruct ledger; [done|discriminate Hz].
    + unfold forEach. by rewrite forEach_exportInvoice.
  - clear Hne. induction ledger as [|inv ledger IH]; [reflexivity|].
    cbn [flat_map]. rewrite length_app, IH, invoiceRows_length, totalLineItems_cons.
    rewrite filter_cons. destruct (decide (itemCount inv = 0)) as [Hz|Hnz].
    + cbn [length]. lia.
    + lia.
  - intros row Hrow. apply list_elem_of_In, in_flat_map in Hrow as (inv & _ & Hrow).
    apply list_elem_of_In in Hrow. by eapply invoiceRows_cells.
  - intros Hnumber Hplain.
    assert (Hrows : forall row : string,
              row ∈ flat_map (invoiceRows numToString) ledger ->
              countChar "," row = 11 /\ countChar "010" row = 1).
    { intros row Hrow.
      apply list_elem_of_In, in_flat_map in Hrow as (inv & Hinv & Hrow).
      apply list_elem_of_In in Hrow.
      apply (plainInvoice_rows numToString inv row Hnumber); [|done].
      rewrite forallb_forall in Hplain. by apply Hplain. }
    split; [exact Hrows|].
    rewrite !countChar_app.
    rewrite (countChar_concatRows "010" 1), (countChar_concatRows "," 11);
      [|intros row Hrow; by apply Hrows|intros row Hrow; by apply Hrows].
    split; [|change (countChar "," header) with 11; lia].
    change (countChar "010" header) with 1. lia.
Qed.

Lemma exportToCSV_shape_witness :
  exists rows : list string,
    rows = flat_map (invoiceRows zeroOrNumber) [staleInvoice; emptyInvoice] /\
    exportToCSV zeroOrNumber [staleInvoice; emptyInvoice] =
      Some (header +:+ concatRows rows) /\
    length rows = 2 /\
    (forall row : string, row ∈ rows ->
       countChar "," row = 11 /\ countChar "010" row = 1) /\
    countChar "010" (header +:+ concatRows rows) = 3 /\
    countChar "," (header +:+ concatRows rows) = 33.
Proof.
  destruct (exportToCSV_shape zeroOrNumber [staleInvoice; emptyInvoice])
    as (rows & Hrows & Hexport & Hlen & _ & Hlines); [discriminate|].
  destruct Hlines as (Hrow & Hfeeds & Hcommas).
  - intros x. unfold zeroOrNumber. by destruct (PrimFloat.eqb x 0).
  - reflexivity.
  - exists rows. split; [exact Hrows|]. split; [exact Hexport|].
    split; [exact Hlen|]. split; [exact Hrow|].
    rewrite Hfeeds, Hcommas, Hlen. split; reflexivity.
Defined.

(** ** Choosing files *)

Lemma checkEach_None (fileList : list Upload) :
  checkEach fileList = None <-> Forall acceptable fileList.
Proof.
  induction fileList as [|f rest IH]; [by split; [constructor|]|].
  cbn [checkEach]. rewrite Forall_cons. unfold acceptable at 1.
  destruct (bool_decide (type f = "application/pdf")) eqn:Et; cbn [negb].
  - apply bool_decide_eq_true in Et.
    destruct (bool_decide (maxSize < size f)%Z) eqn:Es.
    + apply bool_decide_eq_true in Es. split; [discriminate|]. intros [[_ Hs] _]. lia.
    + apply bool_decide_eq_false in Es. rewrite IH. split; [|tauto].
      intros Hrest. split; [|done]. split; [done|lia].
  - apply bool_decide_eq_false in Et. split; [discriminate|]. intros [[Ht _] _]. done.
Qed.

Lemma validateFiles_None (fileList : list Upload) :
  validateFiles fileList = None <->
  1 <= length fileList <= 50 /\ Forall acceptable fileList.
Proof.
  unfold validateFiles.
  destruct (bool_decide (50 < length fileList)) eqn:E50.
  { apply bool_decide_eq_true in E50. split; [discriminate|]. lia. }
  apply bool_decide_eq_false in E50.
  destruct (bool_decide (length fileList = 0)) eqn:E0.
  { apply bool_decide_eq_true in E0. split; [discriminate|]. lia. }
  apply bool_decide_eq_false in E0.
  rewrite checkEach_None. split; [|tauto]. intros H. split; [lia|done].
Qed.

(** X8: [validateFiles] reports no error exactly for a selection of 1 to
    50 files each of which declares the type [application/pdf] and a size
    of at most 10 MiB. *)
Theorem validateFiles_accepts (fileList : list Upload) :
  validateFiles fileList = None <->
  1 <= length fileList <= 50 /\ Forall acceptable fileList.
Proof. apply validateFiles_None. Qed.

Lemma checkEach_Some (fileList : list Upload) (message : string) :
  checkEach fileList = Some message ->
  exists (before : list Upload) (f : Upload) (after : list Upload),
    fileList = before ++ f :: after /\ Forall acceptable before /\
    ((type f <> "application/pdf" /\ message = notPdfMessage f) \/
     (type f = "application/pdf" /\ (maxSize < size f)%Z /\ message = tooLargeMessage f)).
Proof.
  induction fileList as [|f rest IH]; [discriminate|]. cbn [checkEach].
  destruct (bool_decide (type f = "application/pdf")) eqn:Et; cbn [negb].
  - apply bool_decide_eq_true in Et.
    destruct (bool_decide (maxSize < size f)%Z) eqn:Es.
    + apply bool_decide_eq_true in Es. intros [= <-].
      exists [], f, rest. split; [done|]. split; [constructor|]. by right.
    + apply bool_decide_eq_false in Es. intros H.
      destruct (IH H) as (before & g & after & -> & Hbefore & Hg).
      exists (f :: before), g, after. split; [done|]. split; [|done].
      constructor; [|done]. split; [done|lia].
  - apply bool_decide_eq_false in Et. intros [= <-].
    exists [], f, rest. split; [done|]. split; [constructor|]. by left.
Qed.

Lemma validateFiles_Some (fileList : list Upload) (message : string) :
  validateFiles fileList = Some message ->
  (50 < length fileList /\ message = "Maximum 50 invoices at a time") \/
  (fileList = [] /\ message = "Please select at least one file") \/
  (1 <= length fileList <= 50 /\
   exists (before : list Upload) (f : Upload) (after : list Upload),
     fileList = before ++ f :: after /\ Forall acceptable before /\
     ((type f <> "application/pdf" /\ message = notPdfMessage f) \/
      (type f = "application/pdf" /\ (maxSize < size f)%Z /\
       message = tooLargeMessage f))).
Proof.
  unfold validateFiles.
  destruct (bool_decide (50 < length fileList)) eqn:E50.
  { apply bool_decide_eq_true in E50. intros [= <-]. by left. }
  apply bool_decide_eq_false in E50.
  destruct (bool_decide (length fileList = 0)) eqn:E0.
  { apply bool_decide_eq_true in E0. intros [= <-]. right. left.
    by destruct fileList. }
  apply bool_decide_eq_false in E0.
  intros H. right. right. split; [lia|]. by apply checkEach_Some.
Qed.

(** X9: when [validateFiles] reports an error, it is the error of the
    first check that fails: the count of more than 50 before anything
    about a file, and otherwise the first file, in the order of the
    selection, that is not a PDF or is too large, with its own name in
    the message and the type checked before the size. *)
Theorem validateFiles_reports (fileList : list Upload) (message : string) :
  validateFiles fileList = Some message ->
  (50 < length fileList /\ message = "Maximum 50 invoices at a time") \/
  (fileList = [] /\ message = "Please select at least one file") \/
  (1 <= length fileList <= 50 /\
   exists (before : list Upload) (f : Upload) (after : list Upload),
     fileList = before ++ f :: after /\ Forall acceptable before /\
     ((type f <> "application/pdf" /\ message = notPdfMessage f) \/
      (type f = "application/pdf" /\ (maxSize < size f)%Z /\
       message = tooLargeMessage f))).
Proof. apply validateFiles_Some. Qed.

Lemma validateFiles_reports_witness :
  (50 < length [{| file := {| name := "notes.txt" |}; type := "text/plain"; size := 12 |}] /\
   notPdfMessage {| file := {| name := "notes.txt" |}; type := "text/plain"; size := 12 |}
   = "Maximum 50 invoices at a time") \/
  ([{| file := {| name := "notes.txt" |}; type := "text/plain"; size := 12 |}] = [] /\
   notPdfMessage {| file := {| name := "notes.txt" |}; type := "text/plain"; size := 12 |}
   = "Please select at least one file") \/
  (1 <= length [{| file := {| name := "notes.txt" |}; type := "text/plain"; size := 12 |}] <= 50 /\
   exists (before : list Upload) (f : Upload) (after : list Upload),
     [{| file := {| name := "notes.txt" |}; type := "text/plain"; size := 12 |}] =
       before ++ f :: after /\ Forall acceptable before /\
     ((type f <> "application/pdf" /\
       notPdfMessage {| file := {| name := "notes.txt" |}; type := "text/plain"; size := 12 |}
       = notPdfMessage f) \/
      (type f = "application/pdf" /\ (maxSize < size f)%Z /\
       notPdfMessage {| file := {| name := "notes.txt" |}; type := "text/plain"; size := 12 |}
       = tooLargeMessage f))).
Proof.
  apply (validateFiles_reports
           [{| file := {| name := "notes.txt" |}; type := "text/plain"; size := 12 |}]).
  reflexivity.
Defined.

Lemma choose_validated (chosen : list Upload) (st : Picker.State) :
  validated st -> validated (Picker.choose chosen st).
Proof.
  intros Hst. unfold Picker.choose.
  destruct (bool_decide (0 < length chosen)); [|done].
  destruct (validateFiles chosen) eqn:E; [exact Hst|]. by right.
Qed.

Lemma step_validated (st : Picker.State) (e : Picker.Event) :
  validated st -> validated (Picker.step st e).
Proof.
  intros Hst. destruct e as [eventType|dropped|selected| |message]; cbn [Picker.step].
  - unfold Picker.handleDrag.
    destruct (_ || _); [exact Hst|]. by destruct (bool_decide _).
  - by apply choose_validated.
  - by apply choose_validated.
  - by left.
  - exact Hst.
Qed.

(** X10: whatever is dragged, dropped, chosen, submitted or reset, in
    any order from a fresh page, the selection the page holds is empty or
    passed [validateFiles]; so whenever the submit button is shown, the
    batch [handleSubmit] will read has 1 to 50 files, each a PDF of at
    most 10 MiB. *)
Theorem selection_is_validated (events : list Picker.Event) :
  validated (foldl Picker.step Picker.initial events) /\
  (Picker.canSubmit (foldl Picker.step Picker.initial events) = true ->
   1 <= length (Picker.files (foldl Picker.step Picker.initial events)) <= 50 /\
   Forall acceptable (Picker.files (foldl Picker.step Picker.initial events))).
Proof.
  assert (Hinv : validated (foldl Picker.step Picker.initial events)).
  { assert (Hfrom : forall st, validated st -> validated (foldl Picker.step st events)).
    { induction events as [|e events IH]; intros st Hst; [done|].
      cbn [foldl]. apply IH. by apply step_validated. }
    apply Hfrom. by left. }
  split; [exact Hinv|].
  unfold Picker.canSubmit. intros [Hn _]%andb_true_iff.
  apply bool_decide_eq_true in Hn.
  destruct Hinv as [Hnil|Hok].
  - rewrite Hnil in Hn. cbn in Hn. lia.
  - by apply validateFiles_None.
Qed.

Lemma validateFiles_message_not_empty (fileList : list Upload) (message : string) :
  validateFiles fileList = Some message -> message <> "".
Proof.
  intros [(_ & ->)|[(_ & ->)|(_ & before & f & after & _ & _ & [(_ & ->)|(_ & _ & ->)])]]%validateFiles_Some;
    discriminate.
Qed.

(** X11: a drop or a choice that fails validation keeps the files chosen
    before, shows the error and hides the submit button; a drop or a
    choice of no file at all only clears the error, so that the message
    of [validateFiles] for an empty selection is never shown. *)
Theorem rejected_choice (chosen : list Upload) (st : Picker.State) :
  (forall message : string,
     chosen <> [] -> validateFiles chosen = Some message ->
     Picker.files (Picker.handleDrop chosen st) = Picker.files st /\
     Picker.error (Picker.handleDrop chosen st) = message /\
     Picker.canSubmit (Picker.handleDrop chosen st) = false /\
     Picker.files (Picker.handleChange chosen st) = Picker.files st /\
     Picker.error (Picker.handleChange chosen st) = message /\
     Picker.canSubmit (Picker.handleChange chosen st) = false) /\
  (chosen = [] ->
   Picker.files (Picker.handleDrop chosen st) = Picker.files st /\
   Picker.error (Picker.handleDrop chosen st) = "" /\
   Picker.files (Picker.handleChange chosen st) = Picker.files st /\
   Picker.error (Picker.handleChange chosen st) = "") /\
  Picker.error (Picker.handleDrop chosen st) <> "Please select at least one file" /\
  Picker.error (Picker.handleChange chosen st) <> "Please select at least one file".
Proof.
  assert (Hcases : chosen = [] \/
            (chosen <> [] /\ bool_decide (0 < length chosen) = true)).
  { destruct chosen; [by left|right]. split; [done|].
    apply bool_decide_eq_true. cbn. lia. }
  split; [|split].
  - intros message Hne Hv.
    destruct Hcases as [->|[_ Hpos]]; [done|].
    pose proof (validateFiles_message_not_empty _ _ Hv) as Hmsg.
    unfold Picker.handleDrop, Picker.handleChange, Picker.choose, Picker.canSubmit.
    rewrite Hpos, Hv. cbn [Picker.files Picker.error].
    repeat split; try done.
    + apply andb_false_iff. right. by apply bool_decide_eq_false.
    + apply andb_false_iff. right. by apply bool_decide_eq_false.
  - by intros ->.
  - unfold Picker.handleDrop, Picker.handleChange, Picker.choose.
    destruct Hcases as [->|[Hne Hpos]]; [by split|].
    rewrite Hpos. destruct (validateFiles chosen) as [message|] eqn:Hv; [|by split].
    cbn [Picker.error].
    assert (message <> "Please select at least one file"); [|by split].
    apply validateFiles_Some in Hv
      as [(_ & ->)|[(Hnil & _)|(_ & before & f & after & _ & _ & [(_ & ->)|(_ & _ & ->)])]];
      done.
Qed.

(** ** The rate limiter *)

Lemma checkRateLimit_open (ip : string) (now : Z) (counts : gmap string Limit)
    (limit : Limit) :
  counts !! ip = Some limit -> (now <= resetTime limit)%Z ->
  checkRateLimit ip now counts =
  if bool_decide (10 <= count limit) then (false, counts)
  else (true, <[ip := {| count := S (count limit); resetTime := resetTime limit |}]> counts).
Proof.
  intros Hl Hnow. unfold checkRateLimit. rewrite Hl.
  by rewrite bool_decide_eq_false_2 by lia.
Qed.

Lemma checkRateLimit_restart (ip : string) (now : Z) (counts : gmap string Limit) :
  counts !! ip = None \/
  (exists limit, counts !! ip = Some limit /\ (resetTime limit < now)%Z) ->
  checkRateLimit ip now counts =
  (true, <[ip := {| count := 1; resetTime := (now + hour)%Z |}]> counts).
Proof.
  unfold checkRateLimit. intros [->|(limit & -> & Hlt)]; [done|].
  by rewrite bool_decide_eq_true_2.
Qed.

(** X12: an address is refused exactly when it has an entry whose window
    is still open (up to and including its reset time) and whose count
    has reached 10.  A refusal writes nothing; a call never touches the
    entry of another address and never removes an entry; and the counts
    stay between 1 and 10. *)
Theorem checkRateLimit_keeps (ip : string) (now : Z) (counts : gmap string Limit) :
  ((checkRateLimit ip now counts).1 = false <->
   exists limit, counts !! ip = Some limit /\
     (now <= resetTime limit)%Z /\ 10 <= count limit) /\
  ((checkRateLimit ip now counts).1 = false ->
   (checkRateLimit ip now counts).2 = counts) /\
  (forall other : string, other <> ip ->
     (checkRateLimit ip now counts).2 !! other = counts !! other) /\
  (forall a : string, is_Some (counts !! a) ->
     is_Some ((checkRateLimit ip now counts).2 !! a)) /\
  ((forall a limit, counts !! a = Some limit -> 1 <= count limit <= 10) ->
   forall a limit, (checkRateLimit ip now counts).2 !! a = Some limit ->
     1 <= count limit <= 10).
Proof.
  unfold checkRateLimit.
  destruct (counts !! ip) as [limit|] eqn:Hl.
  - destruct (bool_decide (resetTime limit < now)%Z) eqn:Et.
    + apply bool_decide_eq_true in Et. cbn [fst snd]. split; [|split; [|split; [|split]]].
      * split; [discriminate|]. intros (l & [= <-] & Hopen & _). lia.
      * discriminate.
      * intros other Hne. by rewrite lookup_insert_ne.
      * intros a Ha. destruct (decide (ip = a)) as [<-|Hne];
          [by rewrite lookup_insert_eq|by rewrite lookup_insert_ne].
      * intros Hall a l. destruct (decide (ip = a)) as [<-|Hne].
        -- rewrite lookup_insert_eq. intros [= <-]. cbn. lia.
        -- rewrite lookup_insert_ne by done. apply Hall.
    + apply bool_decide_eq_false in Et.
      destruct (bool_decide (10 <= count limit)) eqn:Ec.
      * apply bool_decide_eq_true in Ec. cbn [fst snd].
        split; [|split; [|split; [|split]]]; try done.
        split; [|done]. intros _. exists limit. split; [done|]. split; [lia|done].
      * apply bool_decide_eq_false in Ec. cbn [fst snd].
        split; [|split; [|split; [|split]]].
        -- split; [discriminate|]. intros (l & [= <-] & _ & Hfull). lia.
        -- discriminate.
        -- intros other Hne. by rewrite lookup_insert_ne.
        -- intros a Ha. destruct (decide (ip = a)) as [<-|Hne];
             [by rewrite lookup_insert_eq|by rewrite lookup_insert_ne].
        -- intros Hall a l. destruct (decide (ip = a)) as [<-|Hne].
           ++ rewrite lookup_insert_eq. intros [= <-]. cbn.
              specialize (Hall ip limit Hl). lia.
           ++ rewrite lookup_insert_ne by done. apply Hall.
  - cbn [fst snd]. split; [|split; [|split; [|split]]].
    + split; [discriminate|]. intros (l & [=] & _).
    + discriminate.
    + intros other Hne. by rewrite lookup_insert_ne.
    + intros a Ha. destruct (decide (ip = a)) as [<-|Hne];
        [by rewrite lookup_insert_eq|by rewrite lookup_insert_ne].
    + intros Hall a l. destruct (decide (ip = a)) as [<-|Hne].
      * rewrite lookup_insert_eq. intros [= <-]. cbn. lia.
      * rewrite lookup_insert_ne by done. apply Hall.
Qed.

(** Inside an open window the calls are answered by the count alone. *)
Lemma checkAll_open (ip : string) (times : list Z) (counts : gmap string Limit)
    (limit : Limit) :
  counts !! ip = Some limit ->
  Forall (fun now => (now <= resetTime limit)%Z) times ->
  (checkAll ip times counts).1 =
    (fun i => bool_decide (count limit + i < 10)) <$> seq 0 (length times) /\
  exists final : Limit,
    (checkAll ip times counts).2 !! ip = Some final /\
    resetTime final = resetTime limit /\
    (count limit <= 10 -> count final = (count limit + length times) `min` 10).
Proof.
  revert counts limit. induction times as [|now times IH]; intros counts limit Hl Hopen.
  - split; [done|]. exists limit. split; [done|]. split; [done|]. cbn. lia.
  - apply Forall_cons in Hopen as [Hnow Hopen].
    cbn [checkAll]. rewrite (checkRateLimit_open _ _ _ _ Hl Hnow).
    destruct (bool_decide (10 <= count limit)) eqn:Ec.
    + apply bool_decide_eq_true in Ec.
      destruct (IH counts limit Hl Hopen) as (Hans & final & Hf & Hr & Hc).
      destruct (checkAll ip times counts) as [answers final_counts]. cbn [fst snd] in *.
      split.
      * cbn [length seq fmap list_fmap]. rewrite bool_decide_eq_false_2 by lia.
        f_equal. rewrite Hans, <- fmap_S_seq, <- list_fmap_compose.
        apply list_fmap_ext. intros _ i _. cbn.
        by rewrite !bool_decide_eq_false_2 by lia.
      * exists final. split; [done|]. split; [done|]. intros Hle.
        rewrite (Hc Hle). cbn [length]. lia.
    + apply bool_decide_eq_false in Ec.
      set (next := {| count := S (count limit); resetTime := resetTime limit |}).
      destruct (IH (<[ip := next]> counts) next) as (Hans & final & Hf & Hr & Hc);
        [by rewrite lookup_insert_eq|done|].
      destruct (checkAll ip times (<[ip := next]> counts)) as [answers final_counts].
      cbn [fst snd] in *. split.
      * cbn [length seq fmap list_fmap]. rewrite bool_decide_eq_true_2 by lia.
        f_equal. rewrite Hans, <- fmap_S_seq, <- list_fmap_compose.
        apply list_fmap_ext. intros _ i _. cbn.
        apply bool_decide_ext. lia.
      * exists final. split; [done|]. split; [done|]. intros Hle.
        rewrite Hc by (cbn; lia). cbn [length count next]. lia.
Qed.

(** X13: of the calls one address makes within an hour of its first call
    (the first on a missing or expired entry), the first ten are allowed
    and every later one is refused, however many there are; the entry
    ends with the count at the number of calls, capped at ten, and with
    the reset time one hour after the first call. *)
Theorem checkAll_window (ip : string) (first : Z) (later : list Z)
    (counts : gmap string Limit) :
  counts !! ip = None \/
  (exists limit, counts !! ip = Some limit /\ (resetTime limit < first)%Z) ->
  Forall (fun now => (now <= first + hour)%Z) later ->
  (checkAll ip (first :: later) counts).1 =
    (fun i => bool_decide (i < 10)) <$> seq 0 (S (length later)) /\
  (checkAll ip (first :: later) counts).2 !! ip =
    Some {| count := S (length later) `min` 10; resetTime := (first + hour)%Z |}.
Proof.
  intros Hstart Hlater. cbn [checkAll].
  rewrite (checkRateLimit_restart _ _ _ Hstart).
  set (started := {| count := 1; resetTime := (first + hour)%Z |}).
  destruct (checkAll_open ip later (<[ip := started]> counts) started)
    as (Hans & final & Hf & Hr & Hc); [by rewrite lookup_insert_eq|done|].
  destruct (checkAll ip later (<[ip := started]> counts)) as [answers final_counts].
  cbn [fst snd] in *. split.
  - cbn [seq fmap list_fmap]. f_equal.
    rewrite Hans, <- fmap_S_seq, <- list_fmap_compose.
    apply list_fmap_ext. intros _ i _. cbn. apply bool_decide_ext. lia.
  - rewrite Hf. f_equal. destruct final as [c r]. cbn in *. subst r.
    rewrite Hc by lia. f_equal.
Qed.

Lemma checkAll_window_witness :
  (checkAll "203.0.113.7" [1000; 1500; 2000; 2500; 3000; 3500; 4000; 4500; 5000; 5500;
                           6000; 3601000]%Z ∅).1 =
    (fun i => bool_decide (i < 10)) <$> seq 0 12 /\
  (checkAll "203.0.113.7" [1000; 1500; 2000; 2500; 3000; 3500; 4000; 4500; 5000; 5500;
                           6000; 3601000]%Z ∅).2 !! "203.0.113.7" =
    Some {| count := 10; resetTime := 3601000 |}.
Proof.
  apply (checkAll_window "203.0.113.7" 1000
           [1500; 2000; 2500; 3000; 3500; 4000; 4500; 5000; 5500; 6000; 3601000]%Z ∅).
  - by left.
  - repeat constructor; vm_compute; discriminate.
Defined.

(** ** The route's checks *)

Section RouteFacts.

Variable JSON_parse : string -> option JsValue.
Variable World : Type.
Variable createMessage : Upload -> World -> option string * World.

Let post := POST JSON_parse World createMessage.

(** Past the checks, the response is a success or an error of status
    500. *)
Lemma normalize_status (responseText : string) :
  (exists extracted, normalize JSON_parse responseText = DataResponse extracted) \/
  (exists message, normalize JSON_parse responseText = ErrorResponse message 500).
Proof.
  unfold normalize. destruct (jsonMatch responseText) as [m|]; [|right; by eexists].
  destruct (JSON_parse m) as [v|]; [|right; by eexists].
  destruct (sanitizeData v); [left|right]; by eexists.
Qed.

(** The limiter counts every request, whatever becomes of it. *)
Lemma POST_counts (request : Request) (now : Z) (server : Server World) :
  requestCounts (post request now server).2 =
  (checkRateLimit (clientAddress request) now (requestCounts server)).2.
Proof.
  unfold post, POST.
  destruct (checkRateLimit _ now _) as [[] counts]; cbn [negb fst snd]; [|done].
  destruct (formFile request) as [f|]; [|done].
  destruct (negb _); [done|]. destruct (bool_decide _); [done|].
  destruct (createMessage f (modelState server)) as [[text|] w]; done.
Qed.

Lemma POST_accepted (request : Request) (now : Z) (server : Server World) (f : Upload) :
  (checkRateLimit (clientAddress request) now (requestCounts server)).1 = true ->
  formFile request = Some f ->
  acceptable f ->
  post request now server =
  (match (createMessage f (modelState server)).1 with
   | None => ProcessingFailure
   | Some responseText => normalize JSON_parse responseText
   end,
   {| requestCounts :=
        (checkRateLimit (clientAddress request) now (requestCounts server)).2;
      modelState := (createMessage f (modelState server)).2 |}).
Proof.
  intros Hallowed Hf [Htype Hsize]. unfold post, POST.
  destruct (checkRateLimit _ now _) as [allowed counts]. cbn [fst snd] in *.
  subst allowed. cbn [negb]. rewrite Hf.
  rewrite bool_decide_eq_true_2 by done. cbn [negb].
  rewrite bool_decide_eq_false_2 by lia.
  by destruct (createMessage f (modelState server)) as [[text|] w].
Qed.

Lemma POST_rate_limited (request : Request) (now : Z) (server : Server World) :
  (post request now server).1 = RateLimited <->
  (checkRateLimit (clientAddress request) now (requestCounts server)).1 = false.
Proof.
  unfold post, POST.
  destruct (checkRateLimit _ now _) as [[] counts]; cbn [negb fst snd]; [|done].
  split; [|discriminate].
  destruct (formFile request) as [f|]; [|discriminate].
  destruct (negb _); [discriminate|]. destruct (bool_decide _); [discriminate|].
  destruct (createMessage f (modelState server)) as [[text|] w]; cbn [fst];
    [|discriminate].
  destruct (normalize_status text) as [[d ->]|[message ->]]; discriminate.
Qed.

(** X14: a request the limiter refuses, or that carries no file, a file
    that is not a PDF or one above 10 MiB, is answered with status 429 or
    400 and the model is not called; the limiter has counted it all the
    same, unless it refused it; and the answer is the rate-limit error
    exactly when the limiter refused. *)
Theorem POST_gate (request : Request) (now : Z) (server : Server World) :
  requestCounts (post request now server).2 =
    (checkRateLimit (clientAddress request) now (requestCounts server)).2 /\
  ((post request now server).1 = RateLimited <->
   (checkRateLimit (clientAddress request) now (requestCounts server)).1 = false) /\
  ((checkRateLimit (clientAddress request) now (requestCounts server)).1 = false \/
   formFile request = None \/
   (exists f, formFile request = Some f /\ ~ acceptable f) ->
   modelState (post request now server).2 = modelState server /\
   exists (message : string) (status : nat),
     (post request now server).1 = ErrorResponse message status /\
     (status = 429 \/ status = 400)).
Proof.
  split; [apply POST_counts|]. split; [apply POST_rate_limited|].
  unfold post, POST.
  destruct (checkRateLimit _ now _) as [[] counts]; cbn [negb fst snd].
  2:{ intros _. split; [done|]. eexists _, _. split; [reflexivity|by left]. }
  intros [[=]|[Hnone|(f & Hf & Hbad)]].
  - rewrite Hnone. split; [done|]. eexists _, _. split; [reflexivity|by right].
  - rewrite Hf.
    destruct (bool_decide (type f = "application/pdf")) eqn:Et; cbn [negb].
    2:{ split; [done|]. eexists _, _. split; [reflexivity|by right]. }
    apply bool_decide_eq_true in Et.
    destruct (bool_decide (maxSize < size f)%Z) eqn:Es.
    { split; [done|]. eexists _, _. split; [reflexivity|by right]. }
    apply bool_decide_eq_false in Es. destruct Hbad. split; [done|lia].
Qed.

(** X15: a file of a selection [validateFiles] accepted passes the
    route's own checks of type and size: once the limiter lets the
    request through, the model is called, and the response is the
    normalized reply (or the failure of the outer [catch] when the call
    throws). *)
Theorem validated_file_reaches_model (fileList : list Upload) (f : Upload)
    (request : Request) (now : Z) (server : Server World) :
  validateFiles fileList = None ->
  f ∈ fileList ->
  formFile request = Some f ->
  (checkRateLimit (clientAddress request) now (requestCounts server)).1 = true ->
  post request now server =
  (match (createMessage f (modelState server)).1 with
   | None => ProcessingFailure
   | Some responseText => normalize JSON_parse responseText
   end,
   {| requestCounts :=
        (checkRateLimit (clientAddress request) now (requestCounts server)).2;
      modelState := (createMessage f (modelState server)).2 |}).
Proof.
  intros [_ Hall]%validateFiles_None Hin Hf Hallowed.
  apply POST_accepted; [done|done|].
  by eapply Forall_forall in Hall.
Qed.

(** Inside an open window the requests of one address are answered by
    the count alone. *)
Lemma serve_open (ip : string) (requests : list (Request * Z)) (server : Server World)
    (limit : Limit) :
  requestCounts server !! ip = Some limit ->
  Forall (fun rt => clientAddress rt.1 = ip /\ (rt.2 <= resetTime limit)%Z) requests ->
  length (serve JSON_parse World createMessage requests server).1 = length requests /\
  forall (i : nat) (response : Response),
    (serve JSON_parse World createMessage requests server).1 !! i = Some response ->
    (response = RateLimited <-> 10 <= count limit + i).
Proof.
  revert server limit.
  induction requests as [|[request now] requests IH]; intros server limit Hl Hall.
  - split; [done|]. intros i response. cbn [serve fst]. by rewrite lookup_nil.
  - apply Forall_cons in Hall as [[Hip Hnow] Hall]. cbn [fst snd] in Hip, Hnow.
    cbn [serve]. fold post.
    pose proof (POST_counts request now server) as Hcounts.
    pose proof (POST_rate_limited request now server) as Hlimited.
    rewrite Hip, (checkRateLimit_open _ _ _ _ Hl Hnow) in Hcounts, Hlimited.
    destruct (post request now server) as [response1 server1]. cbn [fst snd] in *.
    destruct (bool_decide (10 <= count limit)) eqn:Ec; cbn [fst snd] in *.
    + apply bool_decide_eq_true in Ec.
      destruct (IH server1 limit) as [Hlen Hresp]; [by rewrite Hcounts|done|].
      destruct (serve JSON_parse World createMessage requests server1)
        as [responses server2]. cbn [fst snd] in *.
      split; [cbn [length]; by rewrite Hlen|].
      intros [|i] response; cbn.
      * intros [= <-]. rewrite Hlimited. split; [lia|done].
      * intros Hi. rewrite (Hresp i response Hi). lia.
    + apply bool_decide_eq_false in Ec.
      set (next := {| count := S (count limit); resetTime := resetTime limit |}) in *.
      destruct (IH server1 next) as [Hlen Hresp];
        [by rewrite Hcounts, lookup_insert_eq|done|].
      destruct (serve JSON_parse World createMessage requests server1)
        as [responses server2]. cbn [fst snd] in *.
      split; [cbn [length]; by rewrite Hlen|].
      intros [|i] response; cbn.
      * intros [= <-]. rewrite Hlimited. split; [discriminate|lia].
      * intros Hi. rewrite (Hresp i response Hi). cbn [count next]. lia.
Qed.

(** X16: of the requests one address sends within an hour of its first
    one (the first on a missing entry), exactly those after the tenth are
    answered with the rate-limit error, whatever the requests carry: a
    request rejected for its file, or failed in extraction, uses up one
    of the ten like a successful one. *)
Theorem serve_window (ip : string) (request : Request) (first : Z)
    (later : list (Request * Z)) (server : Server World) :
  requestCounts server !! ip = None ->
  clientAddress request = ip ->
  Forall (fun rt => clientAddress rt.1 = ip /\ (rt.2 <= first + hour)%Z) later ->
  length (serve JSON_parse World createMessage ((request, first) :: later) server).1 =
    S (length later) /\
  forall (i : nat) (response : Response),
    (serve JSON_parse World createMessage ((request, first) :: later) server).1 !! i =
      Some response ->
    (response = RateLimited <-> 10 <= i).
Proof.
  intros Hfresh Hip Hlater. cbn [serve]. fold post.
  pose proof (POST_counts request first server) as Hcounts.
  pose proof (POST_rate_limited request first server) as Hlimited.
  rewrite Hip, (checkRateLimit_restart ip first _ (or_introl Hfresh)) in Hcounts, Hlimited.
  destruct (post request first server) as [response1 server1]. cbn [fst snd] in *.
  set (started := {| count := 1; resetTime := (first + hour)%Z |}) in *.
  destruct (serve_open ip later server1 started) as [Hlen Hresp];
    [by rewrite Hcounts, lookup_insert_eq|done|].
  destruct (serve JSON_parse World createMessage later server1) as [responses server2].
  cbn [fst snd] in *. split; [cbn [length]; by rewrite Hlen|].
  intros [|i] response; cbn.
  - intros [= <-]. rewrite Hlimited. split; [discriminate|lia].
  - intros Hi. rewrite (Hresp i response Hi). cbn [count started]. lia.
Qed.

End RouteFacts.

Lemma validated_file_reaches_model_witness :
  POST parseAcme unit answersAcme acmeRequest 1000 freshServer =
  (match (answersAcme acmePdf (modelState freshServer)).1 with
   | None => ProcessingFailure
   | Some responseText => normalize parseAcme responseText
   end,
   {| requestCounts :=
        (checkRateLimit (clientAddress acmeRequest) 1000 (requestCounts freshServer)).2;
      modelState := (answersAcme acmePdf (modelState freshServer)).2 |}).
Proof.
  apply (validated_file_reaches_model parseAcme unit answersAcme [acmePdf] acmePdf
           acmeRequest 1000 freshServer).
  - reflexivity.
  - apply list_elem_of_here.
  - reflexivity.
  - reflexivity.
Defined.

(** The spec's reply, served: the first request of an address gets the
    sanitized payload. *)
Example POST_acme :
  (POST parseAcme unit answersAcme acmeRequest 1000 freshServer).1 =
  DataResponse (JObject acmeSanitized).
Proof. vm_compute. reflexivity. Qed.

Lemma serve_window_witness :
  length (serve parseAcme unit answersAcme
            ((emptyRequest, 1000%Z) :: replicate 10 (acmeRequest, 2000%Z)) freshServer).1 =
    S (length (replicate 10 (acmeRequest, 2000%Z))) /\
  forall (i : nat) (response : Response),
    (serve parseAcme unit answersAcme
       ((emptyRequest, 1000%Z) :: replicate 10 (acmeRequest, 2000%Z)) freshServer).1 !! i =
      Some response ->
    (response = RateLimited <-> 10 <= i).
Proof.
  apply (serve_window parseAcme unit answersAcme "203.0.113.7" emptyRequest 1000
           (replicate 10 (acmeRequest, 2000%Z)) freshServer).
  - reflexivity.
  - reflexivity.
  - apply Forall_replicate. split; [reflexivity|]. vm_compute. discriminate.
Defined.

(** Ten requests are answered; the eleventh, though valid, is refused,
    the first having used one of the ten without carrying a file. *)
Example eleventh_request :
  (serve parseAcme unit answersAcme
     ((emptyRequest, 1000%Z) :: replicate 10 (acmeRequest, 2000%Z)) freshServer).1 !! 0 =
    Some NoFile /\
  (serve parseAcme unit answersAcme
     ((emptyRequest, 1000%Z) :: replicate 10 (acmeRequest, 2000%Z)) freshServer).1 !! 9 =
    Some (DataResponse (JObject acmeSanitized)) /\
  (serve parseAcme unit answersAcme
     ((emptyRequest, 1000%Z) :: replicate 10 (acmeRequest, 2000%Z)) freshServer).1 !! 10 =
    Some RateLimited.
Proof. repeat split; vm_compute; reflexivity. Qed.

(** ** A batch of the page against the limiter of the route *)

Section DeploymentFacts.

Variable JSON_parse : string -> option JsValue.
Variable World : Type.
Variable createMessage : Upload -> World -> option string * World.
Variable address : option string.
Variable describe : File -> Upload.
Variable decode : JsValue -> InvoiceRecord.
Variable clock : nat -> Z.

Let ip := clientAddress {| x_forwarded_for := address; formFile := None |}.
Let fetch := roundTrip JSON_parse World createMessage address describe decode clock.
Let pause : Server World * nat -> Server World * nat := id.
Let trips := roundTrips (Server World * nat) fetch pause.

(** What one round trip does to the limiter and to the count of
    requests, and what the page makes of a refusal. *)
Lemma roundTrip_step (f : File) (server : Server World) (n : nat) :
  requestCounts (fetch f (server, n)).2.1 =
    (checkRateLimit ip (clock n) (requestCounts server)).2 /\
  (fetch f (server, n)).2.2 = S n /\
  ((checkRateLimit ip (clock n) (requestCounts server)).1 = false ->
   tryBlock f (fetch f (server, n)).1 = None).
Proof.
  unfold fetch, roundTrip. cbn [fst snd].
  pose proof (POST_counts JSON_parse World createMessage
                {| x_forwarded_for := address; formFile := Some (describe f) |}
                (clock n) server) as Hcounts.
  pose proof (POST_rate_limited JSON_parse World createMessage
                {| x_forwarded_for := address; formFile := Some (describe f) |}
                (clock n) server) as Hlimited.
  change (clientAddress _) with ip in Hcounts, Hlimited.
  destruct (POST JSON_parse World createMessage _ (clock n) server) as [response server'].
  cbn [fst snd] in *. split; [done|]. split; [done|].
  intros Hrefused. apply Hlimited in Hrefused as ->. reflexivity.
Qed.

Lemma trips_cons (total : nat) (f : File) (files : list File) (i : nat)
    (w : Server World * nat) :
  trips total i (f :: files) w =
  (f, (fetch f w).1) :: trips total (S i) files (fetch f w).2.
Proof.
  unfold trips. rewrite roundTrips_cons. by destruct (decide (i < total - 1)).
Qed.

(** Inside an open window a batch gets what is left of the ten. *)
Lemma trips_open (total : nat) (files : list File) (i : nat) (server : Server World)
    (n : nat) (limit : Limit) :
  requestCounts server !! ip = Some limit ->
  (forall k, k < length files -> (clock (n + k) <= resetTime limit)%Z) ->
  (forall (j : nat) (f : File) (outcome : FetchOutcome),
     trips total i files (server, n) !! j = Some (f, outcome) ->
     10 <= count limit + j -> tryBlock f outcome = None) /\
  length (omap succeeded (trips total i files (server, n))) <= 10 - count limit.
Proof.
  revert i server n limit.
  induction files as [|f files IH]; intros i server n limit Hl Hclock.
  - split; [|cbn; lia]. intros j f outcome. unfold trips. cbn [roundTrips].
    by rewrite lookup_nil.
  - rewrite trips_cons.
    destruct (roundTrip_step f server n) as (Hcounts & Hn & Hrefused).
    assert (Hnow : (clock n <= resetTime limit)%Z).
    { specialize (Hclock 0). rewrite Nat.add_0_r in Hclock. apply Hclock. cbn. lia. }
    rewrite (checkRateLimit_open _ _ _ _ Hl Hnow) in Hcounts, Hrefused.
    destruct (fetch f (server, n)) as [outcome [server' n']]. cbn [fst snd] in *. subst n'.
    assert (Hclock' : forall k, k < length files ->
              (clock (S n + k) <= resetTime limit)%Z).
    { intros k Hk. replace (S n + k) with (n + S k) by lia. apply Hclock. cbn. lia. }
    destruct (bool_decide (10 <= count limit)) eqn:Ec; cbn [fst snd] in *.
    + apply bool_decide_eq_true in Ec.
      destruct (IH (S i) server' (S n) limit) as [Hlate Hlen]; [by rewrite Hcounts|done|].
      split.
      * intros [|j] g o; cbn.
        -- intros [= <- <-] _. by apply Hrefused.
        -- intros Hj Hten. apply (Hlate j g o Hj). lia.
      * cbn [omap list_omap]. unfold succeeded at 1. cbn [fst snd].
        rewrite (Hrefused eq_refl). lia.
    + apply bool_decide_eq_false in Ec.
      set (next := {| count := S (count limit); resetTime := resetTime limit |}) in *.
      destruct (IH (S i) server' (S n) next) as [Hlate Hlen];
        [by rewrite Hcounts, lookup_insert_eq|done|].
      cbn [count next] in Hlate, Hlen. split.
      * intros [|j] g o; cbn.
        -- intros _ Hten. lia.
        -- intros Hj Hten. apply (Hlate j g o Hj). lia.
      * cbn [omap list_omap]. unfold succeeded at 1. cbn [fst snd].
        destruct (tryBlock f outcome); cbn [length]; lia.
Qed.

Lemma forEachFrom_requests (total : nat) (files : list File) (i : nat)
    (b : Batch (Server World * nat)) :
  (world (forEachFrom (processFile (Server World * nat) fetch pause total) i files b)).2 =
  (world b).2 + length files.
Proof.
  revert i b. induction files as [|f files IH]; intros i b; cbn [forEachFrom length]; [lia|].
  rewrite IH.
  destruct (processFile_step (Server World * nat) fetch pause total b f i) as (_ & _ & ->).
  destruct (world b) as [server n].
  destruct (roundTrip_step f server n) as (_ & Hn & _).
  destruct (decide (i < total - 1)); unfold pause, id; rewrite Hn; cbn [snd]; lia.
Qed.

(** X17: a batch of the page served by the route, from an address the
    limiter has no entry for and all within an hour of its first
    request: the page sends exactly one request per document, at most
    ten documents come back as invoices, and every document after the
    tenth is reported as failed, although [validateFiles] admits fifty. *)
Theorem batch_against_rate_limit (files : list File) (server : Server World) (n : nat) :
  files <> [] ->
  requestCounts server !! ip = None ->
  (forall k, k < length files -> (clock (n + k) <= clock n + hour)%Z) ->
  exists st : Submitted (Server World * nat),
    handleSubmit (Server World * nat) fetch pause files (server, n) = Some st /\
    length (extractedInvoices st) <= 10 /\
    (forall (i : nat) (f : File), files !! i = Some f -> 10 <= i -> name f ∈ failed st) /\
    (finalWorld st).2 = n + length files.
Proof.
  intros Hne Hfresh Hclock. unfold handleSubmit.
  destruct (decide (length files = 0)) as [Hz|_].
  { destruct files; [done|discriminate Hz]. }
  eexists. split; [reflexivity|]. cbn [extractedInvoices failed finalWorld].
  destruct (forEachFrom_processFile (Server World * nat) fetch pause (length files) files 0
              {| results := []; failedFiles := []; world := (server, n) |}) as [Hr Hf].
  cbn [results failedFiles world app] in Hr, Hf. unfold forEach.
  rewrite Hr, Hf, forEachFrom_requests. cbn [world snd]. clear Hr Hf.
  fold trips. split; [|split; [|done]].
  - destruct files as [|f files]; [done|]. rewrite trips_cons.
    destruct (roundTrip_step f server n) as (Hcounts & Hn & _).
    rewrite (checkRateLimit_restart ip (clock n) _ (or_introl Hfresh)) in Hcounts.
    destruct (fetch f (server, n)) as [outcome [server' n']]. cbn [fst snd] in *. subst n'.
    set (started := {| count := 1; resetTime := (clock n + hour)%Z |}) in *.
    destruct (trips_open (length (f :: files)) files 1 server' (S n) started) as [_ Hlen].
    { by rewrite Hcounts, lookup_insert_eq. }
    { intros k Hk. replace (S n + k) with (n + S k) by lia. apply Hclock. cbn. lia. }
    cbn [omap list_omap]. unfold succeeded at 1. cbn [fst snd].
    unfold started in Hlen. cbn [count] in Hlen.
    set (rest := omap succeeded _) in *.
    destruct (tryBlock f outcome); cbn [length]; lia.
  - intros i f Hi Hten.
    assert (Hfiles : (trips (length files) 0 files (server, n)).*1 = files)
      by apply roundTrips_files.
    assert (Htrip : exists outcome,
              trips (length files) 0 files (server, n) !! i = Some (f, outcome)).
    { rewrite <- Hfiles in Hi. rewrite list_lookup_fmap in Hi.
      destruct (trips (length files) 0 files (server, n) !! i) as [[g o]|] eqn:E;
        [|discriminate].
      injection Hi as <-. by exists o. }
    destruct Htrip as [outcome Htrip].
    assert (Hnone : tryBlock f outcome = None).
    { destruct files as [|f0 files]; [done|]. rewrite trips_cons in Htrip.
      destruct i as [|i]; [lia|]. cbn in Htrip.
      destruct (roundTrip_step f0 server n) as (Hcounts & Hn & _).
      rewrite (checkRateLimit_restart ip (clock n) _ (or_introl Hfresh)) in Hcounts.
      destruct (fetch f0 (server, n)) as [outcome0 [server' n']]. cbn [fst snd] in *.
      subst n'.
      set (started := {| count := 1; resetTime := (clock n + hour)%Z |}) in *.
      destruct (trips_open (length (f0 :: files)) files 1 server' (S n) started)
        as [Hlate _].
      { by rewrite Hcounts, lookup_insert_eq. }
      { intros k Hk. replace (S n + k) with (n + S k) by lia. apply Hclock. cbn. lia. }
      apply (Hlate i f outcome Htrip). unfold started. cbn [count]. lia. }
    apply list_elem_of_omap. exists (f, outcome). split.
    + apply list_elem_of_lookup. by exists i.
    + unfold failedName. cbn [fst snd]. by rewrite Hnone.
Qed.

End DeploymentFacts.

Lemma batch_against_rate_limit_witness :
  exists st : Submitted (Server unit * nat),
    handleSubmit (Server unit * nat)
      (roundTrip parseAcme unit answersAcme (Some "203.0.113.7") asPdf readNothing
         halfSeconds)
      id (replicate 12 {| name := "a.pdf" |}) (freshServer, 0) = Some st /\
    length (extractedInvoices st) <= 10 /\
    (forall (i : nat) (f : File),
       replicate 12 {| name := "a.pdf" |} !! i = Some f -> 10 <= i ->
       name f ∈ failed st) /\
    (finalWorld st).2 = 0 + length (replicate 12 {| name := "a.pdf" |}).
Proof.
  apply (batch_against_rate_limit parseAcme unit answersAcme (Some "203.0.113.7")
           asPdf readNothing halfSeconds
           (replicate 12 {| name := "a.pdf" |}) freshServer 0).
  - discriminate.
  - reflexivity.
  - intros k Hk. unfold halfSeconds, hour. cbn [length replicate] in Hk. lia.
Defined.

(** Twelve valid documents from a fresh address: ten invoices, two
    failures. *)
Example batch_of_twelve :
  option_map (fun st => (length (extractedInvoices st), failed st))
    (handleSubmit (Server unit * nat)
       (roundTrip parseAcme unit answersAcme (Some "203.0.113.7") asPdf readNothing
          halfSeconds)
       id (replicate 12 {| name := "a.pdf" |}) (freshServer, 0)) =
  Some (10, ["a.pdf"; "a.pdf"]).
Proof. vm_compute. reflexivity. Qed.

(** ** More on the match *)

Lemma throughLast_app (c : ascii) (a post : string) :
  occurs c post = false ->
  throughLast c (a +:+ String c post) = Some (a +:+ String c "").
Proof.
  intros Hpost. induction a as [|d a IH].
  - rewrite !app_nil_l_s. cbn [throughLast].
    assert (E : throughLast c post = None) by (by apply throughLast_None).
    rewrite E. by replace (isChar c c) with true by (symmetry; by apply isChar_true).
  - rewrite !app_cons_s. cbn [throughLast]. by rewrite IH.
Qed.

(** X18: when the text before the first ["{"] has no ["{"] and the text
    after the last ["}"] has no ["}"], the match is exactly what lies
    between them, braces inside included, so that two objects in one
    reply are taken as one candidate; and matching a match again returns
    it unchanged. *)
Theorem jsonMatch_exact (pre mid post : string) :
  occurs "{" pre = false ->
  occurs "}" post = false ->
  jsonMatch (pre +:+ "{" +:+ mid +:+ "}" +:+ post) = Some ("{" +:+ mid +:+ "}") /\
  jsonMatch ("{" +:+ mid +:+ "}") = Some ("{" +:+ mid +:+ "}").
Proof.
  intros Hpre Hpost.
  assert (Hopen : forall tail : string,
            occurs "}" tail = false ->
            jsonMatch ("{" +:+ mid +:+ "}" +:+ tail) = Some ("{" +:+ mid +:+ "}")).
  { intros tail Htail. change ("{" +:+ ?x) with (String "{" x).
    cbn [jsonMatch]. replace (isChar "{" "{") with true by reflexivity.
    change ("}" +:+ tail) with (String "}" tail).
    change ("}" : string) with (String "}" "").
    by rewrite (throughLast_app "}" mid tail Htail). }
  split.
  - induction pre as [|c pre IH]; [by apply Hopen|].
    cbn [occurs] in Hpre. apply orb_false_iff in Hpre as [Hc Hpre].
    rewrite app_cons_s. cbn [jsonMatch]. rewrite Hc. by apply IH.
  - specialize (Hopen "" eq_refl). by rewrite !app_nil_r_s in Hopen.
Qed.

Lemma jsonMatch_exact_witness :
  jsonMatch ("Two: " +:+ "{" +:+ "a} and {b" +:+ "}" +:+ " done.") =
    Some ("{" +:+ "a} and {b" +:+ "}") /\
  jsonMatch ("{" +:+ "a} and {b" +:+ "}") = Some ("{" +:+ "a} and {b" +:+ "}").
Proof.
  apply (jsonMatch_exact "Two: " "a} and {b" " done."); reflexivity.
Defined.

(** ** More on the sanitizing *)

Lemma replaceTags_length (inTag : bool) (s : string) :
  String.length (replaceTags inTag s) <= String.length s.
Proof.
  revert inTag. induction s as [|c s IH]; intros inTag; [by destruct inTag|].
  cbn [replaceTags String.length]. destruct inTag.
  - destruct (isChar c ">"); [specialize (IH false)|specialize (IH true)]; lia.
  - destruct (isChar c "<" && occurs ">" s).
    + specialize (IH true). lia.
    + cbn [String.length]. specialize (IH false). lia.
Qed.

(** X19: the replacement changes a string exactly when it holds a tag (a
    ["<"] with a [">"] somewhere after it), so a lone ["<"] or [">"]
    stays; it never makes a string longer, and never brings in a
    character the string did not have. *)
Theorem replaceTags_changes (s : string) :
  (replaceTags false s = s <-> ~ hasTag s) /\
  String.length (replaceTags false s) <= String.length s /\
  (forall c : ascii, occurs c s = false -> occurs c (replaceTags false s) = false).
Proof.
  split; [|split; [apply replaceTags_length|intros c; apply occurs_replaceTags]].
  rewrite <- hasTagb_spec. split.
  - intros Hsame Htag. rewrite <- Hsame, replaceTags_no_tag in Htag. discriminate.
  - intros Hno. apply replaceTags_id. by destruct (hasTagb s).
Qed.

Lemma trimStart_id (s : string) : startsWhite s = false -> trimStart s = s.
Proof. destruct s as [|c s]; [done|]. cbn. by intros ->. Qed.

Lemma trimEnd_id (s : string) : endsWhite s = false -> trimEnd s = s.
Proof.
  induction s as [|c s IH]; [done|]. destruct s as [|d s].
  - cbn. by intros ->.
  - intros H. change (endsWhite (String c (String d s))) with (endsWhite (String d s)) in H.
    cbn [trimEnd] in *. rewrite (IH H). reflexivity.
Qed.

Lemma trim_idempotent (s : string) : trim (trim s) = trim s.
Proof.
  destruct (trim_trimmed s) as [Hstart Hend].
  unfold trim at 1. by rewrite (trimStart_id _ Hstart), (trimEnd_id _ Hend).
Qed.

Lemma sanitize_twice (v : JsValue) : sanitize (sanitize v) = sanitize v.
Proof.
  destruct v as [| | | |s| |]; try reflexivity. cbn [sanitize]. f_equal.
  rewrite replaceTags_id; [apply trim_idempotent|].
  apply trim_no_tag, replaceTags_no_tag.
Qed.

(** X20: sanitizing a value that has been sanitized changes nothing: the
    trimming leaves no tag behind for a second pass to remove, and the
    removal of tags is done before the trimming, so no white space a tag
    was hiding is left at an end. *)
Theorem sanitize_idempotent (v : JsValue) :
  sanitize (sanitize v) = sanitize v /\
  (forall s : string, v = JString s ->
     exists t : string,
       sanitize v = JString t /\ replaceTags false t = t /\ trim t = t).
Proof.
  split; [apply sanitize_twice|]. intros s ->.
  exists (trim (replaceTags false s)). split; [reflexivity|]. split.
  - apply replaceTags_id, trim_no_tag, replaceTags_no_tag.
  - apply trim_idempotent.
Qed.

Lemma existsb_isNullish_objects (items : list JsValue) :
  (forall (i : nat) (x : JsValue), items !! i = Some x -> isNullish x = false) ->
  existsb isNullish items = false.
Proof.
  induction items as [|x items IH]; intros H; [done|].
  cbn [existsb]. rewrite (H 0 x eq_refl). cbn [orb].
  apply IH. intros i y Hy. by apply (H (S i)).
Qed.

(** Where the values of a sanitized object come from. *)
Lemma sanitizeData_origin (props p : gmap string JsValue) :
  hasNullLineItem props = false ->
  sanitizeData (JObject props) = Some (JObject p) ->
  (forall (k : string) (v' : JsValue), p !! k = Some v' ->
     (exists v : JsValue, props !! k = Some v /\ v' = sanitize v /\
                          (k <> "line_items" \/ isArray v = false)) \/
     (k = "line_items" /\
      exists items items' : list JsValue,
        props !! k = Some (JArray items) /\ v' = JArray items' /\
        length items' = length items /\
        forall (i : nat) (item : JsValue), items !! i = Some item ->
          items' !! i =
          Some (JObject (<["description" := sanitize (descriptionOf item)]>
                           (spread item))))) /\
  (forall k : string, is_Some (p !! k) <-> is_Some (props !! k)).
Proof.
  intros Hnull Hp.
  destruct (sanitizeData_object props Hnull) as (p0 & Hok & Hval & Hnone & Hitems).
  assert (p0 = p) as -> by congruence.
  assert (Hcase : forall (k : string) (v : JsValue), props !! k = Some v ->
            (p !! k = Some (sanitize v) /\ (k <> "line_items" \/ isArray v = false)) \/
            (k = "line_items" /\
             exists items items' : list JsValue,
               v = JArray items /\ p !! k = Some (JArray items') /\
               length items' = length items /\
               forall (i : nat) (item : JsValue), items !! i = Some item ->
                 items' !! i =
                 Some (JObject (<["description" := sanitize (descriptionOf item)]>
                                  (spread item))))).
  { intros k v Hk. destruct (decide (k = "line_items")) as [->|Hne].
    - destruct (isArray v) eqn:Harr.
      + right. split; [done|]. destruct v as [| | | | |items|]; try discriminate.
        destruct (Hitems items Hk) as (items' & Hli & Hlen & Hlook).
        by exists items, items'.
      + left. split; [apply Hval; auto|auto].
    - left. split; [apply Hval; auto|auto]. }
  split.
  - intros k v' Hk. destruct (props !! k) as [v|] eqn:Ek.
    + destruct (Hcase k v Ek) as [[Hv Hwhere]|(-> & items & items' & -> & Hli & Hlen & Hlook)].
      * left. exists v. split; [done|]. split; [congruence|done].
      * right. split; [done|]. exists items, items'.
        split; [done|]. split; [congruence|done].
    + rewrite (Hnone k Ek) in Hk. discriminate.
  - intros k. split.
    + intros [v' Hk]. destruct (props !! k) as [v|] eqn:Ek; [by eexists|].
      rewrite (Hnone k Ek) in Hk. discriminate.
    + intros [v Hk].
      destruct (Hcase k v Hk) as [[Hv _]|(-> & items & items' & _ & Hli & _)]; by eexists.
Qed.

(** X21: sanitizing a parsed object keeps its set of keys, and sanitizing
    the result again returns it unchanged. *)
Theorem sanitizeData_idempotent (props : gmap string JsValue) :
  hasNullLineItem props = false ->
  exists props' : gmap string JsValue,
    sanitizeData (JObject props) = Some (JObject props') /\
    (forall k : string, is_Some (props' !! k) <-> is_Some (props !! k)) /\
    sanitizeData (JObject props') = Some (JObject props').
Proof.
  intros Hnull.
  destruct (sanitizeData_object props Hnull) as (p & Hok & _).
  destruct (sanitizeData_origin props p Hnull Hok) as [Horigin Hkeys].
  exists p. split; [exact Hok|]. split; [exact Hkeys|].
  assert (Hnull' : hasNullLineItem p = false).
  { unfold hasNullLineItem. destruct (p !! "line_items") as [v'|] eqn:Eli; [|done].
    destruct v' as [| | | | |items'|]; try done.
    apply existsb_isNullish_objects. intros i x Hx.
    destruct (Horigin _ _ Eli)
      as [(v & Hv & Hsan & [Hne|Harr])|(_ & items & items0 & Hli & Heq & Hlen & Hlook)].
    - done.
    - destruct v; discriminate.
    - assert (items0 = items') as -> by congruence.
      destruct (lookup_lt_is_Some_2 items i) as [item Hitem].
      { rewrite <- Hlen. apply lookup_lt_is_Some_1. by eexists. }
      rewrite (Hlook i item Hitem) in Hx. by injection Hx as <-. }
  destruct (sanitizeData_object p Hnull') as (q & Hq & Hval & Hnone & Hitems).
  rewrite Hq. do 2 f_equal. apply map_eq. intros k.
  destruct (p !! k) as [v'|] eqn:Ek; [|by apply Hnone].
  destruct (Horigin _ _ Ek)
    as [(v & Hv & -> & Hwhere)|(-> & items & items' & Hli & -> & Hlen & Hlook)].
  - rewrite <- (sanitize_twice v). apply Hval; [done|].
    destruct Hwhere as [Hne|Harr]; [by left|right]. by destruct v.
  - destruct (Hitems items' Ek) as (items'' & -> & Hlen' & Hlook').
    do 2 f_equal. apply list_eq. intros i.
    destruct (items' !! i) as [x|] eqn:Ex.
    + rewrite (Hlook' i x Ex).
      destruct (lookup_lt_is_Some_2 items i) as [item Hitem].
      { rewrite <- Hlen. apply lookup_lt_is_Some_1. by eexists. }
      rewrite (Hlook i item Hitem) in Ex.
      assert (JObject (<["description" := sanitize (descriptionOf item)]> (spread item)) = x)
        as <- by congruence.
      unfold descriptionOf at 1. cbn [readDescription spread default from_option id].
      rewrite lookup_insert_eq. cbn [default from_option id].
      by rewrite sanitize_twice, insert_insert_eq.
    + apply lookup_ge_None_2. rewrite Hlen'. by apply lookup_ge_None_1.
Qed.

Lemma sanitizeData_idempotent_witness :
  exists props' : gmap string JsValue,
    sanitizeData (JObject acmePayload) = Some (JObject props') /\
    (forall k : string, is_Some (props' !! k) <-> is_Some (acmePayload !! k)) /\
    sanitizeData (JObject props') = Some (JObject props').
Proof. apply (sanitizeData_idempotent acmePayload). vm_compute. reflexivity. Defined.

(** ** Instances *)

(** A handler called with an index past the ledger throws. *)
Lemma mutate_outcome_witness : mutate 5 AddLineItem [staleInvoice] = TypeError.
Proof.
  apply (proj1 (mutate_outcome [staleInvoice] 5 AddLineItem)). left. reflexivity.
Defined.

(** [updateInvoice] just past the end appends. *)
Lemma updateInvoice_bounds_witness :
  updateInvoice 1 (TextUpdate Fvendor_name (Some "Acme")) [staleInvoice] =
  Returns ([staleInvoice] ++
           [assignInvoiceField (TextUpdate Fvendor_name (Some "Acme")) emptyInvoice]).
Proof.
  apply (updateInvoice_bounds [staleInvoice] 1 (TextUpdate Fvendor_name (Some "Acme"))).
  reflexivity.
Defined.

(** After a PDF is dropped on a fresh page the button is shown. *)
Lemma selection_is_validated_witness :
  1 <= length (Picker.files (foldl Picker.step Picker.initial [Picker.Drop [acmePdf]])) <= 50 /\
  Forall acceptable (Picker.files (foldl Picker.step Picker.initial [Picker.Drop [acmePdf]])).
Proof.
  apply (proj2 (selection_is_validated [Picker.Drop [acmePdf]])). vm_compute. reflexivity.
Defined.

(** A text file dropped after a PDF was chosen. *)
Lemma rejected_choice_witness :
  Picker.files
    (Picker.handleDrop
       [{| file := {| name := "notes.txt" |}; type := "text/plain"; size := 12 |}]
       (Picker.handleChange [acmePdf] Picker.initial)) = [acmePdf] /\
  Picker.canSubmit
    (Picker.handleDrop
       [{| file := {| name := "notes.txt" |}; type := "text/plain"; size := 12 |}]
       (Picker.handleChange [acmePdf] Picker.initial)) = false.
Proof.
  destruct (proj1 (rejected_choice
                     [{| file := {| name := "notes.txt" |}; type := "text/plain"; size := 12 |}]
                     (Picker.handleChange [acmePdf] Picker.initial))
              (notPdfMessage
                 {| file := {| name := "notes.txt" |}; type := "text/plain"; size := 12 |})
              ltac:(discriminate) eq_refl)
    as (Hfiles & _ & Hbutton & _).
  split; [exact Hfiles|exact Hbutton].
Defined.

(** An address at its tenth request inside the window is refused, and
    the map stays. *)
Lemma checkRateLimit_keeps_witness :
  (checkRateLimit "203.0.113.7" 2000
     {["203.0.113.7" := {| count := 10; resetTime := 3601000 |}]}).2 =
  {["203.0.113.7" := {| count := 10; resetTime := 3601000 |}]}.
Proof.
  destruct (checkRateLimit_keeps "203.0.113.7" 2000
              {["203.0.113.7" := {| count := 10; resetTime := 3601000 |}]})
    as (_ & Hsame & _).
  apply Hsame. vm_compute. reflexivity.
Defined.

(** A request without a file: status 400, the model not called. *)
Lemma POST_gate_witness :
  modelState (POST parseAcme unit answersAcme emptyRequest 1000 freshServer).2 =
    modelState freshServer /\
  exists (message : string) (status : nat),
    (POST parseAcme unit answersAcme emptyRequest 1000 freshServer).1 =
      ErrorResponse message status /\
    (status = 429 \/ status = 400).
Proof.
  destruct (POST_gate parseAcme unit answersAcme emptyRequest 1000 freshServer)
    as (_ & _ & Hgate).
  apply Hgate. right. left. reflexivity.
Defined.
